(** * cfncli cleanup-env: a shallow embedding of [cfncli/cli/cleanup_environment.py]

    The Python module lists AWS resources through boto3, filters them by
    name, asks the operator for confirmation through click and then calls
    the delete or update endpoints.  The embedding keeps that shape:

    - the provider (boto3) is an interface, [Boto3], whose operations return
      either an SDK error or a value and a new provider state;
    - the operator and the Python runtime are an interface, [Host];
    - a program is a function from the provider state to an outcome, the new
      provider state and the list of observable events (messages printed,
      prompts answered, provider calls issued), in the order they happen. *)

From Stdlib Require Import List String Ascii ZArith Bool Lia Permutation Sorted.
Import ListNotations.
Local Open Scope string_scope.
Local Open Scope list_scope.

(** ** Python strings *)

(** [sub in s] on Python strings: [sub] occurs in [s] at some offset. *)
Fixpoint str_in (sub s : string) : bool :=
  String.prefix sub s ||
  match s with
  | EmptyString => false
  | String _ s' => str_in sub s'
  end.

(** [s.startswith(p)]. *)
Definition startswith (s p : string) : bool := String.prefix p s.

(** ["\n".join(names)]. *)
Definition newline : string := String (ascii_of_nat 10) EmptyString.
Definition join_lines (names : list string) : string := String.concat newline names.

(** [any(sub in name for sub in substrings)]. *)
Definition any_in (substrings : list string) (name : string) : bool :=
  existsb (fun sub => str_in sub name) substrings.

(** ** Provider data, as the gatherers read it *)

(** One entry of [page["StackSummaries"]]; [ParentId] is a key that nested
    stacks carry and parent stacks lack; [CreationTime] is a timestamp. *)
Record StackSummary := {
  StackName : string;
  StackStatus : string;
  ParentId : option string;
  CreationTime : Z
}.

(** [function["VpcConfig"]], read with [.get("VpcId")]. *)
Record VpcConfigResponse := { VpcId : option string }.

(** One entry of [page["Functions"]]; the [VpcConfig] key may be absent. *)
Record FunctionConfiguration := {
  FunctionName : string;
  VpcConfig : option VpcConfigResponse
}.

Record Bucket := { name : string }.
Record Repository := { repositoryName : string }.
Record LogGroup := { logGroupName : string }.
Record ParameterMetadata := { Name : string }.
Record ImageIdentifier := { imageDigest : string; imageTag : option string }.

(** The statuses CloudFormation reports in [StackStatus]. *)
Definition stack_statuses : list string :=
  [ "CREATE_IN_PROGRESS"; "CREATE_FAILED"; "CREATE_COMPLETE";
    "ROLLBACK_IN_PROGRESS"; "ROLLBACK_FAILED"; "ROLLBACK_COMPLETE";
    "DELETE_IN_PROGRESS"; "DELETE_FAILED"; "DELETE_COMPLETE";
    "UPDATE_IN_PROGRESS"; "UPDATE_COMPLETE_CLEANUP_IN_PROGRESS";
    "UPDATE_COMPLETE"; "UPDATE_FAILED"; "UPDATE_ROLLBACK_IN_PROGRESS";
    "UPDATE_ROLLBACK_FAILED"; "UPDATE_ROLLBACK_COMPLETE_CLEANUP_IN_PROGRESS";
    "UPDATE_ROLLBACK_COMPLETE"; "REVIEW_IN_PROGRESS";
    "IMPORT_IN_PROGRESS"; "IMPORT_COMPLETE"; "IMPORT_ROLLBACK_IN_PROGRESS";
    "IMPORT_ROLLBACK_FAILED"; "IMPORT_ROLLBACK_COMPLETE" ].

(** ** The loops of the gatherers

    Every gatherer walks the pages of a listing and appends the names it
    keeps to a local list.  [for_pages] is the nested
    [for page in ...: for item in page[...]:] loop with the list as
    accumulator. *)

Definition for_pages {A B : Type} (body : B -> A -> B) (pages : list (list A)) (acc : B) : B :=
  fold_left (fun acc page => fold_left body page acc) pages acc.

(** [sorted(l, key=key, reverse=True)]: a stable sort by decreasing key.
    An element is inserted in front of the first element whose key is not
    greater than its own, so elements of equal key keep their order. *)
Fixpoint insert_desc {A : Type} (key : A -> Z) (x : A) (l : list A) : list A :=
  match l with
  | [] => [x]
  | y :: l' => if (key x <? key y)%Z then y :: insert_desc key x l' else x :: l
  end.

Definition sorted_reverse {A : Type} (key : A -> Z) (l : list A) : list A :=
  fold_right (insert_desc key) [] l.

(** Lines 57-74 of [gather_cloudformation_stacks]: the filter loop over the
    pages, the sort and the projection on the names. *)
Definition select_stacks (substrings : list string) (pages : list (list StackSummary)) : list (string * Z) :=
  for_pages
    (fun stack_infos stack =>
       if negb (str_in "DELETE_COMPLETE" (StackStatus stack))
          && match ParentId stack with None => true | Some _ => false end
       then
         if any_in substrings (StackName stack)
         then stack_infos ++ [(StackName stack, CreationTime stack)]
         else stack_infos
       else stack_infos)
    pages [].

Definition sorted_stack_names (stack_infos : list (string * Z)) : list string :=
  let sorted_stack_infos := sorted_reverse snd stack_infos in
  map fst sorted_stack_infos.

(** The loop shared by the S3, DynamoDB, ECR and log group gatherers:
    append the name when [any(sub in name ...)]. *)
Definition select_names {A : Type} (get_name : A -> string) (substrings : list string)
    (pages : list (list A)) : list string :=
  for_pages
    (fun names item =>
       if any_in substrings (get_name item) then names ++ [get_name item] else names)
    pages [].

(** The inner loop of [gather_ssm_params], with its [break]. *)
Fixpoint ssm_inner (param_name : string) (substrings : list string) (ssm_params : list string) : list string :=
  match substrings with
  | [] => ssm_params
  | sub :: rest =>
      if startswith param_name ("/" ++ sub ++ "/")
      then ssm_params ++ [param_name]
      else ssm_inner param_name rest ssm_params
  end.

Definition select_ssm_params (substrings : list string) (pages : list (list ParameterMetadata)) : list string :=
  for_pages (fun ssm_params param => ssm_inner (Name param) substrings ssm_params) pages [].

(** Truthiness of [function["VpcConfig"].get("VpcId")]: a non-empty string. *)
Definition truthy_str (v : option string) : bool :=
  match v with
  | None => false
  | Some EmptyString => false
  | Some (String _ _) => true
  end.

Definition select_vpc_lambdas (substrings : list string) (pages : list (list FunctionConfiguration)) : list string :=
  for_pages
    (fun lambda_functions function =>
       if any_in substrings (FunctionName function)
          && match VpcConfig function with
             | None => false
             | Some cfg => truthy_str (VpcId cfg)
             end
       then lambda_functions ++ [FunctionName function]
       else lambda_functions)
    pages [].

(** ** Exceptions *)

(** What a boto3 call can raise: a [botocore.exceptions.ClientError] with
    [e.response["Error"]["Code"]], [e.response["Error"]["Message"]] and
    [str(e)], or another [Exception] (a waiter error, a connection error)
    of which only [str(e)] is read. *)
Inductive sdk_error :=
| ClientError (code message text : string)
| OtherError (text : string).

Inductive color := red | yellow | green.

(** [click.style(text, fg=...)]: the text between the ANSI colour code and
    the reset code. *)
Definition esc : string := String (ascii_of_nat 27) EmptyString.
Definition click_style (text : string) (fg : color) : string :=
  (esc ++ match fg with red => "[31m" | green => "[32m" | yellow => "[33m" end
       ++ text ++ esc ++ "[0m")%string.

(** The exceptions that travel through the module; all of them are
    subclasses of [Exception]. *)
Inductive exn :=
| SdkError (e : sdk_error)
| ClickException (message : string)
| Abort
| KeyError (key : string).

Definition sdk_str (e : sdk_error) : string :=
  match e with
  | ClientError _ _ text => text
  | OtherError text => text
  end.

(** [str(e)], as the f-strings of the handlers use it. *)
Definition exn_str (e : exn) : string :=
  match e with
  | SdkError e => sdk_str e
  | ClickException message => message
  | Abort => ""
  | KeyError key => ("'" ++ key ++ "'")%string
  end.

(** ** The provider and the host *)

(** The paginated listings the gatherers read. *)
Inductive listing :=
| ListStacks | BucketsAll | ListTables | DescribeRepositories
| DescribeLogGroups | DescribeParameters | ListFunctions.

(** The calls that change the account (and the waiter). *)
Inductive command :=
| ObjectVersionsDelete (bucket : string)
| BucketDelete (bucket : string)
| BatchDeleteImage (repository : string) (imageIds : list string)
| DeleteStack (stack : string)
| WaitStackDeleteComplete (stack : string)
| DeleteRepository (repository : string) (force : bool)
| DeleteParameter (parameter : string)
| DeleteLogGroup (log_group : string)
| UpdateFunctionConfiguration (function : string) (SubnetIds SecurityGroupIds : list string)
| UpdateTable (table : string) (DeletionProtectionEnabled : bool).

(** boto3, per region.  Every operation either raises or returns, and
    leaves the account in a new state. *)
Class Boto3 := {
  cloud : Type;
  list_stacks : string -> cloud -> (sdk_error + list (list StackSummary)) * cloud;
  buckets_all : string -> cloud -> (sdk_error + list Bucket) * cloud;
  list_tables : string -> cloud -> (sdk_error + list (list string)) * cloud;
  describe_repositories : string -> cloud -> (sdk_error + list (list Repository)) * cloud;
  describe_log_groups : string -> cloud -> (sdk_error + list (list LogGroup)) * cloud;
  describe_parameters : string -> cloud -> (sdk_error + list (list ParameterMetadata)) * cloud;
  list_functions : string -> cloud -> (sdk_error + list (list FunctionConfiguration)) * cloud;
  list_images : string -> string -> cloud -> (sdk_error + option (list ImageIdentifier)) * cloud;
  invoke : string -> command -> cloud -> (sdk_error + unit) * cloud
}.

(** The operator at the terminal, who answers each [click.confirm] prompt
    (the prompts of a run have different texts, so the reply is a function of
    the text; an operator who leaves a prompt unanswered, by end of input or
    an interrupt, is not modelled), and Python's [str()] of the list of
    substrings, which two messages print. *)
Class Host := {
  answer : string -> bool;
  str_of_list : list string -> string
}.

(** ** Events and programs *)

Inductive event :=
| Secho (message : string) (fg : option color)
| Confirm (text : string) (reply : bool)
| Listed (region : string) (what : listing)
| ListedImages (region : string) (repository : string)
| Called (region : string) (cmd : command).

Inductive outcome (A : Type) :=
| Ok (a : A)
| Raise (e : exn).
Arguments Ok {A} a.
Arguments Raise {A} e.

Section Program.
Context {aws : Boto3} {host : Host}.

Definition M (A : Type) : Type := cloud -> outcome A * cloud * list event.

Definition ret {A : Type} (a : A) : M A := fun c => (Ok a, c, []).

Definition bind {A B : Type} (m : M A) (k : A -> M B) : M B :=
  fun c =>
    match m c with
    | (Ok a, c1, t1) =>
        match k a c1 with
        | (r, c2, t2) => (r, c2, t1 ++ t2)
        end
    | (Raise e, c1, t1) => (Raise e, c1, t1)
    end.

Definition raise {A : Type} (e : exn) : M A := fun c => (Raise e, c, []).

(** [try: body  except <caught> as e: handler(e)]; an exception outside
    [caught] propagates. *)
Definition try_except {A : Type} (body : M A) (caught : exn -> bool) (handler : exn -> M A) : M A :=
  fun c =>
    match body c with
    | (Ok a, c1, t1) => (Ok a, c1, t1)
    | (Raise e, c1, t1) =>
        if caught e then
          match handler e c1 with
          | (r, c2, t2) => (r, c2, t1 ++ t2)
          end
        else (Raise e, c1, t1)
    end.

Definition emit (e : event) : M unit := fun c => (Ok tt, c, [e]).

(** A boto3 call: the event, then the provider's answer. *)
Definition boto3_call {A : Type} (e : event)
    (op : cloud -> (sdk_error + A) * cloud) : M A :=
  fun c =>
    match op c with
    | (inr a, c1) => (Ok a, c1, [e])
    | (inl err, c1) => (Raise (SdkError err), c1, [e])
    end.

End Program.

Declare Scope prog_scope.
Delimit Scope prog_scope with prog.
Notation "x <- m ;; k" := (bind m (fun x => k))
  (at level 100, m at next level, right associativity) : prog_scope.
Notation "m ;; k" := (bind m (fun _ => k))
  (at level 100, right associativity) : prog_scope.
Local Open Scope prog_scope.

Section Cleanup.
Context {aws : Boto3} {host : Host}.

(** [for x in xs: body(x)]. *)
Fixpoint for_each {A : Type} (xs : list A) (body : A -> M unit) : M unit :=
  match xs with
  | [] => ret tt
  | x :: rest => body x ;; for_each rest body
  end.

Definition secho (message : string) (fg : option color) : M unit :=
  emit (Secho message fg).

(** [click.confirm(text, default=True)]. *)
Definition confirm (text : string) : M bool :=
  fun c => (Ok (answer text), c, [Confirm text (answer text)]).

(** [no_confirm or click.confirm(text, default=True)]: the prompt is not
    issued when the flag is set. *)
Definition no_confirm_or_confirm (no_confirm : bool) (text : string) : M bool :=
  if no_confirm then ret true else confirm text.

(** [helpers.raise_for_click]. *)
Definition raise_for_click {A : Type} (message : string) : M A :=
  raise (ClickException (click_style message red)).

(** [except Exception]. *)
Definition Exception (e : exn) : bool := true.

(** [except ClientError]. *)
Definition is_ClientError (e : exn) : bool :=
  match e with
  | SdkError (ClientError _ _ _) => true
  | _ => false
  end.

(** *** Gatherers *)

Definition gather_cloudformation_stacks (substrings : list string) (region : string) : M (list string) :=
  pages <- boto3_call (Listed region ListStacks) (list_stacks region) ;;
  let stack_infos := select_stacks substrings pages in
  ret (sorted_stack_names stack_infos).

Definition gather_s3_buckets (substrings : list string) (region : string) : M (list string) :=
  all <- boto3_call (Listed region BucketsAll) (buckets_all region) ;;
  ret (select_names name substrings [all]).

Definition gather_ddb_tables (substrings : list string) (region : string) : M (list string) :=
  pages <- boto3_call (Listed region ListTables) (list_tables region) ;;
  ret (select_names (fun table_name => table_name) substrings pages).

Definition gather_ecr_repositories (substrings : list string) (region : string) : M (list string) :=
  pages <- boto3_call (Listed region DescribeRepositories) (describe_repositories region) ;;
  ret (select_names repositoryName substrings pages).

Definition gather_log_groups (substrings : list string) (region : string) : M (list string) :=
  pages <- boto3_call (Listed region DescribeLogGroups) (describe_log_groups region) ;;
  ret (select_names logGroupName substrings pages).

Definition gather_ssm_params (substrings : list string) (region : string) : M (list string) :=
  pages <- boto3_call (Listed region DescribeParameters) (describe_parameters region) ;;
  ret (select_ssm_params substrings pages).

Definition gather_vpc_lambdas (substrings : list string) (region : string) : M (list string) :=
  pages <- boto3_call (Listed region ListFunctions) (list_functions region) ;;
  ret (select_vpc_lambdas substrings pages).

(** A Python dict whose values are lists of names, in insertion order. *)
Definition resource_dict : Type := list (string * list string).

(** [d[key]]. *)
Definition getitem (d : resource_dict) (key : string) : M (list string) :=
  match find (fun kv => String.eqb (fst kv) key) d with
  | Some kv => ret (snd kv)
  | None => raise (KeyError key)
  end.

(** [d.get(key, default)]. *)
Definition dict_get {V : Type} (d : list (string * V)) (key : string) : option V :=
  match find (fun kv => String.eqb (fst kv) key) d with
  | Some kv => Some (snd kv)
  | None => None
  end.

Definition gather_resources (substrings : list string) (region : string) : M resource_dict :=
  cloudformation_stacks <- gather_cloudformation_stacks substrings region ;;
  s3_buckets <- gather_s3_buckets substrings region ;;
  ecr_repositories <- gather_ecr_repositories substrings region ;;
  vpc_lambdas <- gather_vpc_lambdas substrings region ;;
  ddb_tables <- gather_ddb_tables substrings region ;;
  ret [ ("cloudformation_stacks", cloudformation_stacks);
        ("s3_buckets", s3_buckets);
        ("ecr_repositories", ecr_repositories);
        ("vpc_lambdas", vpc_lambdas);
        ("ddb_tables", ddb_tables) ].

Definition gather_unmanaged_resources (substrings : list string) (region : string) : M resource_dict :=
  s3_buckets <- gather_s3_buckets substrings region ;;
  ssm_params <- gather_ssm_params substrings region ;;
  log_groups <- gather_log_groups substrings region ;;
  ret [ ("s3_buckets", s3_buckets);
        ("ssm_params", ssm_params);
        ("log_groups", log_groups) ].

(** *** Emptying *)

Definition empty_s3_buckets (bucket_names : list string) (region : string) : M unit :=
  for_each bucket_names (fun bucket_name =>
    boto3_call (Called region (ObjectVersionsDelete bucket_name))
               (invoke region (ObjectVersionsDelete bucket_name)) ;;
    secho ("Emptied S3 bucket: " ++ bucket_name) (Some red)).

Definition empty_ecr_repositories (repository_names : list string) (region : string) : M unit :=
  for_each repository_names (fun repo_name =>
    images <- boto3_call (ListedImages region repo_name) (list_images region repo_name) ;;
    let image_ids :=
      map imageDigest (match images with Some ids => ids | None => [] end) in
    match image_ids with
    | [] => ret tt
    | _ :: _ =>
        boto3_call (Called region (BatchDeleteImage repo_name image_ids))
                   (invoke region (BatchDeleteImage repo_name image_ids)) ;;
        secho ("Emptied ECR repository: " ++ repo_name) (Some red)
    end).

(** *** Deleters *)

Definition delete_cloudformation_stack (stack_name : string) (region : string) : M unit :=
  try_except
    (boto3_call (Called region (DeleteStack stack_name))
                (invoke region (DeleteStack stack_name)) ;;
     secho ("Initiated deletion of CloudFormation stack: " ++ stack_name) (Some yellow) ;;
     secho ("Waiting for stack " ++ stack_name ++ " to be deleted...") (Some yellow) ;;
     boto3_call (Called region (WaitStackDeleteComplete stack_name))
                (invoke region (WaitStackDeleteComplete stack_name)) ;;
     secho ("CloudFormation stack " ++ stack_name ++ " deleted successfully.") (Some green))
    is_ClientError
    (fun e =>
       match e with
       | SdkError (ClientError code message _) =>
           if String.eqb code "ValidationError" && str_in "does not exist" message
           then
             secho ("CloudFormation stack " ++ stack_name
                      ++ " does not exist or is already deleted.") (Some yellow)
           else
             raise_for_click ("Failed to delete CloudFormation stack " ++ stack_name
                                ++ ": " ++ exn_str e)
       | _ => raise e
       end).

Definition delete_s3_bucket (bucket_name : string) (region : string) : M unit :=
  try_except
    (boto3_call (Called region (ObjectVersionsDelete bucket_name))
                (invoke region (ObjectVersionsDelete bucket_name)) ;;
     boto3_call (Called region (BucketDelete bucket_name))
                (invoke region (BucketDelete bucket_name)) ;;
     secho ("Deleted S3 bucket: " ++ bucket_name) (Some red))
    Exception
    (fun e => raise_for_click ("Failed to delete S3 bucket " ++ bucket_name ++ ": " ++ exn_str e)).

Definition delete_ecr_repository (repo_name : string) (region : string) : M unit :=
  try_except
    (boto3_call (Called region (DeleteRepository repo_name true))
                (invoke region (DeleteRepository repo_name true)) ;;
     secho ("Deleted ECR repository: " ++ repo_name) (Some red))
    Exception
    (fun e => raise_for_click ("Failed to delete ECR repository " ++ repo_name ++ ": " ++ exn_str e)).

Definition delete_ssm_param (param_name : string) (region : string) : M unit :=
  try_except
    (boto3_call (Called region (DeleteParameter param_name))
                (invoke region (DeleteParameter param_name)) ;;
     secho ("Deleted SSM Parameter: " ++ param_name) (Some red))
    Exception
    (fun e => raise_for_click ("Failed to delete SSM Parameter " ++ param_name ++ ": " ++ exn_str e)).

Definition delete_log_group (log_group_name : string) (region : string) : M unit :=
  try_except
    (boto3_call (Called region (DeleteLogGroup log_group_name))
                (invoke region (DeleteLogGroup log_group_name)) ;;
     secho ("Deleted Log Group: " ++ log_group_name) (Some red))
    Exception
    (fun e => raise_for_click ("Failed to delete Log Group " ++ log_group_name ++ ": " ++ exn_str e)).

Definition update_lambda_vpc_config (lambda_functions : list string) (region : string) : M unit :=
  for_each lambda_functions (fun function_name =>
    try_except
      (boto3_call (Called region (UpdateFunctionConfiguration function_name [] []))
                  (invoke region (UpdateFunctionConfiguration function_name [] [])) ;;
       secho ("Updated Lambda function '" ++ function_name
                ++ "' to remove VPC configuration.") (Some yellow))
      Exception
      (fun e =>
         secho ("Failed to update Lambda function '" ++ function_name ++ "': " ++ exn_str e)
               None)).

Definition remove_ddb_deletion_protection (table_names : list string) (region : string) : M unit :=
  for_each table_names (fun table_name =>
    try_except
      (boto3_call (Called region (UpdateTable table_name false))
                  (invoke region (UpdateTable table_name false)) ;;
       secho ("Deletion protection disabled for DynamoDB table '" ++ table_name ++ "'.")
             (Some yellow))
      Exception
      (fun e =>
         secho ("Failed to disable deletion protection for DynamoDB table '" ++ table_name
                  ++ "': " ++ exn_str e) (Some red))).

(** The module-level dict [delete_methods], in insertion order. *)
Definition delete_methods : list (string * (string -> string -> M unit)) :=
  [ ("cloudformation_stacks", delete_cloudformation_stack);
    ("s3_buckets", delete_s3_bucket);
    ("ecr_repositories", delete_ecr_repository);
    ("ssm_params", delete_ssm_param);
    ("log_groups", delete_log_group) ].

Definition delete_resources (resource_dict : resource_dict) (region : string) : M unit :=
  for_each resource_dict (fun item =>
    let '(resource_type, resources) := item in
    match dict_get delete_methods resource_type with
    | Some delete_method =>
        for_each resources (fun resource_name => delete_method resource_name region)
    | None =>
        secho ("No deletion method found for resource type: " ++ resource_type) (Some yellow)
    end).

(** *** The orchestrator *)

(** [ctx.obj], of which [cleanup_env] reads two keys. *)
Record Context := { REGION : string; ACCOUNT_ID : string }.

Definition prompt_proceed : string := "Do you want to proceed?".
Definition prompt_s3 : string := "Do you want to proceed with emptying these S3 buckets?".
Definition prompt_ecr : string := "Do you want to proceed with emptying these ECR repositories?".
Definition prompt_lambda : string := "Do you want to proceed with patching these Lambdas?".
Definition prompt_ddb : string :=
  "Do you want to proceed with removing deletion protection from these tables?".
Definition prompt_cfn : string :=
  "Do you want to proceed with deleting these CloudFormation stacks?".
Definition prompt_unmanaged (resource_type : string) : string :=
  "Do you want to proceed with deleting these " ++ resource_type ++ "?".

(** Lines 440-454: the loop over [delete_methods.items()] of the second
    pass. *)
Definition delete_unmanaged (no_confirm : bool) (unmanaged_resources : resource_dict)
    (region : string) : M unit :=
  for_each delete_methods (fun item =>
    let '(resource_type, delete_function) := item in
    let resources :=
      match dict_get unmanaged_resources resource_type with
      | Some names => names
      | None => []
      end in
    match resources with
    | [] => ret tt
    | _ :: _ =>
        let resource_names := join_lines resources in
        secho ("The following " ++ resource_type ++ " will be deleted:") (Some yellow) ;;
        secho resource_names (Some red) ;;
        ok <- no_confirm_or_confirm no_confirm (prompt_unmanaged resource_type) ;;
        if ok : bool
        then for_each resources (fun resource_name => delete_function resource_name region)
        else ret tt
    end).

(** One block of the first pass (lines 359-434): when names were gathered,
    announce them and run [action] unless the operator declines, in which
    case [declined] runs (nothing where the source has [ctx.abort()]
    commented out); [otherwise] is the [else] branch taken when nothing was
    gathered. *)
Definition managed_step (no_confirm : bool) (resources : list string)
    (banner prompt : string) (action declined otherwise : M unit) : M unit :=
  match resources with
  | [] => otherwise
  | _ :: _ =>
      secho banner (Some yellow) ;;
      secho (join_lines resources) (Some red) ;;
      ok <- no_confirm_or_confirm no_confirm prompt ;;
      if ok : bool then action else declined
  end.

Definition cleanup_env (ctx : Context) (no_confirm : bool) (env_list : list string) : M unit :=
  let region := REGION ctx in
  let account_id := ACCOUNT_ID ctx in
  let substrings := env_list in
  secho ("Cleaning up: " ++ str_of_list substrings ++ " in " ++ account_id ++ ":" ++ region)
        (Some red) ;;
  proceed <- confirm prompt_proceed ;;
  if proceed : bool then
    resources <- gather_resources substrings region ;;
    s3_buckets <- getitem resources "s3_buckets" ;;
    managed_step no_confirm s3_buckets
      "The following S3 buckets will be emptied" prompt_s3
      (empty_s3_buckets s3_buckets region)
      (ret tt)
      (secho "No S3 buckets" (Some yellow)) ;;
    ecr_repositories <- getitem resources "ecr_repositories" ;;
    managed_step no_confirm ecr_repositories
      "The following ECR repositories will be emptied:" prompt_ecr
      (empty_ecr_repositories ecr_repositories region)
      (ret tt)
      (secho "No ECR repositories" (Some yellow)) ;;
    vpc_lambdas <- getitem resources "vpc_lambdas" ;;
    managed_step no_confirm vpc_lambdas
      "The following Lambda functions will have their VPC configuration removed:" prompt_lambda
      (update_lambda_vpc_config vpc_lambdas region)
      (ret tt)
      (secho "No Lambda functions in VPC" (Some yellow)) ;;
    ddb_tables <- getitem resources "ddb_tables" ;;
    managed_step no_confirm ddb_tables
      "The following DynamoDB tables will have their deletion protection removed:" prompt_ddb
      (remove_ddb_deletion_protection ddb_tables region)
      (ret tt)
      (ret tt) ;;
    cloudformation_stacks <- getitem resources "cloudformation_stacks" ;;
    managed_step no_confirm cloudformation_stacks
      "The following CloudFormation stacks will be deleted:" prompt_cfn
      (delete_resources [("cloudformation_stacks", cloudformation_stacks)] region)
      (raise Abort)
      (secho "No CloudFormation stacks" (Some yellow)) ;;
    unmanaged_resources <- gather_unmanaged_resources substrings region ;;
    delete_unmanaged no_confirm unmanaged_resources region ;;
    secho ("Cleaned up: " ++ str_of_list substrings) (Some green)
  else ret tt.

End Cleanup.

(** ** A scripted provider, for running the programs on concrete inputs

    The account holds fixed listings; a command fails when [faults] says so;
    the state counts the calls made. *)
Record Account := {
  acct_stacks : list (list StackSummary);
  acct_buckets : list Bucket;
  acct_tables : list (list string);
  acct_repositories : list (list Repository);
  acct_log_groups : list (list LogGroup);
  acct_parameters : list (list ParameterMetadata);
  acct_functions : list (list FunctionConfiguration);
  acct_images : string -> option (list ImageIdentifier);
  faults : command -> option sdk_error
}.

Definition scripted (a : Account) : Boto3 := {|
  cloud := nat;
  list_stacks := fun _ n => (inr (acct_stacks a), S n);
  buckets_all := fun _ n => (inr (acct_buckets a), S n);
  list_tables := fun _ n => (inr (acct_tables a), S n);
  describe_repositories := fun _ n => (inr (acct_repositories a), S n);
  describe_log_groups := fun _ n => (inr (acct_log_groups a), S n);
  describe_parameters := fun _ n => (inr (acct_parameters a), S n);
  list_functions := fun _ n => (inr (acct_functions a), S n);
  list_images := fun _ repo n => (inr (acct_images a repo), S n);
  invoke := fun _ cmd n =>
    match faults a cmd with
    | Some err => (inl err, S n)
    | None => (inr tt, S n)
    end
|}.

Definition empty_account : Account := {|
  acct_stacks := []; acct_buckets := []; acct_tables := [];
  acct_repositories := []; acct_log_groups := []; acct_parameters := [];
  acct_functions := []; acct_images := fun _ => None; faults := fun _ => None
|}.

(** Python's [str()] of a list of strings, for strings of plain characters
    (no quote, no backslash, nothing to escape): each in single quotes. *)
Definition str_of_plain_list (l : list string) : string :=
  ("[" ++ String.concat ", " (map (fun s => "'" ++ s ++ "'") l) ++ "]")%string.

(** An operator who gives the same reply to every prompt. *)
Definition operator (reply : bool) : Host := {|
  answer := fun _ => reply;
  str_of_list := str_of_plain_list
|}.

(** An operator who declines the prompts listed and accepts the others. *)
Definition declining (prompts : list string) : Host := {|
  answer := fun text => negb (existsb (String.eqb text) prompts);
  str_of_list := str_of_plain_list
|}.

(** An account with stacks, buckets, tables, repositories, log groups,
    parameters and functions, of which some match [env-a] and some do not. *)
Definition sample_account : Account := {|
  acct_stacks :=
    [ [ {| StackName := "env-a-db"; StackStatus := "CREATE_COMPLETE";
           ParentId := None; CreationTime := 1 |};
        {| StackName := "env-a-nested"; StackStatus := "CREATE_COMPLETE";
           ParentId := Some "arn:parent"; CreationTime := 5 |} ];
      [ {| StackName := "env-a-old"; StackStatus := "DELETE_COMPLETE";
           ParentId := None; CreationTime := 0 |};
        {| StackName := "env-a-app"; StackStatus := "UPDATE_COMPLETE";
           ParentId := None; CreationTime := 2 |};
        {| StackName := "other"; StackStatus := "CREATE_COMPLETE";
           ParentId := None; CreationTime := 9 |} ] ];
  acct_buckets := [ {| name := "env-a-logs" |}; {| name := "misc" |} ];
  acct_tables := [ ["env-a-table"; "users"] ];
  acct_repositories := [ [ {| repositoryName := "env-a/api" |} ] ];
  acct_log_groups := [ [ {| logGroupName := "/aws/lambda/env-a-fn" |} ] ];
  acct_parameters :=
    [ [ {| Name := "/env-a/db/password" |}; {| Name := "/prod/env-a/key" |} ] ];
  acct_functions :=
    [ [ {| FunctionName := "env-a-fn"; VpcConfig := Some {| VpcId := Some "vpc-1" |} |};
        {| FunctionName := "env-a-novpc"; VpcConfig := Some {| VpcId := Some "" |} |};
        {| FunctionName := "env-a-bare"; VpcConfig := None |} ] ];
  acct_images := fun _ => Some [ {| imageDigest := "sha256:1"; imageTag := None |} ];
  faults := fun _ => None
|}.

(** The example of the specification: two active parent stacks. *)
Definition env_a_account : Account := {|
  acct_stacks :=
    [ [ {| StackName := "env-a-app"; StackStatus := "CREATE_COMPLETE";
           ParentId := None; CreationTime := 2 |};
        {| StackName := "env-a-db"; StackStatus := "CREATE_COMPLETE";
           ParentId := None; CreationTime := 1 |} ] ];
  acct_buckets := []; acct_tables := []; acct_repositories := [];
  acct_log_groups := []; acct_parameters := []; acct_functions := [];
  acct_images := fun _ => None; faults := fun _ => None
|}.

(** An account where every command fails: the stack is reported absent. *)
Definition absent_error : sdk_error :=
  ClientError "ValidationError" "Stack with id env-a-app does not exist"
    "An error occurred (ValidationError) when calling the DeleteStack operation: Stack with id env-a-app does not exist".

Definition failing_account : Account := {|
  acct_stacks := []; acct_buckets := []; acct_tables := []; acct_repositories := [];
  acct_log_groups := []; acct_parameters := []; acct_functions := [];
  acct_images := fun _ => None; faults := fun _ => Some absent_error
|}.

Definition sample_ctx : Context := {| REGION := "eu-west-1"; ACCOUNT_ID := "123456789012" |}.

(** A run of the orchestrator for [env-a] on the sample account, with the
    operator [host]. *)
Definition sample_run (host : Host) (no_confirm : bool) : outcome unit * nat * list event :=
  @cleanup_env (scripted sample_account) host sample_ctx no_confirm ["env-a"] 0%nat.

(** ** What the gatherers decide, in terms of the names *)

(** [sub] occurs in [s]. *)
Definition Substring (sub s : string) : Prop :=
  exists pre post, s = (pre ++ sub ++ post)%string.

(** [s] begins with [p]. *)
Definition StartsWith (s p : string) : Prop :=
  exists rest, s = (p ++ rest)%string.

(** The test each filter applies, as a boolean on the listed item. *)
Definition keeps_stack (substrings : list string) (stack : StackSummary) : bool :=
  negb (str_in "DELETE_COMPLETE" (StackStatus stack))
  && match ParentId stack with None => true | Some _ => false end
  && any_in substrings (StackName stack).

Definition keeps_param (substrings : list string) (param : ParameterMetadata) : bool :=
  existsb (fun sub => startswith (Name param) ("/" ++ sub ++ "/")) substrings.

Definition keeps_function (substrings : list string) (function : FunctionConfiguration) : bool :=
  any_in substrings (FunctionName function)
  && match VpcConfig function with
     | None => false
     | Some cfg => truthy_str (VpcId cfg)
     end.

(** Earlier elements have keys at least as large as later ones. *)
Definition descending {A : Type} (key : A -> Z) (l : list A) : Prop :=
  StronglySorted (fun a b => (key b <= key a)%Z) l.

(** ** Traces *)

(** The provider commands a run issued, in order. *)
Fixpoint calls (t : list event) : list (string * command) :=
  match t with
  | [] => []
  | Called region cmd :: t' => (region, cmd) :: calls t'
  | _ :: t' => calls t'
  end.

(** A command or an image listing: a call that an action issues. *)
Definition provider_call (e : event) : Prop :=
  match e with
  | Called _ _ | ListedImages _ _ => True
  | _ => False
  end.

(** Every occurrence of [e] in [t] is directly followed by one of [next]. *)
Definition followed_by (e : event) (next : list event) (t : list event) : Prop :=
  forall pre post, t = pre ++ e :: post -> exists ev rest, post = ev :: rest /\ In ev next.

(** Every announcement ([The following ...], in yellow) is directly followed
    by the names, in red, and then by a provider call. *)
Definition announcements_acted_on (t : list event) : Prop :=
  forall pre post message,
    t = pre ++ Secho message (Some yellow) :: post ->
    StartsWith message "The following " ->
    exists names call rest,
      post = Secho names (Some red) :: call :: rest /\ provider_call call.

(** The run ends right after the declined CloudFormation prompt, with
    [Abort], and, every prompt being answered here, [Abort] is raised in no
    other way. *)
Definition abort_iff_cfn_declined (o : option exn) (t : list event) : Prop :=
  (forall pre post, t = pre ++ Confirm prompt_cfn false :: post ->
     post = [] /\ o = Some Abort)
  /\ (o = Some Abort -> exists pre, t = pre ++ [Confirm prompt_cfn false]).

(** Not a yellow announcement. *)
Definition not_announcement (e : event) : Prop :=
  match e with
  | Secho message (Some yellow) => String.prefix "The following " message = false
  | _ => True
  end.

(** With [no_confirm] the only prompt of a run is the opening one. *)
Definition only_opening_prompt (e : event) : Prop :=
  match e with
  | Confirm text _ => text = prompt_proceed
  | _ => True
  end.

(** A run that changes nothing in the account: no provider command, no
    image listing, and no prompt other than the opening one. *)
Definition harmless (e : event) : Prop :=
  match e with
  | Called _ _ | ListedImages _ _ => False
  | Confirm text _ => text = prompt_proceed
  | Secho _ _ | Listed _ _ => True
  end.

(** No CloudFormation or ECR deletion: neither the deleters' calls nor the
    prompts of the second pass for these two types. *)
Definition not_cfn_ecr_deletion (e : event) : Prop :=
  match e with
  | Called _ (DeleteStack _) | Called _ (WaitStackDeleteComplete _)
  | Called _ (DeleteRepository _ _) => False
  | Confirm text _ =>
      text <> prompt_unmanaged "cloudformation_stacks"
      /\ text <> prompt_unmanaged "ecr_repositories"
  | _ => True
  end.

(** Over a whole run: the ECR deleter is never called and the second pass
    never asks about CloudFormation stacks or ECR repositories. *)
Definition not_unmanaged_cfn_ecr (e : event) : Prop :=
  match e with
  | Called _ (DeleteRepository _ _) => False
  | Confirm text _ =>
      text <> prompt_unmanaged "cloudformation_stacks"
      /\ text <> prompt_unmanaged "ecr_repositories"
  | _ => True
  end.

(** The first message of the block that follows each block of the first
    pass: its announcement, or the message of its [else] branch.  The DynamoDB
    block has no [else] branch, so the CloudFormation block may follow the
    Lambda block directly. *)
Definition after_s3_declined : list event :=
  [ Secho "The following ECR repositories will be emptied:" (Some yellow);
    Secho "No ECR repositories" (Some yellow) ].

Definition after_ecr_declined : list event :=
  [ Secho "The following Lambda functions will have their VPC configuration removed:"
          (Some yellow);
    Secho "No Lambda functions in VPC" (Some yellow) ].

Definition after_lambda_declined : list event :=
  [ Secho "The following DynamoDB tables will have their deletion protection removed:"
          (Some yellow);
    Secho "The following CloudFormation stacks will be deleted:" (Some yellow);
    Secho "No CloudFormation stacks" (Some yellow) ].

Definition after_ddb_declined : list event :=
  [ Secho "The following CloudFormation stacks will be deleted:" (Some yellow);
    Secho "No CloudFormation stacks" (Some yellow) ].

(** [acts call e]: [e] is a provider command or an image listing accepted by
    [call], or a message that is not an announcement.  This is what the
    emptying, deleting and updating functions can emit. *)
Definition acts (call : event -> Prop) (e : event) : Prop :=
  match e with
  | Called _ _ | ListedImages _ _ => call e
  | Secho message _ => String.prefix "The following " message = false
  | Confirm _ _ | Listed _ _ => False
  end.

(** The exceptions these functions let out: SDK errors and click exceptions. *)
Definition sdk_or_click (e : exn) : Prop :=
  match e with
  | SdkError _ | ClickException _ => True
  | Abort | KeyError _ => False
  end.

(** The calls of each emptying, updating and deleting function. *)
Definition s3_empty_call (e : event) : Prop :=
  match e with Called _ (ObjectVersionsDelete _) => True | _ => False end.
Definition ecr_empty_call (e : event) : Prop :=
  match e with Called _ (BatchDeleteImage _ _) | ListedImages _ _ => True | _ => False end.
Definition lambda_call (e : event) : Prop :=
  match e with Called _ (UpdateFunctionConfiguration _ _ _) => True | _ => False end.
Definition ddb_call (e : event) : Prop :=
  match e with Called _ (UpdateTable _ _) => True | _ => False end.
Definition cfn_delete_call (e : event) : Prop :=
  match e with
  | Called _ (DeleteStack _) | Called _ (WaitStackDeleteComplete _) => True
  | _ => False
  end.
Definition s3_delete_call (e : event) : Prop :=
  match e with
  | Called _ (ObjectVersionsDelete _) | Called _ (BucketDelete _) => True
  | _ => False
  end.
Definition ecr_delete_call (e : event) : Prop :=
  match e with Called _ (DeleteRepository _ _) => True | _ => False end.
Definition ssm_delete_call (e : event) : Prop :=
  match e with Called _ (DeleteParameter _) => True | _ => False end.
Definition logs_delete_call (e : event) : Prop :=
  match e with Called _ (DeleteLogGroup _) => True | _ => False end.

(** ** Judgements on programs *)

(** The postcondition that asks nothing. *)
Definition anything {A : Type} (_ : A) : Prop := True.

(** The exception a run ended with, if any. *)

Definition raised {A : Type} (r : outcome A) : option exn :=
  match r with
  | Ok _ => None
  | Raise e => Some e
  end.

(** [F] is kept when a run that returned normally is followed by another. *)
Definition seq_closed (F : option exn -> list event -> Prop) : Prop :=
  forall t1 o t2, F None t1 -> F o t2 -> F o (t1 ++ t2).

Section Judgements.
Context {aws : Boto3}.

(** [emits P E Q m]: in every run of [m], every event satisfies [P], an
    exception that leaves [m] satisfies [E], and a value that [m] returns
    satisfies [Q]. *)
Definition emits {A : Type} (P : event -> Prop) (E : exn -> Prop) (Q : A -> Prop)
    (m : M A) : Prop :=
  forall c,
    match m c with
    | (r, _, t) => Forall P t /\ match r with Ok a => Q a | Raise e => E e end
    end.

(** [runs F Q m]: in every run of [m], the exception raised (if any) and the
    trace satisfy [F], and a returned value satisfies [Q]. *)
Definition runs {A : Type} (F : option exn -> list event -> Prop) (Q : A -> Prop)
    (m : M A) : Prop :=
  forall c,
    match m c with
    | (r, _, t) => F (raised r) t /\ match r with Ok a => Q a | Raise _ => True end
    end.

(** [starts S m]: every run of [m] emits a first event, and it satisfies [S]. *)
Definition starts {A : Type} (S : event -> Prop) (m : M A) : Prop :=
  forall c, exists ev rest, snd (m c) = ev :: rest /\ S ev.

End Judgements.

(** ** Inventories *)

(** Every list of the inventory is empty. *)
Definition all_empty (d : resource_dict) : Prop := Forall (fun kv => snd kv = []) d.

(** With no substring, no name. *)
Definition nothing_from (substrings names : list string) : Prop :=
  substrings = [] -> names = [].

(** The shape of the two inventories. *)
Definition managed_inventory (substrings : list string) (d : resource_dict) : Prop :=
  exists cfn s3 ecr lam ddb,
    d = [ ("cloudformation_stacks", cfn); ("s3_buckets", s3); ("ecr_repositories", ecr);
          ("vpc_lambdas", lam); ("ddb_tables", ddb) ]
    /\ (substrings = [] -> cfn = [] /\ s3 = [] /\ ecr = [] /\ lam = [] /\ ddb = []).

Definition unmanaged_inventory (substrings : list string) (d : resource_dict) : Prop :=
  exists s3 ssm logs,
    d = [ ("s3_buckets", s3); ("ssm_params", ssm); ("log_groups", logs) ]
    /\ (substrings = [] -> s3 = [] /\ ssm = [] /\ logs = []).

(** What an invariant [P] of the events must accept for a block to keep it:
    the prompt the block asks, the calls it issues; nothing when there is no
    substring, or for a prompt when [no_confirm] is set. *)
Definition may_ask {host : Host} (P : event -> Prop) (no_confirm : bool)
    (substrings : list string) (text : string) : Prop :=
  substrings <> [] -> no_confirm = false -> P (Confirm text (answer text)).

Definition may_call (P : event -> Prop) (substrings : list string)
    (call : event -> Prop) : Prop :=
  substrings <> [] -> forall e, call e -> P e.

(** ** The orchestrator, block by block

    [from_s3], [from_ecr], ... are the orchestrator from one block to its end;
    [cleanup_env] is, by unfolding, the opening message and prompt, the first
    inventory and [from_s3]. *)

Section Tails.
Context {aws : Boto3} {host : Host}.
Variables (no_confirm : bool) (substrings : list string) (region : string).

Definition second_pass : M unit :=
  unmanaged_resources <- gather_unmanaged_resources substrings region ;;
  delete_unmanaged no_confirm unmanaged_resources region ;;
  secho ("Cleaned up: " ++ str_of_list substrings) (Some green).

Definition cfn_block (cloudformation_stacks : list string) : M unit :=
  managed_step no_confirm cloudformation_stacks
    "The following CloudFormation stacks will be deleted:" prompt_cfn
    (delete_resources [("cloudformation_stacks", cloudformation_stacks)] region)
    (raise Abort)
    (secho "No CloudFormation stacks" (Some yellow)).

Definition ddb_block (ddb_tables : list string) : M unit :=
  managed_step no_confirm ddb_tables
    "The following DynamoDB tables will have their deletion protection removed:" prompt_ddb
    (remove_ddb_deletion_protection ddb_tables region)
    (ret tt)
    (ret tt).

Definition lambda_block (vpc_lambdas : list string) : M unit :=
  managed_step no_confirm vpc_lambdas
    "The following Lambda functions will have their VPC configuration removed:" prompt_lambda
    (update_lambda_vpc_config vpc_lambdas region)
    (ret tt)
    (secho "No Lambda functions in VPC" (Some yellow)).

Definition ecr_block (ecr_repositories : list string) : M unit :=
  managed_step no_confirm ecr_repositories
    "The following ECR repositories will be emptied:" prompt_ecr
    (empty_ecr_repositories ecr_repositories region)
    (ret tt)
    (secho "No ECR repositories" (Some yellow)).

Definition s3_block (s3_buckets : list string) : M unit :=
  managed_step no_confirm s3_buckets
    "The following S3 buckets will be emptied" prompt_s3
    (empty_s3_buckets s3_buckets region)
    (ret tt)
    (secho "No S3 buckets" (Some yellow)).

Definition from_cfn (resources : resource_dict) : M unit :=
  cloudformation_stacks <- getitem resources "cloudformation_stacks" ;;
  cfn_block cloudformation_stacks ;;
  second_pass.

Definition from_ddb (resources : resource_dict) : M unit :=
  ddb_tables <- getitem resources "ddb_tables" ;;
  ddb_block ddb_tables ;;
  from_cfn resources.

Definition from_lambda (resources : resource_dict) : M unit :=
  vpc_lambdas <- getitem resources "vpc_lambdas" ;;
  lambda_block vpc_lambdas ;;
  from_ddb resources.

Definition from_ecr (resources : resource_dict) : M unit :=
  ecr_repositories <- getitem resources "ecr_repositories" ;;
  ecr_block ecr_repositories ;;
  from_lambda resources.

Definition from_s3 (resources : resource_dict) : M unit :=
  s3_buckets <- getitem resources "s3_buckets" ;;
  s3_block s3_buckets ;;
  from_ecr resources.

End Tails.

(** ** Events that a run is bound to hold *)

(** The names the inventory [d] holds under [key]. *)
Definition names_of (d : resource_dict) (key : string) : list string :=
  match dict_get d key with
  | Some names => names
  | None => []
  end.

(** The run was not cut short by an error of the provider. *)
Definition no_sdk_error (o : option exn) : Prop :=
  forall err, o <> Some (SdkError err).

Section Reaching.
Context {aws : Boto3}.

(** [always e m]: every run of [m] holds the event [e]. *)
Definition always {A : Type} (e : event) (m : M A) : Prop :=
  forall c, In e (snd (m c)).

(** [shows G e m]: every run of [m] that ends as [G] says holds the event
    [e]. *)
Definition shows {A : Type} (G : option exn -> Prop) (e : event) (m : M A) : Prop :=
  forall c,
    match m c with
    | (r, _, t) => G (raised r) -> In e t
    end.

End Reaching.

(** What a step of the first pass has done in a run with trace [t] once
    names were gathered for it: it has announced them; without [no_confirm]
    it has asked its prompt; when the operator declined, the prompt is
    directly followed by the first message of the next step (one of [next]):
    the step was skipped and the run went on; with [no_confirm], or when the
    operator accepted, it has issued its call for every name. *)
Definition step_taken {host : Host} (no_confirm : bool) (names : list string)
    (banner prompt : string) (next : list event) (call : string -> event)
    (t : list event) : Prop :=
  names <> [] ->
  In (Secho banner (Some yellow)) t
  /\ In (Secho (join_lines names) (Some red)) t
  /\ (no_confirm = false -> In (Confirm prompt (answer prompt)) t)
  /\ (no_confirm = false -> answer prompt = false ->
      exists pre ev rest, t = pre ++ Confirm prompt false :: ev :: rest /\ In ev next)
  /\ (no_confirm = true \/ answer prompt = true ->
      forall n, In n names -> In (call n) t).

(** The same for the CloudFormation step of a run that ended with [r]: when
    the operator declined, the run ended there with [Abort]; with
    [no_confirm], or when the operator accepted, the deletion of the first
    stack was requested, and that of every stack when the run returned. *)
Definition stacks_step_taken {host : Host} (no_confirm : bool) (names : list string)
    (region : string) (r : outcome unit) (t : list event) : Prop :=
  names <> [] ->
  In (Secho "The following CloudFormation stacks will be deleted:" (Some yellow)) t
  /\ In (Secho (join_lines names) (Some red)) t
  /\ (no_confirm = false -> In (Confirm prompt_cfn (answer prompt_cfn)) t)
  /\ (no_confirm = false -> answer prompt_cfn = false ->
      r = Raise Abort /\ exists pre, t = pre ++ [Confirm prompt_cfn false])
  /\ (no_confirm = true \/ answer prompt_cfn = true ->
      (forall n rest, names = n :: rest -> In (Called region (DeleteStack n)) t)
      /\ (r = Ok tt -> forall n, In n names -> In (Called region (DeleteStack n)) t)).

(** ** The command line ([cfncli/cli/cli.py])

    [value.split(",")] on a Python string: the pieces between the commas, of
    which there is always at least one. *)
Fixpoint split_comma (s : string) : list string :=
  match s with
  | EmptyString => [EmptyString]
  | String c s' =>
      if Ascii.eqb c ","%char then EmptyString :: split_comma s'
      else match split_comma s' with
           | piece :: pieces => String c piece :: pieces
           | [] => [String c EmptyString]
           end
  end.

(** The callback of [--prefix-list]:
    [lambda ctx, param, value: value.split(",") if value else None].  The
    value is [None] when the option is not given; [None] and the empty string
    are falsy. *)
Definition prefix_list_callback (value : option string) : option (list string) :=
  match value with
  | None => None
  | Some EmptyString => None
  | Some (String _ _ as text) => Some (split_comma text)
  end.

Section CommandLine.
Context {aws : Boto3} {host : Host}.

(** [cleanup_env_cli], for a prefix list that was given:
    [try: cleanup_env(...)  except Exception as e: raise_for_click(e)].
    [click.style] turns the exception it is handed into [str(e)]. *)
Definition cleanup_env_cli (ctx : Context) (no_confirm : bool) (prefix_list : list string)
    : M unit :=
  try_except
    (cleanup_env ctx no_confirm prefix_list)
    Exception
    (fun e => raise_for_click (exn_str e)).

End CommandLine.

(** ** Further shapes of traces and selections *)

(** A stack that passes the status and parent tests of the gatherer. *)
Definition active_parent (stack : StackSummary) : bool :=
  negb (str_in "DELETE_COMPLETE" (StackStatus stack))
  && match ParentId stack with None => true | Some _ => false end.

(** A function whose [VpcConfig] names a VPC. *)
Definition in_vpc (function : FunctionConfiguration) : bool :=
  match VpcConfig function with
  | None => false
  | Some cfg => truthy_str (VpcId cfg)
  end.

(** [t] is the beginning of [full]. *)
Definition begins (t full : list event) : Prop := exists rest, full = t ++ rest.

(** After an event of [A], only events of [B]. *)
Definition only_after (A B : event -> Prop) (t : list event) : Prop :=
  forall pre x post, t = pre ++ x :: post -> A x -> Forall B post.

(** Before an event of [A], the event [mark]. *)
Definition only_once_past (A : event -> Prop) (mark : event) (t : list event) : Prop :=
  forall pre x post, t = pre ++ x :: post -> A x -> In mark pre.

(** Every image deletion has images to delete and directly follows the
    listing of the images of the same repository. *)
Definition images_listed_first (t : list event) : Prop :=
  forall pre post region repository ids,
    t = pre ++ Called region (BatchDeleteImage repository ids) :: post ->
    ids <> [] /\ exists pre', pre = pre' ++ [ListedImages region repository].

Definition stack_deletion (e : event) : Prop :=
  match e with
  | Called _ (DeleteStack _) => True
  | _ => False
  end.

(** Not an event of the four blocks that precede the CloudFormation block:
    their prompts, the image listing, the image deletion and the two
    updates. *)
Definition past_first_blocks (e : event) : Prop :=
  match e with
  | Called _ (BatchDeleteImage _ _) | Called _ (UpdateFunctionConfiguration _ _ _)
  | Called _ (UpdateTable _ _) | ListedImages _ _ => False
  | Confirm text _ =>
      text <> prompt_s3 /\ text <> prompt_ecr /\ text <> prompt_lambda /\ text <> prompt_ddb
  | _ => True
  end.

(** The deletions of the second pass. *)
Definition second_pass_deletion (e : event) : Prop :=
  match e with
  | Called _ (BucketDelete _) | Called _ (DeleteParameter _)
  | Called _ (DeleteLogGroup _) => True
  | _ => False
  end.

(** What the deleters let out: a click exception, or an SDK error that is
    not a [ClientError]; never a [ClientError] as such. *)
Definition click_or_other (e : exn) : Prop :=
  match e with
  | ClickException _ | SdkError (OtherError _) => True
  | _ => False
  end.

(** What a run of the orchestrator can end with: never a [KeyError]; a click
    exception only when there is a substring to work on.  ([Abort] is left
    open: beside the declined CloudFormation prompt, click raises it at a
    prompt that gets no answer, which the operator here always gives.) *)
Definition orchestrator_exception (substrings : list string) (e : exn) : Prop :=
  match e with
  | SdkError _ | Abort => True
  | ClickException _ => substrings <> []
  | KeyError _ => False
  end.

(** The trace of emptying the buckets [names], one after the other. *)
Definition emptied_s3 (region : string) (names : list string) : list event :=
  flat_map (fun n => [ Called region (ObjectVersionsDelete n);
                       Secho ("Emptied S3 bucket: " ++ n) (Some red) ]) names.

(** The notices of [delete_resources] for the types it has no deleter for. *)
Definition unknown_type_notices (d : resource_dict) : list event :=
  map (fun kv => Secho ("No deletion method found for resource type: " ++ fst kv)
                       (Some yellow)) d.

(** An inventory as [gather_resources] returns it, reduced to the two types
    that [delete_methods] does not know. *)
Definition unknown_types_sample : resource_dict :=
  [ ("vpc_lambdas", ["env-a-fn"]); ("ddb_tables", ["env-a-table"]) ].

Definition click_exception (e : exn) : Prop :=
  match e with
  | ClickException _ => True
  | _ => False
  end.

(** An account whose waiter fails on every stack, with a waiter error. *)
Definition waiter_error : sdk_error :=
  OtherError "Waiter StackDeleteComplete failed: Max attempts exceeded".

Definition stuck_account : Account := {|
  acct_stacks := []; acct_buckets := []; acct_tables := []; acct_repositories := [];
  acct_log_groups := []; acct_parameters := []; acct_functions := [];
  acct_images := fun _ => None;
  faults := fun cmd =>
    match cmd with
    | WaitStackDeleteComplete _ => Some waiter_error
    | _ => None
    end
|}.

(** * Proofs *)

(** ** Python strings: what [in] and [startswith] decide *)

Lemma prefix_StartsWith (p s : string) :
  String.prefix p s = true <-> StartsWith s p.
Proof.
  revert s. induction p as [|a p IH]; intros s; simpl.
  - split; [intros _; exists s; reflexivity | now destruct s].
  - destruct s as [|b s].
    + split; [discriminate | intros [rest H]; discriminate].
    + simpl. destruct (Ascii.ascii_dec a b) as [->|Hne].
      * rewrite IH. split; intros [rest H]; exists rest; simpl in *; congruence.
      * split; [discriminate | intros [rest H]; simpl in H; congruence].
Qed.

Lemma startswith_StartsWith (s p : string) :
  startswith s p = true <-> StartsWith s p.
Proof. apply prefix_StartsWith. Qed.

Lemma str_in_Substring (sub s : string) :
  str_in sub s = true <-> Substring sub s.
Proof.
  induction s as [|a s IH].
  - cbn [str_in]. rewrite orb_false_r, prefix_StartsWith. split.
    + intros [rest H]. exists EmptyString, rest. exact H.
    + intros [pre [post H]]. destruct pre; simpl in H.
      * exists post. exact H.
      * discriminate.
  - cbn [str_in]. rewrite orb_true_iff, IH, prefix_StartsWith. split.
    + intros [[rest H] | [pre [post H]]].
      * exists EmptyString, rest. exact H.
      * exists (String a pre), post. simpl. now rewrite H.
    + intros [pre [post H]]. destruct pre as [|b pre]; simpl in H.
      * left. exists post. exact H.
      * right. exists pre, post. congruence.
Qed.

Lemma any_in_Substring (substrings : list string) (s : string) :
  any_in substrings s = true <-> exists sub, In sub substrings /\ Substring sub s.
Proof.
  unfold any_in. rewrite existsb_exists.
  split; intros [sub [Hin H]]; exists sub; split; auto; now apply str_in_Substring.
Qed.

(** ** The gatherer loops as filters *)

Lemma fold_left_append {A B : Type} (keep : A -> bool) (f : A -> B) (l : list A) (acc : list B) :
  fold_left (fun acc x => if keep x then acc ++ [f x] else acc) l acc
  = acc ++ map f (filter keep l).
Proof.
  revert acc. induction l as [|x l IH]; intros acc; simpl.
  - now rewrite app_nil_r.
  - rewrite IH. destruct (keep x); simpl; [now rewrite <- app_assoc | reflexivity].
Qed.

Lemma for_pages_append {A B : Type} (keep : A -> bool) (f : A -> B)
    (pages : list (list A)) (acc : list B) :
  for_pages (fun acc x => if keep x then acc ++ [f x] else acc) pages acc
  = acc ++ map f (filter keep (List.concat pages)).
Proof.
  unfold for_pages. revert acc. induction pages as [|page pages IH]; intros acc; simpl.
  - now rewrite app_nil_r.
  - rewrite fold_left_append, IH, filter_app, map_app. now rewrite app_assoc.
Qed.

Lemma for_pages_ext {A B : Type} (body body' : B -> A -> B) (pages : list (list A)) (acc : B) :
  (forall acc x, body acc x = body' acc x) ->
  for_pages body pages acc = for_pages body' pages acc.
Proof.
  intros E. unfold for_pages. revert acc.
  induction pages as [|page pages IH]; intros acc; simpl; [reflexivity|].
  rewrite IH. f_equal. clear IH. revert acc.
  induction page as [|x page IH]; intros acc; simpl; [reflexivity|].
  now rewrite E, IH.
Qed.

Lemma ssm_inner_append (param_name : string) (substrings acc : list string) :
  ssm_inner param_name substrings acc
  = if existsb (fun sub => startswith param_name ("/" ++ sub ++ "/")) substrings
    then acc ++ [param_name] else acc.
Proof.
  induction substrings as [|sub rest IH]; simpl; [reflexivity|].
  destruct (startswith param_name _); simpl; [reflexivity | exact IH].
Qed.

Lemma select_names_filter {A : Type} (get_name : A -> string) (substrings : list string)
    (pages : list (list A)) :
  select_names get_name substrings pages
  = map get_name (filter (fun item => any_in substrings (get_name item)) (List.concat pages)).
Proof. unfold select_names. now rewrite for_pages_append. Qed.

Lemma select_stacks_filter (substrings : list string) (pages : list (list StackSummary)) :
  select_stacks substrings pages
  = map (fun stack => (StackName stack, CreationTime stack))
        (filter (keeps_stack substrings) (List.concat pages)).
Proof.
  unfold select_stacks.
  erewrite for_pages_ext; [apply (for_pages_append _ _ pages [])|].
  intros acc stack. unfold keeps_stack.
  destruct (negb _ && _); reflexivity.
Qed.

Lemma select_ssm_params_filter (substrings : list string) (pages : list (list ParameterMetadata)) :
  select_ssm_params substrings pages
  = map Name (filter (keeps_param substrings) (List.concat pages)).
Proof.
  unfold select_ssm_params.
  erewrite for_pages_ext; [apply (for_pages_append _ _ pages [])|].
  intros acc param. apply ssm_inner_append.
Qed.

Lemma select_vpc_lambdas_filter (substrings : list string) (pages : list (list FunctionConfiguration)) :
  select_vpc_lambdas substrings pages
  = map FunctionName (filter (keeps_function substrings) (List.concat pages)).
Proof. unfold select_vpc_lambdas. now rewrite for_pages_append. Qed.

(** ** [sorted(..., reverse=True)] *)

Section Sorting.
Context {A : Type} (key : A -> Z).

Lemma insert_desc_perm (x : A) (l : list A) :
  Permutation (x :: l) (insert_desc key x l).
Proof.
  induction l as [|y l IH]; simpl; [reflexivity|].
  destruct (key x <? key y)%Z.
  - rewrite perm_swap. now apply perm_skip.
  - reflexivity.
Qed.

Lemma sorted_reverse_perm (l : list A) : Permutation l (sorted_reverse key l).
Proof.
  induction l as [|x l IH]; simpl; [constructor|].
  rewrite <- insert_desc_perm. now apply perm_skip.
Qed.

Lemma insert_desc_descending (x : A) (l : list A) :
  descending key l -> descending key (insert_desc key x l).
Proof.
  unfold descending. induction l as [|y l IH]; intros Hs; simpl.
  - repeat constructor.
  - inversion Hs as [|? ? Hl Hy]; subst.
    destruct (key x <? key y)%Z eqn:E.
    + apply Z.ltb_lt in E. constructor; [now apply IH|].
      rewrite Forall_forall in *. intros z Hz.
      apply (Permutation_in _ (Permutation_sym (insert_desc_perm x l))) in Hz.
      destruct Hz as [<- | Hz]; [lia | now apply Hy].
    + apply Z.ltb_ge in E. constructor; [exact Hs|].
      constructor; [exact E|].
      rewrite Forall_forall in *. intros z Hz. specialize (Hy z Hz). lia.
Qed.

Lemma sorted_reverse_descending (l : list A) : descending key (sorted_reverse key l).
Proof.
  induction l as [|x l IH]; simpl; [constructor | now apply insert_desc_descending].
Qed.

(** Stability: the elements of any one key keep the order they had. *)
Lemma insert_desc_stable (k : Z) (x : A) (l : list A) :
  descending key l ->
  filter (fun a => (key a =? k)%Z) (insert_desc key x l)
  = filter (fun a => (key a =? k)%Z) (x :: l).
Proof.
  unfold descending. induction l as [|y l IH]; intros Hs; [reflexivity|].
  inversion Hs as [|? ? Hl Hy]; subst. cbn [insert_desc].
  destruct (key x <? key y)%Z eqn:E; [|reflexivity].
  apply Z.ltb_lt in E. cbn [filter]. rewrite (IH Hl). cbn [filter].
  destruct (key x =? k)%Z eqn:Ex, (key y =? k)%Z eqn:Ey; try reflexivity.
  apply Z.eqb_eq in Ex, Ey. lia.
Qed.

Lemma sorted_reverse_stable (k : Z) (l : list A) :
  filter (fun a => (key a =? k)%Z) (sorted_reverse key l)
  = filter (fun a => (key a =? k)%Z) l.
Proof.
  induction l as [|x l IH]; [reflexivity|].
  cbn [sorted_reverse fold_right].
  rewrite insert_desc_stable by apply sorted_reverse_descending.
  cbn [filter]. fold (sorted_reverse key l). now rewrite IH.
Qed.

(** In a descending key list, an element with a strictly larger key stands at
    a strictly smaller index. *)
Lemma descending_later_first (l : list A) :
  descending key l ->
  forall i j a b,
    nth_error l i = Some a -> nth_error l j = Some b ->
    (key b < key a)%Z -> (i < j)%nat.
Proof.
  unfold descending. induction 1 as [|x l Hl IH Hx]; intros i j a b Hi Hj Hlt.
  - destruct i; discriminate.
  - rewrite Forall_forall in Hx.
    destruct i as [|i], j as [|j]; simpl in Hi, Hj.
    + injection Hi as <-. injection Hj as <-. lia.
    + lia.
    + injection Hj as <-. apply nth_error_In in Hi. specialize (Hx a Hi). lia.
    + apply -> Nat.succ_lt_mono. eapply IH; eauto.
Qed.

End Sorting.

Lemma insert_desc_map {A B : Type} (f : A -> B) (key : B -> Z) (x : A) (l : list A) :
  map f (insert_desc (fun a => key (f a)) x l) = insert_desc key (f x) (map f l).
Proof.
  induction l as [|y l IH]; simpl; [reflexivity|].
  destruct (key (f x) <? key (f y))%Z; simpl; now rewrite ?IH.
Qed.

Lemma sorted_reverse_map {A B : Type} (f : A -> B) (key : B -> Z) (l : list A) :
  map f (sorted_reverse (fun a => key (f a)) l) = sorted_reverse key (map f l).
Proof.
  induction l as [|x l IH]; simpl; [reflexivity|].
  now rewrite insert_desc_map, IH.
Qed.

(** ** Running a gatherer *)

Section Gatherers.
Context {aws : Boto3}.

(** A gatherer is a listing call followed by a pure selection: it returns
    the selection when the listing returns, and raises the listing's error
    otherwise. *)
Lemma run_listing {A B : Type} (e : event) (op : cloud -> (sdk_error + A) * cloud)
    (select : A -> B) (c : cloud) :
  bind (boto3_call e op) (fun a => ret (select a)) c
  = match op c with
    | (inr a, c1) => (Ok (select a), c1, [e])
    | (inl err, c1) => (Raise (SdkError err), c1, [e])
    end.
Proof.
  unfold bind, boto3_call, ret. destruct (op c) as [[err|a] c1]; reflexivity.
Qed.

End Gatherers.

(** Among the statuses CloudFormation reports, only [DELETE_COMPLETE]
    contains the text the gatherer looks for. *)
Lemma delete_complete_status (status : string) :
  In status stack_statuses ->
  (str_in "DELETE_COMPLETE" status = false <-> status <> "DELETE_COMPLETE").
Proof.
  unfold stack_statuses. intros H.
  repeat (destruct H as [<- | H];
          [split;
           [intros E; first [vm_compute in E; discriminate E | intros D; discriminate D]
           |intros N; first [reflexivity | exfalso; apply N; reflexivity]]|]).
  destruct H.
Qed.

Lemma keeps_stack_iff (substrings : list string) (stack : StackSummary) :
  In (StackStatus stack) stack_statuses ->
  (keeps_stack substrings stack = true <->
   StackStatus stack <> "DELETE_COMPLETE" /\ ParentId stack = None
   /\ exists sub, In sub substrings /\ Substring sub (StackName stack)).
Proof.
  intros Hst. unfold keeps_stack.
  rewrite !andb_true_iff, negb_true_iff, (delete_complete_status _ Hst), any_in_Substring.
  destruct (ParentId stack); intuition (congruence || discriminate).
Qed.

Lemma keeps_function_iff (substrings : list string) (function : FunctionConfiguration) :
  keeps_function substrings function = true <->
  (exists sub, In sub substrings /\ Substring sub (FunctionName function))
  /\ exists cfg vpc_id, VpcConfig function = Some cfg /\ VpcId cfg = Some vpc_id
                        /\ vpc_id <> "".
Proof.
  unfold keeps_function. rewrite andb_true_iff, any_in_Substring.
  destruct (VpcConfig function) as [[[[|a v]|]]|]; simpl.
  - split; [intros [_ H]; discriminate|].
    intros [_ [cfg [v [H1 [H2 H3]]]]]. injection H1 as <-. simpl in H2. congruence.
  - split; [|tauto]. intros [H _]. split; [exact H|].
    eexists; eexists; repeat split; discriminate.
  - split; [intros [_ H]; discriminate|].
    intros [_ [cfg [v [H1 [H2 H3]]]]]. injection H1 as <-. discriminate.
  - split; [intros [_ H]; discriminate|].
    intros [_ [cfg [v [H1 _]]]]. discriminate.
Qed.

Lemma keeps_param_iff (substrings : list string) (param : ParameterMetadata) :
  keeps_param substrings param = true <->
  exists sub, In sub substrings /\ StartsWith (Name param) ("/" ++ sub ++ "/").
Proof.
  unfold keeps_param. rewrite existsb_exists.
  split; intros [sub [Hin H]]; exists sub; split; auto; now apply startswith_StartsWith.
Qed.

Section GathererTheorems.
Context {aws : Boto3}.

(** C1.  Whenever [list_stacks] returns pages whose statuses are statuses
    CloudFormation reports, [gather_cloudformation_stacks] returns the names
    of a list [gathered] of stacks such that: a name is returned iff it is the
    name of a listed stack whose status is not [DELETE_COMPLETE], that has no
    [ParentId] and whose name contains one of the substrings; [gathered] holds
    the stacks that pass the filter, each as often as it is listed; and of any
    two gathered stacks the one created later stands first. *)
Theorem gather_cloudformation_stacks_spec
    (substrings : list string) (region : string) (c c' : cloud)
    (pages : list (list StackSummary)) :
  list_stacks region c = (inr pages, c') ->
  Forall (fun stack => In (StackStatus stack) stack_statuses) (List.concat pages) ->
  exists gathered : list StackSummary,
    gather_cloudformation_stacks substrings region c
      = (Ok (map StackName gathered), c', [Listed region ListStacks])
    /\ (forall n, In n (map StackName gathered) <->
          exists stack, In stack (List.concat pages) /\ StackName stack = n
            /\ StackStatus stack <> "DELETE_COMPLETE"
            /\ ParentId stack = None
            /\ exists sub, In sub substrings /\ Substring sub n)
    /\ Permutation gathered (filter (keeps_stack substrings) (List.concat pages))
    /\ (forall i j a b,
          nth_error gathered i = Some a -> nth_error gathered j = Some b ->
          (CreationTime b < CreationTime a)%Z -> (i < j)%nat).
Proof.
  intros Hlist Hvalid.
  set (kept := filter (keeps_stack substrings) (List.concat pages)).
  set (pair := fun stack => (StackName stack, CreationTime stack)).
  set (key := fun stack => snd (pair stack)).
  assert (Hperm : Permutation kept (sorted_reverse key kept))
    by apply sorted_reverse_perm.
  exists (sorted_reverse key kept). repeat split.
  - unfold gather_cloudformation_stacks. rewrite run_listing, Hlist.
    unfold sorted_stack_names. rewrite select_stacks_filter.
    fold pair. fold kept. rewrite <- (sorted_reverse_map pair snd), map_map.
    reflexivity.
  - intros Hin. apply in_map_iff in Hin. destruct Hin as [stack [<- Hin]].
    apply (Permutation_in _ (Permutation_sym Hperm)) in Hin.
    apply filter_In in Hin. destruct Hin as [Hin Hk].
    rewrite Forall_forall in Hvalid.
    apply keeps_stack_iff in Hk; [|now apply Hvalid].
    exists stack. tauto.
  - intros [stack [Hin [<- H]]]. apply in_map.
    apply (Permutation_in _ Hperm). apply filter_In. split; [exact Hin|].
    rewrite Forall_forall in Hvalid. apply keeps_stack_iff; [now apply Hvalid | exact H].
  - now apply Permutation_sym.
  - intros i j a b Hi Hj Hlt.
    exact (descending_later_first key _ (sorted_reverse_descending key kept) i j a b Hi Hj Hlt).
Qed.

(** C2.  Whenever the listings return, the S3, DynamoDB, ECR and log group
    gatherers return, in listing order, the names that contain one of the
    substrings, and the SSM gatherer returns the names that start with
    [/{sub}/] for one of the substrings: a name is in the result iff it is
    listed and passes that test. *)
Theorem gatherers_substring_filter
    (substrings : list string) (region : string) (c c1 c2 c3 c4 c5 : cloud)
    (all : list Bucket) (tables : list (list string))
    (repositories : list (list Repository)) (log_groups : list (list LogGroup))
    (parameters : list (list ParameterMetadata)) :
  buckets_all region c = (inr all, c1) ->
  list_tables region c = (inr tables, c2) ->
  describe_repositories region c = (inr repositories, c3) ->
  describe_log_groups region c = (inr log_groups, c4) ->
  describe_parameters region c = (inr parameters, c5) ->
  (exists buckets,
     gather_s3_buckets substrings region c = (Ok buckets, c1, [Listed region BucketsAll])
     /\ buckets = filter (any_in substrings) (map name all)
     /\ forall n, In n buckets <->
          In n (map name all) /\ exists sub, In sub substrings /\ Substring sub n)
  /\ (exists table_names,
     gather_ddb_tables substrings region c = (Ok table_names, c2, [Listed region ListTables])
     /\ table_names = filter (any_in substrings) (List.concat tables)
     /\ forall n, In n table_names <->
          In n (List.concat tables) /\ exists sub, In sub substrings /\ Substring sub n)
  /\ (exists repos,
     gather_ecr_repositories substrings region c
       = (Ok repos, c3, [Listed region DescribeRepositories])
     /\ repos = filter (any_in substrings) (map repositoryName (List.concat repositories))
     /\ forall n, In n repos <->
          In n (map repositoryName (List.concat repositories))
          /\ exists sub, In sub substrings /\ Substring sub n)
  /\ (exists groups,
     gather_log_groups substrings region c
       = (Ok groups, c4, [Listed region DescribeLogGroups])
     /\ groups = filter (any_in substrings) (map logGroupName (List.concat log_groups))
     /\ forall n, In n groups <->
          In n (map logGroupName (List.concat log_groups))
          /\ exists sub, In sub substrings /\ Substring sub n)
  /\ (exists ssm_params,
     gather_ssm_params substrings region c
       = (Ok ssm_params, c5, [Listed region DescribeParameters])
     /\ ssm_params = map Name (filter (keeps_param substrings) (List.concat parameters))
     /\ forall n, In n ssm_params <->
          In n (map Name (List.concat parameters))
          /\ exists sub, In sub substrings /\ StartsWith n ("/" ++ sub ++ "/")).
Proof.
  intros H1 H2 H3 H4 H5.
  assert (F : forall (A : Type) (get_name : A -> string) (l : list A),
    map get_name (filter (fun item => any_in substrings (get_name item)) l)
    = filter (any_in substrings) (map get_name l)).
  { intros A get_name l. induction l as [|x l IH]; simpl; [reflexivity|].
    destruct (any_in substrings (get_name x)); simpl; now rewrite IH. }
  assert (G : forall l n, In n (filter (any_in substrings) l) <->
    In n l /\ exists sub, In sub substrings /\ Substring sub n).
  { intros l n. now rewrite filter_In, any_in_Substring. }
  repeat split; try (eexists; split; [|split; [reflexivity|]]).
  - unfold gather_s3_buckets. rewrite run_listing, H1, select_names_filter, F.
    simpl. rewrite app_nil_r. reflexivity.
  - apply G.
  - unfold gather_ddb_tables. rewrite run_listing, H2, select_names_filter, F, map_id.
    reflexivity.
  - apply G.
  - unfold gather_ecr_repositories. rewrite run_listing, H3, select_names_filter, F.
    reflexivity.
  - apply G.
  - unfold gather_log_groups. rewrite run_listing, H4, select_names_filter, F.
    reflexivity.
  - apply G.
  - unfold gather_ssm_params. rewrite run_listing, H5, select_ssm_params_filter.
    reflexivity.
  - intros n. rewrite !in_map_iff. split.
    + intros [param [<- Hin]]. apply filter_In in Hin. destruct Hin as [Hin Hk].
      split; [now exists param | now apply keeps_param_iff].
    + intros [[param [<- Hin]] Hk]. exists param. split; [reflexivity|].
      apply filter_In. split; [exact Hin | now apply keeps_param_iff].
Qed.

(** C6.  Whenever [list_functions] returns, [gather_vpc_lambdas] returns the
    names of the listed functions whose name contains one of the substrings
    and whose [VpcConfig] is present with a non-empty [VpcId]. *)
Theorem gather_vpc_lambdas_spec
    (substrings : list string) (region : string) (c c' : cloud)
    (pages : list (list FunctionConfiguration)) :
  list_functions region c = (inr pages, c') ->
  exists kept : list FunctionConfiguration,
    gather_vpc_lambdas substrings region c
      = (Ok (map FunctionName kept), c', [Listed region ListFunctions])
    /\ kept = filter (keeps_function substrings) (List.concat pages)
    /\ forall function, In function kept <->
         In function (List.concat pages)
         /\ (exists sub, In sub substrings /\ Substring sub (FunctionName function))
         /\ exists cfg vpc_id,
              VpcConfig function = Some cfg /\ VpcId cfg = Some vpc_id /\ vpc_id <> "".
Proof.
  intros H. eexists. split; [|split; [reflexivity|]].
  - unfold gather_vpc_lambdas. rewrite run_listing, H, select_vpc_lambdas_filter.
    reflexivity.
  - intros function. now rewrite filter_In, keeps_function_iff.
Qed.

(** C8.  When [list_stacks] returns the one page [env-a-app] (created at 2),
    [env-a-db] (created at 1), both parentless and in a reported status other
    than [DELETE_COMPLETE], the gatherer called with [["env-a"]] returns
    [["env-a-app"; "env-a-db"]]. *)
Theorem gather_cloudformation_stacks_env_a
    (region : string) (c c' : cloud) (status_app status_db : string) :
  In status_app stack_statuses -> status_app <> "DELETE_COMPLETE" ->
  In status_db stack_statuses -> status_db <> "DELETE_COMPLETE" ->
  list_stacks region c
    = (inr [[ {| StackName := "env-a-app"; StackStatus := status_app;
                 ParentId := None; CreationTime := 2 |};
              {| StackName := "env-a-db"; StackStatus := status_db;
                 ParentId := None; CreationTime := 1 |} ]], c') ->
  gather_cloudformation_stacks ["env-a"] region c
    = (Ok ["env-a-app"; "env-a-db"], c', [Listed region ListStacks]).
Proof.
  intros Ha Na Hd Nd Hlist.
  apply delete_complete_status in Na; [|exact Ha].
  apply delete_complete_status in Nd; [|exact Hd].
  unfold gather_cloudformation_stacks. rewrite run_listing, Hlist.
  unfold select_stacks, for_pages. cbn [fold_left StackStatus ParentId StackName CreationTime].
  rewrite Na, Nd. reflexivity.
Qed.

End GathererTheorems.

(** ** Deleters *)

Lemma calls_app (t1 t2 : list event) : calls (t1 ++ t2) = calls t1 ++ calls t2.
Proof.
  induction t1 as [|e t1 IH]; simpl; [reflexivity|].
  destruct e; simpl; now rewrite ?IH.
Qed.

Ltac unfold_prog :=
  unfold try_except, bind, boto3_call, secho, emit, raise_for_click, raise, ret,
    Exception, is_ClientError.

Section DeleterTheorems.
Context {aws : Boto3}.

(** C3.  When [delete_stack] fails with a [ClientError]:  if the code is
    [ValidationError] and the message contains [does not exist], the deleter
    prints a notice and returns, with no further provider call; for any other
    code or message it raises the click exception that carries the formatted
    failure. *)
Theorem delete_cloudformation_stack_absent
    (stack_name region : string) (c c' : cloud) (code message text : string) :
  invoke region (DeleteStack stack_name) c = (inl (ClientError code message text), c') ->
  (code = "ValidationError" /\ Substring "does not exist" message ->
   delete_cloudformation_stack stack_name region c
   = (Ok tt, c',
      [ Called region (DeleteStack stack_name);
        Secho ("CloudFormation stack " ++ stack_name
                 ++ " does not exist or is already deleted.") (Some yellow) ]))
  /\ (~ (code = "ValidationError" /\ Substring "does not exist" message) ->
   delete_cloudformation_stack stack_name region c
   = (Raise (ClickException
               (click_style ("Failed to delete CloudFormation stack " ++ stack_name
                               ++ ": " ++ text) red)),
      c', [ Called region (DeleteStack stack_name) ])).
Proof.
  intros H.
  assert (E : String.eqb code "ValidationError" && str_in "does not exist" message = true
              <-> code = "ValidationError" /\ Substring "does not exist" message)
    by now rewrite andb_true_iff, String.eqb_eq, str_in_Substring.
  unfold delete_cloudformation_stack. unfold_prog. rewrite H.
  destruct (String.eqb code "ValidationError" && str_in "does not exist" message).
  - split; [reflexivity|]. intros N. exfalso. apply N, E. reflexivity.
  - split; [|reflexivity]. intros Y. apply E in Y. discriminate.
Qed.

(** C7.  Every run of [delete_s3_bucket] starts with the call that deletes
    the object versions of the bucket, and a bucket delete call, when the run
    issues one, comes after that call has returned normally; no other command
    is issued. *)
Theorem delete_s3_bucket_empties_first (bucket_name region : string) (c : cloud) :
  match delete_s3_bucket bucket_name region c with
  | (r, c', t) =>
      (exists rest, t = Called region (ObjectVersionsDelete bucket_name) :: rest)
      /\ (forall pre post region' bucket',
            t = pre ++ Called region' (BucketDelete bucket') :: post ->
            In (Called region (ObjectVersionsDelete bucket_name)) pre
            /\ fst (invoke region (ObjectVersionsDelete bucket_name) c) = inr tt)
      /\ (calls t = [(region, ObjectVersionsDelete bucket_name)]
          \/ calls t = [(region, ObjectVersionsDelete bucket_name);
                        (region, BucketDelete bucket_name)])
  end.
Proof.
  unfold delete_s3_bucket. unfold_prog.
  destruct (invoke region (ObjectVersionsDelete bucket_name) c) as [[e1|[]] c1] eqn:E1.
  - simpl. split; [eauto|]. split; [|now left].
    intros [|x [|y pre]] post region' bucket' H; simpl in H; discriminate.
  - destruct (invoke region (BucketDelete bucket_name) c1) as [[e2|[]] c2] eqn:E2;
      simpl; (split; [eauto|]); (split; [|now right]);
      intros [|x pre] post region' bucket' H; simpl in H; try discriminate;
      injection H as <- H; (split; [now left | reflexivity]).
Qed.

(** The trace of the Lambda loop issues the update for every name, in
    order, whatever the calls answer, and the loop returns normally. *)
Lemma update_lambda_vpc_config_total (lambda_functions : list string) (region : string) (c : cloud) :
  exists c' t,
    update_lambda_vpc_config lambda_functions region c = (Ok tt, c', t)
    /\ calls t = map (fun n => (region, UpdateFunctionConfiguration n [] [])) lambda_functions.
Proof.
  revert c. induction lambda_functions as [|n rest IH]; intros c.
  - exists c, []. split; reflexivity.
  - unfold update_lambda_vpc_config in *.
    set (body := fun function_name : string => _) in *.
    cbn [for_each]. unfold bind.
    assert (Hb : exists c1 t1, body n c = (Ok tt, c1, t1)
                   /\ calls t1 = [(region, UpdateFunctionConfiguration n [] [])]).
    { unfold body. unfold_prog.
      destruct (invoke region (UpdateFunctionConfiguration n [] []) c) as [[e|[]] c1];
        do 2 eexists; split; reflexivity. }
    destruct Hb as [c1 [t1 [-> Ht1]]]. destruct (IH c1) as [c2 [t [-> Ht]]].
    do 2 eexists. split; [reflexivity|]. now rewrite calls_app, Ht1, Ht.
Qed.

Lemma remove_ddb_deletion_protection_total (table_names : list string) (region : string) (c : cloud) :
  exists c' t,
    remove_ddb_deletion_protection table_names region c = (Ok tt, c', t)
    /\ calls t = map (fun n => (region, UpdateTable n false)) table_names.
Proof.
  revert c. induction table_names as [|n rest IH]; intros c.
  - exists c, []. split; reflexivity.
  - unfold remove_ddb_deletion_protection in *.
    set (body := fun table_name : string => _) in *.
    cbn [for_each]. unfold bind.
    assert (Hb : exists c1 t1, body n c = (Ok tt, c1, t1)
                   /\ calls t1 = [(region, UpdateTable n false)]).
    { unfold body. unfold_prog.
      destruct (invoke region (UpdateTable n false) c) as [[e|[]] c1];
        do 2 eexists; split; reflexivity. }
    destruct Hb as [c1 [t1 [-> Ht1]]]. destruct (IH c1) as [c2 [t [-> Ht]]].
    do 2 eexists. split; [reflexivity|]. now rewrite calls_app, Ht1, Ht.
Qed.

(** C5.  An error of the provider call inside [delete_s3_bucket],
    [delete_ecr_repository], [delete_ssm_param] or [delete_log_group] becomes
    a click exception with the formatted failure.  In
    [update_lambda_vpc_config] and [remove_ddb_deletion_protection] the error
    of a call is printed and the loop goes on with the names that remain: the
    loops return normally and issue the call for every name. *)
Theorem deleter_failures (region : string) (c c1 : cloud) (e : sdk_error) (n : string) :
  (invoke region (ObjectVersionsDelete n) c = (inl e, c1) ->
   delete_s3_bucket n region c
   = (Raise (ClickException
               (click_style ("Failed to delete S3 bucket " ++ n ++ ": " ++ sdk_str e) red)),
      c1, [Called region (ObjectVersionsDelete n)]))
  /\ (forall c0, invoke region (ObjectVersionsDelete n) c0 = (inr tt, c) ->
      invoke region (BucketDelete n) c = (inl e, c1) ->
      delete_s3_bucket n region c0
      = (Raise (ClickException
                  (click_style ("Failed to delete S3 bucket " ++ n ++ ": " ++ sdk_str e) red)),
         c1, [Called region (ObjectVersionsDelete n); Called region (BucketDelete n)]))
  /\ (invoke region (DeleteRepository n true) c = (inl e, c1) ->
      delete_ecr_repository n region c
      = (Raise (ClickException
                  (click_style ("Failed to delete ECR repository " ++ n ++ ": " ++ sdk_str e)
                               red)),
         c1, [Called region (DeleteRepository n true)]))
  /\ (invoke region (DeleteParameter n) c = (inl e, c1) ->
      delete_ssm_param n region c
      = (Raise (ClickException
                  (click_style ("Failed to delete SSM Parameter " ++ n ++ ": " ++ sdk_str e)
                               red)),
         c1, [Called region (DeleteParameter n)]))
  /\ (invoke region (DeleteLogGroup n) c = (inl e, c1) ->
      delete_log_group n region c
      = (Raise (ClickException
                  (click_style ("Failed to delete Log Group " ++ n ++ ": " ++ sdk_str e) red)),
         c1, [Called region (DeleteLogGroup n)]))
  /\ (forall rest,
      invoke region (UpdateFunctionConfiguration n [] []) c = (inl e, c1) ->
      exists c2 t,
        update_lambda_vpc_config rest region c1 = (Ok tt, c2, t)
        /\ calls t = map (fun n' => (region, UpdateFunctionConfiguration n' [] [])) rest
        /\ update_lambda_vpc_config (n :: rest) region c
           = (Ok tt, c2,
              Called region (UpdateFunctionConfiguration n [] [])
              :: Secho ("Failed to update Lambda function '" ++ n ++ "': " ++ sdk_str e) None
              :: t))
  /\ (forall rest,
      invoke region (UpdateTable n false) c = (inl e, c1) ->
      exists c2 t,
        remove_ddb_deletion_protection rest region c1 = (Ok tt, c2, t)
        /\ calls t = map (fun n' => (region, UpdateTable n' false)) rest
        /\ remove_ddb_deletion_protection (n :: rest) region c
           = (Ok tt, c2,
              Called region (UpdateTable n false)
              :: Secho ("Failed to disable deletion protection for DynamoDB table '" ++ n
                          ++ "': " ++ sdk_str e) (Some red)
              :: t)).
Proof.
  repeat split.
  - intros H. unfold delete_s3_bucket. unfold_prog. now rewrite H.
  - intros c0 H0 H. unfold delete_s3_bucket. unfold_prog. now rewrite H0, H.
  - intros H. unfold delete_ecr_repository. unfold_prog. now rewrite H.
  - intros H. unfold delete_ssm_param. unfold_prog. now rewrite H.
  - intros H. unfold delete_log_group. unfold_prog. now rewrite H.
  - intros rest H.
    destruct (update_lambda_vpc_config_total rest region c1) as [c2 [t [Hr Ht]]].
    exists c2, t. repeat split; [exact Hr | exact Ht |].
    unfold update_lambda_vpc_config in *.
    set (body := fun function_name : string => _) in *.
    cbn [for_each]. unfold bind.
    replace (body n c) with
      (@Ok unit tt, c1,
       [ Called region (UpdateFunctionConfiguration n [] []);
         Secho ("Failed to update Lambda function '" ++ n ++ "': " ++ sdk_str e) None ])
      by (unfold body; unfold_prog; now rewrite H).
    now rewrite Hr.
  - intros rest H.
    destruct (remove_ddb_deletion_protection_total rest region c1) as [c2 [t [Hr Ht]]].
    exists c2, t. repeat split; [exact Hr | exact Ht |].
    unfold remove_ddb_deletion_protection in *.
    set (body := fun table_name : string => _) in *.
    cbn [for_each]. unfold bind.
    replace (body n c) with
      (@Ok unit tt, c1,
       [ Called region (UpdateTable n false);
         Secho ("Failed to disable deletion protection for DynamoDB table '" ++ n
                  ++ "': " ++ sdk_str e) (Some red) ])
      by (unfold body; unfold_prog; now rewrite H).
    now rewrite Hr.
Qed.

End DeleterTheorems.

(** ** Invariants of runs

    [emits P E Q m]: in every run of [m], every event satisfies [P], an
    exception that leaves [m] satisfies [E], and a value that [m] returns
    satisfies [Q]. *)

Section Invariants.
Context {aws : Boto3} {host : Host}.

Variables (P : event -> Prop) (E : exn -> Prop).

Lemma emits_ret {A : Type} (Q : A -> Prop) (a : A) : Q a -> emits P E Q (ret a).
Proof. intros H c. simpl. auto. Qed.

Lemma emits_raise {A : Type} (Q : A -> Prop) (e : exn) : E e -> emits P E Q (@raise _ A e).
Proof. intros H c. simpl. auto. Qed.

Lemma emits_bind {A B : Type} (Q : A -> Prop) (R : B -> Prop) (m : M A) (k : A -> M B) :
  emits P E Q m -> (forall a, Q a -> emits P E R (k a)) -> emits P E R (bind m k).
Proof.
  intros Hm Hk c. unfold bind. specialize (Hm c).
  destruct (m c) as [[[a|e] c1] t1]; destruct Hm as [Ht Hr].
  - specialize (Hk a Hr c1). destruct (k a c1) as [[r c2] t2].
    destruct Hk as [Ht2 Hr2]. split; [now apply Forall_app | exact Hr2].
  - auto.
Qed.

Lemma emits_weaken {A : Type} (Q Q' : A -> Prop) (m : M A) :
  emits P E Q m -> (forall a, Q a -> Q' a) -> emits P E Q' m.
Proof.
  intros Hm HQ c. specialize (Hm c). destruct (m c) as [[[a|e] c1] t1]; intuition.
Qed.

Lemma emits_emit (e : event) : P e -> emits P E anything (emit e).
Proof. intros H c. simpl. unfold anything. auto. Qed.

Lemma emits_secho (message : string) (fg : option color) :
  P (Secho message fg) -> emits P E anything (secho message fg).
Proof. apply emits_emit. Qed.

Lemma emits_confirm (text : string) :
  P (Confirm text (answer text)) -> emits P E anything (confirm text).
Proof. intros H c. simpl. unfold anything. auto. Qed.

Lemma emits_no_confirm_or_confirm (no_confirm : bool) (text : string) :
  (no_confirm = false -> P (Confirm text (answer text))) ->
  emits P E (fun ok => ok = no_confirm || answer text)
            (no_confirm_or_confirm no_confirm text).
Proof.
  intros H c. unfold no_confirm_or_confirm. destruct no_confirm; simpl; auto.
Qed.

Lemma emits_boto3_call {A : Type} (e : event) (op : cloud -> (sdk_error + A) * cloud) :
  P e -> (forall err, E (SdkError err)) -> emits P E anything (boto3_call e op).
Proof.
  intros He Herr c. unfold boto3_call.
  destruct (op c) as [[err|a] c1]; simpl; unfold anything; auto.
Qed.

Lemma emits_try_except {A : Type} (E' : exn -> Prop) (Q : A -> Prop)
    (body : M A) (caught : exn -> bool) (handler : exn -> M A) :
  emits P E' Q body ->
  (forall e, E' e -> caught e = true -> emits P E Q (handler e)) ->
  (forall e, E' e -> caught e = false -> E e) ->
  emits P E Q (try_except body caught handler).
Proof.
  intros Hb Hh Hp c. unfold try_except. specialize (Hb c).
  destruct (body c) as [[[a|e] c1] t1]; destruct Hb as [Ht Hr]; [auto|].
  destruct (caught e) eqn:Hc.
  - specialize (Hh e Hr Hc c1). destruct (handler e c1) as [[r c2] t2].
    destruct Hh as [Ht2 Hr2]. split; [now apply Forall_app | exact Hr2].
  - auto.
Qed.

Lemma emits_for_each {A : Type} (xs : list A) (body : A -> M unit) :
  (forall x, In x xs -> emits P E anything (body x)) ->
  emits P E anything (for_each xs body).
Proof.
  induction xs as [|x xs IH]; intros H; cbn [for_each].
  - apply emits_ret. exact I.
  - eapply emits_bind; [apply H; now left|].
    intros _ _. apply IH. intros y Hy. apply H. now right.
Qed.

End Invariants.

(** ** Shapes of traces

    [runs F Q m]: in every run of [m], the exception raised (if any) and the
    trace satisfy [F], and a returned value satisfies [Q].  When [F] is
    closed under sequencing, [runs F] goes through [bind]. *)

Lemma split_app {A : Type} (t1 t2 pre post : list A) (x : A) :
  t1 ++ t2 = pre ++ x :: post ->
  (exists post1, t1 = pre ++ x :: post1 /\ post = post1 ++ t2)
  \/ (exists pre2, pre = t1 ++ pre2 /\ t2 = pre2 ++ x :: post).
Proof.
  revert pre. induction t1 as [|y t1 IH]; intros pre H; simpl in H.
  - right. exists pre. auto.
  - destruct pre as [|z pre]; simpl in H.
    + injection H as -> H. left. exists t1. subst. auto.
    + injection H as -> H. destruct (IH pre H) as [[post1 [-> ->]] | [pre2 [-> ->]]].
      * left. exists post1. auto.
      * right. exists pre2. auto.
Qed.

Lemma Forall_not_in {A : Type} (P : A -> Prop) (t pre post : list A) (x : A) :
  Forall P t -> t = pre ++ x :: post -> P x.
Proof.
  intros H ->. rewrite Forall_forall in H. apply H, in_elt.
Qed.

Section Shapes.
Context {aws : Boto3} {host : Host}.

Lemma runs_bind {A B : Type} (F : option exn -> list event -> Prop)
    (Q : A -> Prop) (R : B -> Prop) (m : M A) (k : A -> M B) :
  seq_closed F ->
  runs F Q m -> (forall a, Q a -> runs F R (k a)) -> runs F R (bind m k).
Proof.
  intros HF Hm Hk c. unfold bind. specialize (Hm c).
  destruct (m c) as [[[a|e] c1] t1]; destruct Hm as [Ht Hr].
  - specialize (Hk a Hr c1). destruct (k a c1) as [[r c2] t2].
    destruct Hk as [Ht2 Hr2]. split; [now apply HF | exact Hr2].
  - simpl in *. auto.
Qed.

Lemma emits_runs {A : Type} (P : event -> Prop) (E : exn -> Prop)
    (F : option exn -> list event -> Prop) (Q : A -> Prop) (m : M A) :
  (forall o t, Forall P t -> (forall e, o = Some e -> E e) -> F o t) ->
  emits P E Q m -> runs F Q m.
Proof.
  intros HF Hm c. specialize (Hm c). destruct (m c) as [[[a|e] c1] t1];
    destruct Hm as [Ht Hr]; (split; [apply HF; [exact Ht|] | auto]); simpl.
  - discriminate.
  - now intros e' [= <-].
Qed.

Lemma runs_weaken {A : Type} (F : option exn -> list event -> Prop)
    (Q Q' : A -> Prop) (m : M A) :
  runs F Q m -> (forall a, Q a -> Q' a) -> runs F Q' m.
Proof.
  intros Hm HQ c. specialize (Hm c). destruct (m c) as [[[a|e] c1] t1]; intuition.
Qed.

Lemma starts_bind {A B : Type} (S : event -> Prop) (m : M A) (k : A -> M B) :
  starts S m -> starts S (bind m k).
Proof.
  intros H c. unfold bind. destruct (H c) as [ev [rest [Ht Hs]]].
  destruct (m c) as [[[a|e] c1] t1]; simpl in Ht; subst.
  - destruct (k a c1) as [[r c2] t2]. exists ev, (rest ++ t2). auto.
  - exists ev, rest. auto.
Qed.

Lemma starts_bind_ret {A B : Type} (S : event -> Prop) (a : A) (k : A -> M B) :
  starts S (k a) -> starts S (bind (ret a) k).
Proof.
  intros H c. unfold bind, ret. destruct (H c) as [ev [rest [Ht Hs]]].
  destruct (k a c) as [[r c2] t2]. simpl in *. eauto.
Qed.

Lemma starts_emit (S : event -> Prop) (e : event) : S e -> starts S (emit e).
Proof. intros H c. exists e, []. auto. Qed.

Lemma starts_boto3_call {A : Type} (S : event -> Prop) (e : event)
    (op : cloud -> (sdk_error + A) * cloud) :
  S e -> starts S (boto3_call e op).
Proof.
  intros H c. unfold boto3_call. destruct (op c) as [[err|a] c1]; exists e, []; auto.
Qed.

Lemma starts_try_except {A : Type} (S : event -> Prop) (body : M A)
    (caught : exn -> bool) (handler : exn -> M A) :
  starts S body -> starts S (try_except body caught handler).
Proof.
  intros H c. unfold try_except. destruct (H c) as [ev [rest [Ht Hs]]].
  destruct (body c) as [[[a|e] c1] t1]; simpl in Ht; subst;
    [exists ev, rest; auto|].
  destruct (caught e); [|exists ev, rest; auto].
  destruct (handler e c1) as [[r c2] t2]. exists ev, (rest ++ t2). auto.
Qed.

End Shapes.

(** ** What the emptying, deleting and updating functions can emit

    [acts call e]: [e] is a provider command or an image listing accepted by
    [call], or a message that is not an announcement ([The following ...]).
    Prompts and inventory listings are not among them. *)

Ltac emits_side := try solve [exact I | reflexivity | simpl; auto | intros; exact I].

Ltac emits_go :=
  cbv beta;
  lazymatch goal with
  | |- emits _ _ _ (bind _ _) =>
      eapply emits_bind; [emits_go | intros ? ?; emits_go]
  | |- emits _ _ _ (try_except _ _ _) =>
      eapply emits_try_except with (E' := sdk_or_click);
      [emits_go | intros ? ? ?; emits_go | intros ? ? ?; try discriminate; auto]
  | |- emits _ _ _ (for_each _ _) => apply emits_for_each; intros ? ?; emits_go
  | |- emits _ _ _ (ret _) => apply emits_ret; emits_side
  | |- emits _ _ _ (secho _ _) => apply emits_secho; emits_side
  | |- emits _ _ _ (boto3_call _ _) => apply emits_boto3_call; emits_side
  | |- emits _ _ _ (raise_for_click _) => apply emits_raise; emits_side
  | |- emits _ _ _ (raise _) => apply emits_raise; emits_side
  | |- _ => idtac
  end.

Section Alphabets.
Context {aws : Boto3} {host : Host}.

Lemma emits_empty_s3_buckets (bucket_names : list string) (region : string) :
  emits (acts s3_empty_call) sdk_or_click anything (empty_s3_buckets bucket_names region).
Proof. unfold empty_s3_buckets. emits_go. Qed.

Lemma emits_empty_ecr_repositories (repository_names : list string) (region : string) :
  emits (acts ecr_empty_call) sdk_or_click anything
        (empty_ecr_repositories repository_names region).
Proof.
  unfold empty_ecr_repositories. emits_go.
  destruct (map imageDigest _); emits_go.
Qed.

Lemma emits_update_lambda_vpc_config (lambda_functions : list string) (region : string) :
  emits (acts lambda_call) sdk_or_click anything
        (update_lambda_vpc_config lambda_functions region).
Proof. unfold update_lambda_vpc_config. emits_go. Qed.

Lemma emits_remove_ddb_deletion_protection (table_names : list string) (region : string) :
  emits (acts ddb_call) sdk_or_click anything
        (remove_ddb_deletion_protection table_names region).
Proof. unfold remove_ddb_deletion_protection. emits_go. Qed.

Lemma emits_delete_cloudformation_stack (stack_name region : string) :
  emits (acts cfn_delete_call) sdk_or_click anything
        (delete_cloudformation_stack stack_name region).
Proof.
  unfold delete_cloudformation_stack.
  eapply emits_try_except with (E' := sdk_or_click); [emits_go | |auto].
  intros [[code message text|text]| | |] He Hc; try discriminate.
  destruct (String.eqb code "ValidationError" && str_in "does not exist" message); emits_go.
Qed.

Lemma emits_delete_s3_bucket (bucket_name region : string) :
  emits (acts s3_delete_call) sdk_or_click anything (delete_s3_bucket bucket_name region).
Proof. unfold delete_s3_bucket. emits_go. Qed.

Lemma emits_delete_ecr_repository (repo_name region : string) :
  emits (acts ecr_delete_call) sdk_or_click anything (delete_ecr_repository repo_name region).
Proof. unfold delete_ecr_repository. emits_go. Qed.

Lemma emits_delete_ssm_param (param_name region : string) :
  emits (acts ssm_delete_call) sdk_or_click anything (delete_ssm_param param_name region).
Proof. unfold delete_ssm_param. emits_go. Qed.

Lemma emits_delete_log_group (log_group_name region : string) :
  emits (acts logs_delete_call) sdk_or_click anything (delete_log_group log_group_name region).
Proof. unfold delete_log_group. emits_go. Qed.

Lemma emits_delete_cloudformation_stacks (stacks : list string) (region : string) :
  emits (acts cfn_delete_call) sdk_or_click anything
        (delete_resources [("cloudformation_stacks", stacks)] region).
Proof.
  unfold delete_resources. cbn. emits_go. apply emits_delete_cloudformation_stack.
Qed.

(** Weakening of both invariants. *)
Lemma emits_mono {A : Type} (P P' : event -> Prop) (E E' : exn -> Prop) (Q : A -> Prop)
    (m : M A) :
  emits P E Q m -> (forall e, P e -> P' e) -> (forall e, E e -> E' e) -> emits P' E' Q m.
Proof.
  intros Hm HP HE c. specialize (Hm c). destruct (m c) as [[[a|e] c1] t1];
    destruct Hm as [Ht Hr]; (split; [eapply Forall_impl; eauto | auto]).
Qed.

End Alphabets.

(** ** Gathering with no substring *)

Lemma filter_none {A : Type} (f : A -> bool) (l : list A) :
  (forall x, f x = false) -> filter f l = [].
Proof.
  intros H. induction l as [|x l IH]; simpl; [reflexivity|]. now rewrite H.
Qed.

Lemma select_names_nil {A : Type} (get_name : A -> string) (pages : list (list A)) :
  select_names get_name [] pages = [].
Proof. rewrite select_names_filter, filter_none; reflexivity. Qed.

Lemma select_stacks_nil (pages : list (list StackSummary)) :
  sorted_stack_names (select_stacks [] pages) = [].
Proof.
  rewrite select_stacks_filter, filter_none; [reflexivity|].
  intros stack. unfold keeps_stack. apply andb_false_r.
Qed.

Lemma select_ssm_params_nil (pages : list (list ParameterMetadata)) :
  select_ssm_params [] pages = [].
Proof. rewrite select_ssm_params_filter, filter_none; reflexivity. Qed.

Lemma select_vpc_lambdas_nil (pages : list (list FunctionConfiguration)) :
  select_vpc_lambdas [] pages = [].
Proof. rewrite select_vpc_lambdas_filter, filter_none; reflexivity. Qed.

Section Listings.
Context {aws : Boto3} {host : Host}.

Lemma emits_listing {A B : Type} (P : event -> Prop) (E : exn -> Prop) (Q : B -> Prop)
    (e : event) (op : cloud -> (sdk_error + A) * cloud) (select : A -> B) :
  P e -> (forall err, E (SdkError err)) -> (forall a, Q (select a)) ->
  emits P E Q (bind (boto3_call e op) (fun a => ret (select a))).
Proof.
  intros He Herr Hq c. rewrite run_listing.
  destruct (op c) as [[err|a] c1]; auto.
Qed.

End Listings.

Section Inventories.
Context {aws : Boto3} {host : Host}.
Variables (P : event -> Prop) (E : exn -> Prop).
Hypothesis listed : forall region what, P (Listed region what).
Hypothesis sdk : forall err, E (SdkError err).

Lemma emits_gather_cloudformation_stacks substrings region :
  emits P E (nothing_from substrings) (gather_cloudformation_stacks substrings region).
Proof.
  apply emits_listing; auto. intros pages ->. apply select_stacks_nil.
Qed.

Lemma emits_gather_s3_buckets substrings region :
  emits P E (nothing_from substrings) (gather_s3_buckets substrings region).
Proof.
  apply emits_listing; auto. intros all ->. apply select_names_nil.
Qed.

Lemma emits_gather_ddb_tables substrings region :
  emits P E (nothing_from substrings) (gather_ddb_tables substrings region).
Proof.
  apply emits_listing; auto. intros pages ->. apply select_names_nil.
Qed.

Lemma emits_gather_ecr_repositories substrings region :
  emits P E (nothing_from substrings) (gather_ecr_repositories substrings region).
Proof.
  apply emits_listing; auto. intros pages ->. apply select_names_nil.
Qed.

Lemma emits_gather_log_groups substrings region :
  emits P E (nothing_from substrings) (gather_log_groups substrings region).
Proof.
  apply emits_listing; auto. intros pages ->. apply select_names_nil.
Qed.

Lemma emits_gather_ssm_params substrings region :
  emits P E (nothing_from substrings) (gather_ssm_params substrings region).
Proof.
  apply emits_listing; auto. intros pages ->. apply select_ssm_params_nil.
Qed.

Lemma emits_gather_vpc_lambdas substrings region :
  emits P E (nothing_from substrings) (gather_vpc_lambdas substrings region).
Proof.
  apply emits_listing; auto. intros pages ->. apply select_vpc_lambdas_nil.
Qed.

Lemma emits_gather_resources substrings region :
  emits P E (managed_inventory substrings) (gather_resources substrings region).
Proof.
  unfold gather_resources.
  eapply emits_bind; [apply emits_gather_cloudformation_stacks | intros cfn Hcfn].
  eapply emits_bind; [apply emits_gather_s3_buckets | intros s3 Hs3].
  eapply emits_bind; [apply emits_gather_ecr_repositories | intros ecr Hecr].
  eapply emits_bind; [apply emits_gather_vpc_lambdas | intros lam Hlam].
  eapply emits_bind; [apply emits_gather_ddb_tables | intros ddb Hddb].
  apply emits_ret. exists cfn, s3, ecr, lam, ddb. split; [reflexivity|].
  intros Hs. repeat split; auto.
Qed.

Lemma emits_gather_unmanaged_resources substrings region :
  emits P E (unmanaged_inventory substrings) (gather_unmanaged_resources substrings region).
Proof.
  unfold gather_unmanaged_resources.
  eapply emits_bind; [apply emits_gather_s3_buckets | intros s3 Hs3].
  eapply emits_bind; [apply emits_gather_ssm_params | intros ssm Hssm].
  eapply emits_bind; [apply emits_gather_log_groups | intros logs Hlogs].
  apply emits_ret. exists s3, ssm, logs. split; [reflexivity|].
  intros Hs. repeat split; auto.
Qed.

End Inventories.

(** ** The blocks of the orchestrator *)

Section Blocks.
Context {aws : Boto3} {host : Host}.
Variables (P : event -> Prop) (E : exn -> Prop).

Lemma emits_managed_step (no_confirm : bool) (resources : list string)
    (banner prompt : string) (action declined otherwise : M unit) :
  (resources <> [] -> P (Secho banner (Some yellow))) ->
  (resources <> [] -> P (Secho (join_lines resources) (Some red))) ->
  (resources <> [] -> no_confirm = false -> P (Confirm prompt (answer prompt))) ->
  (resources <> [] -> no_confirm = true \/ answer prompt = true ->
   emits P E anything action) ->
  (resources <> [] -> no_confirm = false -> answer prompt = false ->
   emits P E anything declined) ->
  (resources = [] -> emits P E anything otherwise) ->
  emits P E anything (managed_step no_confirm resources banner prompt action declined otherwise).
Proof.
  intros Hb Hn Hp Ha Hd Ho. destruct resources as [|x l]; cbn [managed_step]; [auto|].
  assert (Hne : x :: l <> []) by discriminate.
  eapply emits_bind; [apply emits_secho; auto | intros _ _].
  eapply emits_bind; [apply emits_secho; auto | intros _ _].
  eapply emits_bind; [apply emits_no_confirm_or_confirm; auto | intros ok Hok].
  cbv beta in Hok. symmetry in Hok. destruct ok.
  - apply orb_true_iff in Hok. auto.
  - apply orb_false_iff in Hok. destruct Hok. auto.
Qed.

Lemma emits_delete_unmanaged (no_confirm : bool) (d : resource_dict) (region : string) :
  (forall resource_type delete_function names,
     In (resource_type, delete_function) delete_methods ->
     dict_get d resource_type = Some names -> names <> [] ->
     P (Secho ("The following " ++ resource_type ++ " will be deleted:") (Some yellow))
     /\ P (Secho (join_lines names) (Some red))
     /\ (no_confirm = false ->
         P (Confirm (prompt_unmanaged resource_type) (answer (prompt_unmanaged resource_type))))
     /\ forall n, emits P E anything (delete_function n region)) ->
  emits P E anything (delete_unmanaged no_confirm d region).
Proof.
  intros H. unfold delete_unmanaged. apply emits_for_each.
  intros [resource_type delete_function] Hin.
  destruct (dict_get d resource_type) as [[|x l]|] eqn:Hget;
    try (apply emits_ret; exact I).
  destruct (H _ _ _ Hin Hget) as [Hb [Hn [Hp Hdel]]]; [discriminate|].
  eapply emits_bind; [apply emits_secho; auto | intros _ _].
  eapply emits_bind; [apply emits_secho; auto | intros _ _].
  eapply emits_bind; [apply emits_no_confirm_or_confirm; auto | intros ok _].
  destruct ok; [|apply emits_ret; exact I].
  apply emits_for_each. intros n _. apply Hdel.
Qed.

End Blocks.

Lemma cleanup_env_blocks {aws : Boto3} {host : Host}
    (ctx : Context) (no_confirm : bool) (env_list : list string) :
  cleanup_env ctx no_confirm env_list
  = (secho ("Cleaning up: " ++ str_of_list env_list ++ " in " ++ ACCOUNT_ID ctx
              ++ ":" ++ REGION ctx) (Some red) ;;
     proceed <- confirm prompt_proceed ;;
     if proceed : bool then
       resources <- gather_resources env_list (REGION ctx) ;;
       from_s3 no_confirm env_list (REGION ctx) resources
     else ret tt).
Proof. reflexivity. Qed.

Ltac getitems := cbn [getitem dict_get find fst snd String.eqb Ascii.eqb Bool.eqb andb].

(** An invariant [P], [E] of the events and exceptions of every block
    carries over to the orchestrator.  The hypotheses name what each block
    may emit; nothing is asked of [P] for a block that has nothing to work
    on, which is the case of every block when there is no substring. *)

Section TailInvariants.
Context {aws : Boto3} {host : Host}.
Variables (P : event -> Prop) (E : exn -> Prop).
Variables (no_confirm : bool) (substrings : list string) (region : string).

Hypothesis Hsecho : forall message fg, P (Secho message fg).
Hypothesis Hlisted : forall r what, P (Listed r what).
Hypothesis Hsdk : forall err, E (SdkError err).
Hypothesis Hclick : substrings <> [] -> forall message, E (ClickException message).
Hypothesis Habort :
  substrings <> [] -> no_confirm = false -> answer prompt_cfn = false -> E Abort.

Hypothesis ask_s3 : may_ask P no_confirm substrings prompt_s3.
Hypothesis ask_ecr : may_ask P no_confirm substrings prompt_ecr.
Hypothesis ask_lambda : may_ask P no_confirm substrings prompt_lambda.
Hypothesis ask_ddb : may_ask P no_confirm substrings prompt_ddb.
Hypothesis ask_cfn : may_ask P no_confirm substrings prompt_cfn.
Hypothesis ask_unmanaged_s3 : may_ask P no_confirm substrings (prompt_unmanaged "s3_buckets").
Hypothesis ask_unmanaged_ssm : may_ask P no_confirm substrings (prompt_unmanaged "ssm_params").
Hypothesis ask_unmanaged_logs : may_ask P no_confirm substrings (prompt_unmanaged "log_groups").

Hypothesis call_s3_empty : may_call P substrings s3_empty_call.
Hypothesis call_ecr_empty : may_call P substrings ecr_empty_call.
Hypothesis call_lambda : may_call P substrings lambda_call.
Hypothesis call_ddb : may_call P substrings ddb_call.
Hypothesis call_cfn_delete : may_call P substrings cfn_delete_call.
Hypothesis call_s3_delete : may_call P substrings s3_delete_call.
Hypothesis call_ssm_delete : may_call P substrings ssm_delete_call.
Hypothesis call_logs_delete : may_call P substrings logs_delete_call.

(** What an action may emit is within [P] once its calls are. *)
Lemma acts_within (call : event -> Prop) (m : M unit) :
  substrings <> [] -> may_call P substrings call ->
  emits (acts call) sdk_or_click anything m -> emits P E anything m.
Proof.
  intros Hne Hcall Hm. eapply emits_mono; [exact Hm | |].
  - intros [message fg|text reply|r what|r repo|r cmd] H; simpl in H;
      [apply Hsecho | destruct H | destruct H | now apply Hcall | now apply Hcall].
  - intros [err|message| |key] H; simpl in H;
      [apply Hsdk | now apply Hclick | destruct H | destruct H].
Qed.

Lemma nonempty_substrings (names : list string) :
  nothing_from substrings names -> names <> [] -> substrings <> [].
Proof. intros H Hne Hs. apply Hne, H, Hs. Qed.

Lemma emits_second_pass : emits P E anything (second_pass no_confirm substrings region).
Proof.
  unfold second_pass.
  eapply emits_bind; [apply emits_gather_unmanaged_resources; auto |].
  intros d (s3 & ssm & logs & -> & Hnil).
  eapply emits_bind; [| intros _ _; apply emits_secho; auto].
  apply emits_delete_unmanaged.
  intros resource_type delete_function names Hin Hget Hne.
  assert (Hs : substrings <> []).
  { intros Hs. destruct (Hnil Hs) as (-> & -> & ->).
    simpl in Hin.
    repeat (destruct Hin as [[= <- <-] | Hin]; [vm_compute in Hget; congruence|]).
    exact Hin. }
  split; [auto|]. split; [auto|].
  simpl in Hin.
  destruct Hin as [[= <- <-] | [[= <- <-] | [[= <- <-] | [[= <- <-] | [[= <- <-] | []]]]]];
    vm_compute in Hget; try discriminate; (split; [intros Hnc; first
      [ now apply ask_unmanaged_s3 | now apply ask_unmanaged_ssm
      | now apply ask_unmanaged_logs ] |]); intros n.
  - eapply acts_within; [exact Hs | exact call_s3_delete | apply emits_delete_s3_bucket].
  - eapply acts_within; [exact Hs | exact call_ssm_delete | apply emits_delete_ssm_param].
  - eapply acts_within; [exact Hs | exact call_logs_delete | apply emits_delete_log_group].
Qed.

Lemma emits_cfn_block (stacks : list string) :
  nothing_from substrings stacks ->
  emits P E anything (cfn_block no_confirm region stacks).
Proof.
  intros Hnil. unfold cfn_block. apply emits_managed_step.
  - intros; apply Hsecho.
  - intros; apply Hsecho.
  - intros Hne Hnc. apply ask_cfn; [eapply nonempty_substrings; eauto | exact Hnc].
  - intros Hne _. eapply acts_within;
      [eapply nonempty_substrings; eauto | exact call_cfn_delete
      | apply emits_delete_cloudformation_stacks].
  - intros Hne Hnc Hans. apply emits_raise.
    apply Habort; auto; eapply nonempty_substrings; eauto.
  - intros _. apply emits_secho; auto.
Qed.

Lemma emits_ddb_block (tables : list string) :
  nothing_from substrings tables ->
  emits P E anything (ddb_block no_confirm region tables).
Proof.
  intros Hnil. unfold ddb_block. apply emits_managed_step.
  - intros; apply Hsecho.
  - intros; apply Hsecho.
  - intros Hne Hnc. apply ask_ddb; [eapply nonempty_substrings; eauto | exact Hnc].
  - intros Hne _. eapply acts_within;
      [eapply nonempty_substrings; eauto | exact call_ddb
      | apply emits_remove_ddb_deletion_protection].
  - intros. apply emits_ret. exact I.
  - intros. apply emits_ret. exact I.
Qed.

Lemma emits_lambda_block (lambdas : list string) :
  nothing_from substrings lambdas ->
  emits P E anything (lambda_block no_confirm region lambdas).
Proof.
  intros Hnil. unfold lambda_block. apply emits_managed_step.
  - intros; apply Hsecho.
  - intros; apply Hsecho.
  - intros Hne Hnc. apply ask_lambda; [eapply nonempty_substrings; eauto | exact Hnc].
  - intros Hne _. eapply acts_within;
      [eapply nonempty_substrings; eauto | exact call_lambda
      | apply emits_update_lambda_vpc_config].
  - intros. apply emits_ret. exact I.
  - intros _. apply emits_secho; auto.
Qed.

Lemma emits_ecr_block (repositories : list string) :
  nothing_from substrings repositories ->
  emits P E anything (ecr_block no_confirm region repositories).
Proof.
  intros Hnil. unfold ecr_block. apply emits_managed_step.
  - intros; apply Hsecho.
  - intros; apply Hsecho.
  - intros Hne Hnc. apply ask_ecr; [eapply nonempty_substrings; eauto | exact Hnc].
  - intros Hne _. eapply acts_within;
      [eapply nonempty_substrings; eauto | exact call_ecr_empty
      | apply emits_empty_ecr_repositories].
  - intros. apply emits_ret. exact I.
  - intros _. apply emits_secho; auto.
Qed.

Lemma emits_s3_block (buckets : list string) :
  nothing_from substrings buckets ->
  emits P E anything (s3_block no_confirm region buckets).
Proof.
  intros Hnil. unfold s3_block. apply emits_managed_step.
  - intros; apply Hsecho.
  - intros; apply Hsecho.
  - intros Hne Hnc. apply ask_s3; [eapply nonempty_substrings; eauto | exact Hnc].
  - intros Hne _. eapply acts_within;
      [eapply nonempty_substrings; eauto | exact call_s3_empty
      | apply emits_empty_s3_buckets].
  - intros. apply emits_ret. exact I.
  - intros _. apply emits_secho; auto.
Qed.

Lemma emits_from_cfn (d : resource_dict) :
  managed_inventory substrings d ->
  emits P E anything (from_cfn no_confirm substrings region d).
Proof.
  intros (cfn & s3 & ecr & lam & ddb & -> & Hnil). unfold from_cfn. getitems.
  eapply emits_bind; [apply (emits_ret _ _ (eq cfn)); reflexivity | intros ? <-].
  eapply emits_bind; [| intros _ _; apply emits_second_pass].
  apply emits_cfn_block. intros Hs. now apply Hnil.
Qed.

Lemma emits_from_ddb (d : resource_dict) :
  managed_inventory substrings d ->
  emits P E anything (from_ddb no_confirm substrings region d).
Proof.
  intros Hd. pose proof (emits_from_cfn d Hd) as Hrest.
  destruct Hd as (cfn & s3 & ecr & lam & ddb & -> & Hnil). unfold from_ddb. getitems.
  eapply emits_bind; [apply (emits_ret _ _ (eq ddb)); reflexivity | intros ? <-].
  eapply emits_bind; [| intros _ _; exact Hrest].
  apply emits_ddb_block. intros Hs. now apply Hnil.
Qed.

Lemma emits_from_lambda (d : resource_dict) :
  managed_inventory substrings d ->
  emits P E anything (from_lambda no_confirm substrings region d).
Proof.
  intros Hd. pose proof (emits_from_ddb d Hd) as Hrest.
  destruct Hd as (cfn & s3 & ecr & lam & ddb & -> & Hnil). unfold from_lambda. getitems.
  eapply emits_bind; [apply (emits_ret _ _ (eq lam)); reflexivity | intros ? <-].
  eapply emits_bind; [| intros _ _; exact Hrest].
  apply emits_lambda_block. intros Hs. now apply Hnil.
Qed.

Lemma emits_from_ecr (d : resource_dict) :
  managed_inventory substrings d ->
  emits P E anything (from_ecr no_confirm substrings region d).
Proof.
  intros Hd. pose proof (emits_from_lambda d Hd) as Hrest.
  destruct Hd as (cfn & s3 & ecr & lam & ddb & -> & Hnil). unfold from_ecr. getitems.
  eapply emits_bind; [apply (emits_ret _ _ (eq ecr)); reflexivity | intros ? <-].
  eapply emits_bind; [| intros _ _; exact Hrest].
  apply emits_ecr_block. intros Hs. now apply Hnil.
Qed.

Lemma emits_from_s3 (d : resource_dict) :
  managed_inventory substrings d ->
  emits P E anything (from_s3 no_confirm substrings region d).
Proof.
  intros Hd. pose proof (emits_from_ecr d Hd) as Hrest.
  destruct Hd as (cfn & s3 & ecr & lam & ddb & -> & Hnil). unfold from_s3. getitems.
  eapply emits_bind; [apply (emits_ret _ _ (eq s3)); reflexivity | intros ? <-].
  eapply emits_bind; [| intros _ _; exact Hrest].
  apply emits_s3_block. intros Hs. now apply Hnil.
Qed.

Lemma emits_cleanup_env (ctx : Context) :
  region = REGION ctx ->
  P (Confirm prompt_proceed (answer prompt_proceed)) ->
  emits P E anything (cleanup_env ctx no_confirm substrings).
Proof.
  intros Hregion Hproceed. rewrite cleanup_env_blocks, <- Hregion.
  eapply emits_bind; [apply emits_secho; auto | intros _ _].
  eapply emits_bind; [apply emits_confirm; auto | intros proceed _].
  destruct proceed; [|apply emits_ret; exact I].
  eapply emits_bind; [apply emits_gather_resources; auto | apply emits_from_s3].
Qed.

End TailInvariants.

(** ** The second pass *)

Ltac vacuous := let H := fresh in intros H; exfalso; apply H; reflexivity.

Ltac by_cases_on_event :=
  let e := fresh "e" in
  intros _ e; destruct e as [? ?|? ?|? ?|? ?|? []]; simpl; tauto.

Section EmptyAndSecondPass.
Context {aws : Boto3} {host : Host}.

(** C10.  With the empty list of substrings every gatherer returns the empty
    list when its listing returns (and raises the listing's error otherwise),
    both inventories hold only empty lists, and a run of [cleanup_env] issues
    no provider command, no image listing and no prompt besides the opening
    one. *)
Theorem empty_substrings_gather_nothing
    (ctx : Context) (no_confirm : bool) (region : string) (c : cloud) :
  gather_cloudformation_stacks [] region c
    = match list_stacks region c with
      | (inr _, c1) => (Ok [], c1, [Listed region ListStacks])
      | (inl err, c1) => (Raise (SdkError err), c1, [Listed region ListStacks])
      end
  /\ gather_s3_buckets [] region c
    = match buckets_all region c with
      | (inr _, c1) => (Ok [], c1, [Listed region BucketsAll])
      | (inl err, c1) => (Raise (SdkError err), c1, [Listed region BucketsAll])
      end
  /\ gather_ecr_repositories [] region c
    = match describe_repositories region c with
      | (inr _, c1) => (Ok [], c1, [Listed region DescribeRepositories])
      | (inl err, c1) => (Raise (SdkError err), c1, [Listed region DescribeRepositories])
      end
  /\ gather_vpc_lambdas [] region c
    = match list_functions region c with
      | (inr _, c1) => (Ok [], c1, [Listed region ListFunctions])
      | (inl err, c1) => (Raise (SdkError err), c1, [Listed region ListFunctions])
      end
  /\ gather_ddb_tables [] region c
    = match list_tables region c with
      | (inr _, c1) => (Ok [], c1, [Listed region ListTables])
      | (inl err, c1) => (Raise (SdkError err), c1, [Listed region ListTables])
      end
  /\ gather_ssm_params [] region c
    = match describe_parameters region c with
      | (inr _, c1) => (Ok [], c1, [Listed region DescribeParameters])
      | (inl err, c1) => (Raise (SdkError err), c1, [Listed region DescribeParameters])
      end
  /\ gather_log_groups [] region c
    = match describe_log_groups region c with
      | (inr _, c1) => (Ok [], c1, [Listed region DescribeLogGroups])
      | (inl err, c1) => (Raise (SdkError err), c1, [Listed region DescribeLogGroups])
      end
  /\ match gather_resources [] region c with
     | (Ok d, _, _) => all_empty d
     | (Raise _, _, _) => True
     end
  /\ match gather_unmanaged_resources [] region c with
     | (Ok d, _, _) => all_empty d
     | (Raise _, _, _) => True
     end
  /\ match cleanup_env ctx no_confirm [] c with
     | (_, _, t) => Forall harmless t
     end.
Proof.
  repeat split.
  - unfold gather_cloudformation_stacks. rewrite run_listing.
    destruct (list_stacks region c) as [[err|pages] c1]; [reflexivity|].
    now rewrite select_stacks_nil.
  - unfold gather_s3_buckets. rewrite run_listing.
    destruct (buckets_all region c) as [[err|pages] c1]; [reflexivity|].
    now rewrite select_names_nil.
  - unfold gather_ecr_repositories. rewrite run_listing.
    destruct (describe_repositories region c) as [[err|pages] c1]; [reflexivity|].
    now rewrite select_names_nil.
  - unfold gather_vpc_lambdas. rewrite run_listing.
    destruct (list_functions region c) as [[err|pages] c1]; [reflexivity|].
    now rewrite select_vpc_lambdas_nil.
  - unfold gather_ddb_tables. rewrite run_listing.
    destruct (list_tables region c) as [[err|pages] c1]; [reflexivity|].
    now rewrite select_names_nil.
  - unfold gather_ssm_params. rewrite run_listing.
    destruct (describe_parameters region c) as [[err|pages] c1]; [reflexivity|].
    now rewrite select_ssm_params_nil.
  - unfold gather_log_groups. rewrite run_listing.
    destruct (describe_log_groups region c) as [[err|pages] c1]; [reflexivity|].
    now rewrite select_names_nil.
  - pose proof (emits_gather_resources harmless anything
                  (fun _ _ => I) (fun _ => I) [] region c) as H.
    destruct (gather_resources [] region c) as [[[d|e] c1] t]; [|exact I].
    destruct H as [_ (cfn & s3 & ecr & lam & ddb & -> & Hnil)].
    destruct (Hnil eq_refl) as (-> & -> & -> & -> & ->).
    repeat constructor.
  - pose proof (emits_gather_unmanaged_resources harmless anything
                  (fun _ _ => I) (fun _ => I) [] region c) as H.
    destruct (gather_unmanaged_resources [] region c) as [[[d|e] c1] t]; [|exact I].
    destruct H as [_ (s3 & ssm & logs & -> & Hnil)].
    destruct (Hnil eq_refl) as (-> & -> & ->).
    repeat constructor.
  - assert (H : emits harmless anything anything (cleanup_env ctx no_confirm [])).
    { apply (emits_cleanup_env harmless anything no_confirm [] (REGION ctx));
        try vacuous; try reflexivity; intros; exact I. }
    specialize (H c). destruct (cleanup_env ctx no_confirm [] c) as [[r c1] t].
    apply H.
Qed.

(** C9.  [gather_unmanaged_resources], when its three listings return,
    returns a dict with exactly the keys [s3_buckets], [ssm_params] and
    [log_groups]; on such a dict the loop over [delete_methods] issues no
    CloudFormation or ECR deleter call and no prompt for these two types, and
    neither does the second pass as a whole; over a whole run of
    [cleanup_env] the ECR deleter is never called and no second-pass prompt
    for these two types is issued. *)
Theorem second_pass_skips_cloudformation_and_ecr
    (ctx : Context) (no_confirm : bool) (substrings : list string) (region : string)
    (s3 ssm logs : list string) (c : cloud) :
  match buckets_all region c with
  | (inr all, c1) =>
      match describe_parameters region c1 with
      | (inr parameters, c2) =>
          match describe_log_groups region c2 with
          | (inr groups, c3) =>
              gather_unmanaged_resources substrings region c
              = (Ok [ ("s3_buckets", select_names name substrings [all]);
                      ("ssm_params", select_ssm_params substrings parameters);
                      ("log_groups", select_names logGroupName substrings groups) ],
                 c3,
                 [ Listed region BucketsAll; Listed region DescribeParameters;
                   Listed region DescribeLogGroups ])
          | _ => True
          end
      | _ => True
      end
  | _ => True
  end
  /\ match gather_unmanaged_resources substrings region c with
     | (Ok d, _, _) => map fst d = ["s3_buckets"; "ssm_params"; "log_groups"]
     | (Raise _, _, _) => True
     end
  /\ dict_get [("s3_buckets", s3); ("ssm_params", ssm); ("log_groups", logs)]
       "cloudformation_stacks" = None
  /\ dict_get [("s3_buckets", s3); ("ssm_params", ssm); ("log_groups", logs)]
       "ecr_repositories" = None
  /\ match delete_unmanaged no_confirm
             [("s3_buckets", s3); ("ssm_params", ssm); ("log_groups", logs)] region c with
     | (_, _, t) => Forall not_cfn_ecr_deletion t
     end
  /\ match second_pass no_confirm substrings region c with
     | (_, _, t) => Forall not_cfn_ecr_deletion t
     end
  /\ match cleanup_env ctx no_confirm substrings c with
     | (_, _, t) => Forall not_unmanaged_cfn_ecr t
     end.
Proof.
  assert (Hs3 : forall n r, emits not_cfn_ecr_deletion anything anything (delete_s3_bucket n r)).
  { intros n r. eapply emits_mono; [apply emits_delete_s3_bucket | | intros; exact I].
    intros [? ?|? ?|? ?|? ?|? []]; simpl; tauto. }
  assert (Hssm : forall n r, emits not_cfn_ecr_deletion anything anything (delete_ssm_param n r)).
  { intros n r. eapply emits_mono; [apply emits_delete_ssm_param | | intros; exact I].
    intros [? ?|? ?|? ?|? ?|? []]; simpl; tauto. }
  assert (Hlogs : forall n r, emits not_cfn_ecr_deletion anything anything (delete_log_group n r)).
  { intros n r. eapply emits_mono; [apply emits_delete_log_group | | intros; exact I].
    intros [? ?|? ?|? ?|? ?|? []]; simpl; tauto. }
  assert (Hloop : forall d, dict_get d "cloudformation_stacks" = None ->
            dict_get d "ecr_repositories" = None ->
            emits not_cfn_ecr_deletion anything anything (delete_unmanaged no_confirm d region)).
  { intros d Hcfn Hecr. apply emits_delete_unmanaged.
    intros resource_type delete_function names Hin Hget Hne. simpl in Hin.
    destruct Hin as [[= <- <-] | [[= <- <-] | [[= <- <-] | [[= <- <-] | [[= <- <-] | []]]]]];
      try congruence; (split; [exact I|]); (split; [exact I|]);
      (split; [intros _; split; intros H; vm_compute in H; discriminate H | auto]). }
  repeat split.
  - unfold gather_unmanaged_resources, gather_s3_buckets, gather_ssm_params,
      gather_log_groups. unfold bind at 1. rewrite run_listing.
    destruct (buckets_all region c) as [[err|all] c1]; [exact I|].
    unfold bind at 1. rewrite run_listing.
    destruct (describe_parameters region c1) as [[err|parameters] c2]; [exact I|].
    unfold bind at 1. rewrite run_listing.
    destruct (describe_log_groups region c2) as [[err|groups] c3]; [exact I|].
    reflexivity.
  - pose proof (emits_gather_unmanaged_resources anything anything
                  (fun _ _ => I) (fun _ => I) substrings region c) as H.
    destruct (gather_unmanaged_resources substrings region c) as [[[d|e] c1] t]; [|exact I].
    destruct H as [_ (s3' & ssm' & logs' & -> & _)]. reflexivity.
  - specialize (Hloop [("s3_buckets", s3); ("ssm_params", ssm); ("log_groups", logs)]
                  eq_refl eq_refl c).
    destruct (delete_unmanaged _ _ _ c) as [[r c1] t]. apply Hloop.
  - assert (H : emits not_cfn_ecr_deletion anything anything
                  (second_pass no_confirm substrings region)).
    { unfold second_pass.
      eapply emits_bind;
        [apply (emits_gather_unmanaged_resources _ anything (fun _ _ => I) (fun _ => I))|].
      intros d (s3' & ssm' & logs' & -> & _).
      eapply emits_bind; [apply Hloop; reflexivity | intros _ _].
      apply emits_secho. exact I. }
    specialize (H c). destruct (second_pass _ _ _ c) as [[r c1] t]. apply H.
  - assert (H : emits not_unmanaged_cfn_ecr anything anything
                  (cleanup_env ctx no_confirm substrings)).
    { apply (emits_cleanup_env not_unmanaged_cfn_ecr anything no_confirm substrings
               (REGION ctx));
        try reflexivity; try by_cases_on_event;
        try (intros; exact I);
        try (intros _ _; split; intros H; vm_compute in H; discriminate H).
      split; intros H; vm_compute in H; discriminate H. }
    specialize (H c). destruct (cleanup_env ctx no_confirm substrings c) as [[r c1] t].
    apply H.
Qed.

End EmptyAndSecondPass.

(** ** What follows a prompt or an announcement in a trace *)

Lemma followed_by_closed (e : event) (next : list event) :
  seq_closed (fun _ t => followed_by e next t).
Proof.
  intros t1 o t2 H1 H2 pre post H.
  destruct (split_app _ _ _ _ _ H) as [[post1 [-> ->]] | [pre2 [-> ->]]].
  - destruct (H1 _ _ eq_refl) as [ev [rest [-> Hin]]]. exists ev, (rest ++ t2). auto.
  - exact (H2 _ _ eq_refl).
Qed.

Lemma followed_by_free (e : event) (next : list event) (t : list event) :
  Forall (fun x => x <> e) t -> followed_by e next t.
Proof.
  intros H pre post Ht. exfalso. exact (Forall_not_in _ _ _ _ _ H Ht eq_refl).
Qed.

Lemma announcements_closed : seq_closed (fun _ t => announcements_acted_on t).
Proof.
  intros t1 o t2 H1 H2 pre post message H Hm.
  destruct (split_app _ _ _ _ _ H) as [[post1 [-> ->]] | [pre2 [-> ->]]].
  - destruct (H1 _ _ _ eq_refl Hm) as [names [call [rest [-> Hc]]]].
    exists names, call, (rest ++ t2). auto.
  - exact (H2 _ _ _ eq_refl Hm).
Qed.

Lemma announcements_free (t : list event) :
  Forall not_announcement t -> announcements_acted_on t.
Proof.
  intros H pre post message Ht Hm. exfalso.
  pose proof (Forall_not_in _ _ _ _ _ H Ht) as Hn. simpl in Hn.
  apply prefix_StartsWith in Hm. congruence.
Qed.

Lemma abort_iff_closed : seq_closed abort_iff_cfn_declined.
Proof.
  intros t1 o t2 [H1 H1'] [H2 H2']. split.
  - intros pre post H.
    destruct (split_app _ _ _ _ _ H) as [[post1 [-> ->]] | [pre2 [-> ->]]].
    + destruct (H1 _ _ eq_refl) as [_ Habs]. discriminate.
    + exact (H2 _ _ eq_refl).
  - intros Ho. destruct (H2' Ho) as [pre ->]. exists (t1 ++ pre). now rewrite app_assoc.
Qed.

Lemma abort_iff_quiet (o : option exn) (t : list event) :
  Forall (fun x => x <> Confirm prompt_cfn false) t -> o <> Some Abort ->
  abort_iff_cfn_declined o t.
Proof.
  intros H Ho. split.
  - intros pre post Ht. exfalso. exact (Forall_not_in _ _ _ _ _ H Ht eq_refl).
  - intros Habs. contradiction.
Qed.

Section Spine.
Context {aws : Boto3} {host : Host}.

Lemma runs_ret {A : Type} (F : option exn -> list event -> Prop) (Q : A -> Prop) (a : A) :
  F None [] -> Q a -> runs F Q (ret a).
Proof. intros HF HQ c. simpl. auto. Qed.

(** One block of the first pass followed by the rest of the orchestrator. *)
Lemma runs_then (F : option exn -> list event -> Prop) (l : list string)
    (block : list string -> M unit) (rest : M unit) :
  seq_closed F -> F None [] ->
  runs F anything (block l) -> runs F anything rest ->
  runs F anything (x <- ret l ;; block x ;; rest).
Proof.
  intros Hc H0 Hb Hr.
  eapply runs_bind; [exact Hc | apply (runs_ret F (eq l)); auto | intros ? <-].
  eapply runs_bind; [exact Hc | exact Hb | intros _ _; exact Hr].
Qed.

Lemma runs_for_each {A : Type} (F : option exn -> list event -> Prop)
    (xs : list A) (body : A -> M unit) :
  seq_closed F -> F None [] ->
  (forall x, In x xs -> runs F anything (body x)) ->
  runs F anything (for_each xs body).
Proof.
  intros Hc H0. induction xs as [|x xs IH]; intros H; cbn [for_each].
  - apply runs_ret; [exact H0 | exact I].
  - eapply runs_bind; [exact Hc | apply H; now left |].
    intros _ _. apply IH. intros y Hy. apply H. now right.
Qed.

(** A block whose trace either lacks [e] or ends with it, having returned
    normally, followed by a continuation that lacks [e] and starts with one of
    [next]. *)
Lemma followed_by_bind {A B : Type} (e : event) (next : list event) (m : M A) (k : A -> M B) :
  (forall c, match m c with
             | (r, _, t) =>
                 Forall (fun x => x <> e) t
                 \/ exists t' a, t = t' ++ [e] /\ Forall (fun x => x <> e) t' /\ r = Ok a
             end) ->
  (forall a, emits (fun x => x <> e) anything anything (k a)) ->
  (forall a, starts (fun ev => In ev next) (k a)) ->
  runs (fun _ t => followed_by e next t) anything (bind m k).
Proof.
  intros Hm Hk Hs c. unfold bind. specialize (Hm c).
  destruct (m c) as [[[a|ex] c1] t1].
  - specialize (Hk a c1). destruct (Hs a c1) as [ev [rest [Hev Hin]]].
    destruct (k a c1) as [[r c2] t2]. simpl in Hev. subst t2.
    destruct Hk as [Hfree _]. split; [|destruct r; exact I].
    destruct Hm as [H1 | [t' [a' [-> [H1 _]]]]].
    + apply followed_by_free. now apply Forall_app.
    + intros pre post H. rewrite <- app_assoc in H. simpl in H.
      destruct (split_app _ _ _ _ _ H) as [[post1 [Habs _]] | [pre2 [-> H2]]].
      * exfalso. exact (Forall_not_in _ _ _ _ _ H1 Habs eq_refl).
      * destruct pre2 as [|x pre2]; simpl in H2.
        -- injection H2 as <-. exists ev, rest. auto.
        -- injection H2 as <- H2. exfalso.
           exact (Forall_not_in _ _ _ _ _ Hfree H2 eq_refl).
  - split; [|exact I]. destruct Hm as [H1 | [t' [a' [_ [_ Habs]]]]]; [|discriminate].
    now apply followed_by_free.
Qed.

(** A block of the first pass that does nothing when the operator declines:
    its trace lacks the declined prompt, or ends with it. *)
Lemma block_declined (no_confirm : bool) (resources : list string)
    (banner prompt : string) (action otherwise : M unit) :
  emits (fun x => x <> Confirm prompt false) anything anything action ->
  emits (fun x => x <> Confirm prompt false) anything anything otherwise ->
  forall c,
    match managed_step no_confirm resources banner prompt action (ret tt) otherwise c with
    | (r, _, t) =>
        Forall (fun x => x <> Confirm prompt false) t
        \/ exists t' a, t = t' ++ [Confirm prompt false]
                        /\ Forall (fun x => x <> Confirm prompt false) t' /\ r = Ok a
    end.
Proof.
  intros Ha Ho c.
  destruct (no_confirm || answer prompt) eqn:Hok.
  - assert (H : emits (fun x => x <> Confirm prompt false) anything anything
                  (managed_step no_confirm resources banner prompt action (ret tt) otherwise)).
    { apply emits_managed_step; try (intros; discriminate); auto.
      - intros _ Hnc. rewrite Hnc in Hok. simpl in Hok. rewrite Hok. discriminate.
      - intros _ Hnc Hans. rewrite Hnc, Hans in Hok. discriminate. }
    specialize (H c). destruct (managed_step _ _ _ _ _ _ _ c) as [[r c1] t].
    left. apply H.
  - apply orb_false_iff in Hok. destruct Hok as [-> Hans].
    destruct resources as [|x l]; cbn [managed_step].
    + specialize (Ho c). destruct (otherwise c) as [[r c1] t]. left. apply Ho.
    + unfold bind, secho, emit, no_confirm_or_confirm, confirm, ret. rewrite Hans.
      right. exists [Secho banner (Some yellow); Secho (join_lines (x :: l)) (Some red)], tt.
      split; [reflexivity|]. split; [|reflexivity].
      repeat constructor; discriminate.
Qed.

End Spine.

(** ** What a declined prompt of the first pass is followed by *)

Ltac free_side :=
  unfold may_ask, may_call; intros;
  first
    [ exact I
    | discriminate
    | match goal with
      | H : _ ?e |- ?e <> _ =>
          let Heq := fresh in
          intros Heq; rewrite Heq in H; simpl in H; contradiction
      end
    | let Heq := fresh in
      intros Heq; injection Heq; intros;
      match goal with
      | H : _ = _ :> string |- _ => vm_compute in H; discriminate H
      end ].

Section Declines.
Context {aws : Boto3} {host : Host}.
Variables (no_confirm : bool) (substrings : list string) (region : string).

Lemma starts_managed_step (S : event -> Prop) (resources : list string)
    (banner prompt : string) (action declined otherwise : M unit) :
  S (Secho banner (Some yellow)) -> starts S otherwise ->
  starts S (managed_step no_confirm resources banner prompt action declined otherwise).
Proof.
  intros Hb Ho. destruct resources as [|x l]; cbn [managed_step]; [exact Ho|].
  apply starts_bind, starts_emit, Hb.
Qed.

Lemma starts_from_cfn (S : event -> Prop) (d : resource_dict) :
  managed_inventory substrings d ->
  S (Secho "The following CloudFormation stacks will be deleted:" (Some yellow)) ->
  S (Secho "No CloudFormation stacks" (Some yellow)) ->
  starts S (from_cfn no_confirm substrings region d).
Proof.
  intros (cfn & s3 & ecr & lam & ddb & -> & _) H1 H2. unfold from_cfn. getitems.
  apply starts_bind_ret, starts_bind, starts_managed_step; [exact H1|].
  apply starts_emit, H2.
Qed.

Lemma starts_from_ddb (S : event -> Prop) (d : resource_dict) :
  managed_inventory substrings d ->
  S (Secho "The following DynamoDB tables will have their deletion protection removed:"
           (Some yellow)) ->
  S (Secho "The following CloudFormation stacks will be deleted:" (Some yellow)) ->
  S (Secho "No CloudFormation stacks" (Some yellow)) ->
  starts S (from_ddb no_confirm substrings region d).
Proof.
  intros Hd H0 H1 H2. pose proof (starts_from_cfn S d Hd H1 H2) as Hrest.
  destruct Hd as (cfn & s3 & ecr & lam & ddb & -> & _). unfold from_ddb. getitems.
  apply starts_bind_ret. destruct ddb as [|x l].
  - unfold ddb_block. cbn [managed_step]. apply starts_bind_ret, Hrest.
  - apply starts_bind. unfold ddb_block. cbn [managed_step].
    apply starts_bind, starts_emit, H0.
Qed.

Lemma starts_from_lambda (S : event -> Prop) (d : resource_dict) :
  managed_inventory substrings d ->
  S (Secho "The following Lambda functions will have their VPC configuration removed:"
           (Some yellow)) ->
  S (Secho "No Lambda functions in VPC" (Some yellow)) ->
  starts S (from_lambda no_confirm substrings region d).
Proof.
  intros (cfn & s3 & ecr & lam & ddb & -> & _) H1 H2. unfold from_lambda. getitems.
  apply starts_bind_ret, starts_bind, starts_managed_step; [exact H1|].
  apply starts_emit, H2.
Qed.

Lemma starts_from_ecr (S : event -> Prop) (d : resource_dict) :
  managed_inventory substrings d ->
  S (Secho "The following ECR repositories will be emptied:" (Some yellow)) ->
  S (Secho "No ECR repositories" (Some yellow)) ->
  starts S (from_ecr no_confirm substrings region d).
Proof.
  intros (cfn & s3 & ecr & lam & ddb & -> & _) H1 H2. unfold from_ecr. getitems.
  apply starts_bind_ret, starts_bind, starts_managed_step; [exact H1|].
  apply starts_emit, H2.
Qed.

(** The trace of every action lacks every prompt. *)
Lemma action_free (call : event -> Prop) (text : string) (reply : bool) (m : M unit) :
  emits (acts call) sdk_or_click anything m ->
  emits (fun x => x <> Confirm text reply) anything anything m.
Proof.
  intros H. eapply emits_mono; [exact H | | intros; exact I].
  intros [? ?|? ?|? ?|? ?|? ?]; simpl; intros; try contradiction; discriminate.
Qed.

Lemma free_secho (text : string) (reply : bool) (message : string) (fg : option color) :
  emits (fun x => x <> Confirm text reply) anything anything (secho message fg).
Proof. apply emits_secho. discriminate. Qed.

Lemma free_ret (text : string) (reply : bool) :
  emits (fun x => x <> Confirm text reply) anything anything (ret tt).
Proof. apply emits_ret. exact I. Qed.

Lemma from_ddb_declines (d : resource_dict) :
  managed_inventory substrings d ->
  runs (fun _ t => followed_by (Confirm prompt_ddb false) after_ddb_declined t) anything
       (from_ddb no_confirm substrings region d).
Proof.
  intros Hd.
  pose proof (emits_from_cfn (fun x => x <> Confirm prompt_ddb false) anything
                no_confirm substrings region) as Hfree.
  pose proof (starts_from_cfn (fun ev => In ev after_ddb_declined) d Hd) as Hstart.
  destruct Hd as (cfn & s3 & ecr & lam & ddb & -> & Hnil). unfold from_ddb. getitems.
  eapply runs_bind;
    [apply followed_by_closed
    |apply (runs_ret _ (eq ddb)); [apply followed_by_free; constructor | reflexivity]
    |intros ? <-].
  apply followed_by_bind.
  - apply block_declined; [|apply free_ret].
    eapply action_free, emits_remove_ddb_deletion_protection.
  - intros _. apply Hfree; try solve [free_side].
    exists cfn, s3, ecr, lam, ddb. auto.
  - intros _. apply Hstart; simpl; auto.
Qed.

Lemma from_lambda_declines (d : resource_dict) :
  managed_inventory substrings d ->
  runs (fun _ t => followed_by (Confirm prompt_lambda false) after_lambda_declined t) anything
       (from_lambda no_confirm substrings region d).
Proof.
  intros Hd.
  pose proof (emits_from_ddb (fun x => x <> Confirm prompt_lambda false) anything
                no_confirm substrings region) as Hfree.
  pose proof (starts_from_ddb (fun ev => In ev after_lambda_declined) d Hd) as Hstart.
  destruct Hd as (cfn & s3 & ecr & lam & ddb & -> & Hnil). unfold from_lambda. getitems.
  eapply runs_bind;
    [apply followed_by_closed
    |apply (runs_ret _ (eq lam)); [apply followed_by_free; constructor | reflexivity]
    |intros ? <-].
  apply followed_by_bind.
  - apply block_declined; [|apply free_secho].
    eapply action_free, emits_update_lambda_vpc_config.
  - intros _. apply Hfree; try solve [free_side].
    exists cfn, s3, ecr, lam, ddb. auto.
  - intros _. apply Hstart; simpl; auto.
Qed.

Lemma from_ecr_declines (d : resource_dict) :
  managed_inventory substrings d ->
  runs (fun _ t => followed_by (Confirm prompt_ecr false) after_ecr_declined t) anything
       (from_ecr no_confirm substrings region d).
Proof.
  intros Hd.
  pose proof (emits_from_lambda (fun x => x <> Confirm prompt_ecr false) anything
                no_confirm substrings region) as Hfree.
  pose proof (starts_from_lambda (fun ev => In ev after_ecr_declined) d Hd) as Hstart.
  destruct Hd as (cfn & s3 & ecr & lam & ddb & -> & Hnil). unfold from_ecr. getitems.
  eapply runs_bind;
    [apply followed_by_closed
    |apply (runs_ret _ (eq ecr)); [apply followed_by_free; constructor | reflexivity]
    |intros ? <-].
  apply followed_by_bind.
  - apply block_declined; [|apply free_secho].
    eapply action_free, emits_empty_ecr_repositories.
  - intros _. apply Hfree; try solve [free_side].
    exists cfn, s3, ecr, lam, ddb. auto.
  - intros _. apply Hstart; simpl; auto.
Qed.

Lemma from_s3_declines (d : resource_dict) :
  managed_inventory substrings d ->
  runs (fun _ t => followed_by (Confirm prompt_s3 false) after_s3_declined t) anything
       (from_s3 no_confirm substrings region d).
Proof.
  intros Hd.
  pose proof (emits_from_ecr (fun x => x <> Confirm prompt_s3 false) anything
                no_confirm substrings region) as Hfree.
  pose proof (starts_from_ecr (fun ev => In ev after_s3_declined) d Hd) as Hstart.
  destruct Hd as (cfn & s3 & ecr & lam & ddb & -> & Hnil). unfold from_s3. getitems.
  eapply runs_bind;
    [apply followed_by_closed
    |apply (runs_ret _ (eq s3)); [apply followed_by_free; constructor | reflexivity]
    |intros ? <-].
  apply followed_by_bind.
  - apply block_declined; [|apply free_secho].
    eapply action_free, emits_empty_s3_buckets.
  - intros _. apply Hfree; try solve [free_side].
    exists cfn, s3, ecr, lam, ddb. auto.
  - intros _. apply Hstart; simpl; auto.
Qed.

End Declines.

(** A prompt that a block does not ask passes through it. *)
Section Lifting.
Context {aws : Boto3} {host : Host}.
Variables (no_confirm : bool) (substrings : list string) (region : string).
Variables (text : string) (reply : bool) (next : list event).

Local Abbreviation F :=
  (fun (_ : option exn) (t : list event) => followed_by (Confirm text reply) next t).

Lemma F_free {A : Type} (Q : A -> Prop) (m : M A) :
  emits (fun x => x <> Confirm text reply) anything Q m -> runs F Q m.
Proof.
  apply emits_runs. intros o t H _. now apply followed_by_free.
Qed.

Lemma other_prompt (prompt : string) :
  text <> prompt -> Confirm prompt (answer prompt) <> Confirm text reply.
Proof. intros H [= E _]. now apply H. Qed.

Lemma lift_block (l : list string) (banner prompt : string)
    (call : event -> Prop) (action otherwise rest : M unit) :
  text <> prompt ->
  emits (acts call) sdk_or_click anything action ->
  emits (fun x => x <> Confirm text reply) anything anything otherwise ->
  runs F anything rest ->
  runs F anything
    (x <- ret l ;;
     managed_step no_confirm x banner prompt action (ret tt) otherwise ;;
     rest).
Proof.
  intros Hne Ha Ho Hrest.
  apply (runs_then F l
           (fun x => managed_step no_confirm x banner prompt action (ret tt) otherwise));
    [apply followed_by_closed | apply followed_by_free; constructor | | exact Hrest].
  apply F_free. apply emits_managed_step; try (intros; discriminate).
  - intros _ _. now apply other_prompt.
  - intros _ _. eapply action_free, Ha.
  - intros. apply free_ret.
  - intros _. exact Ho.
Qed.

Lemma lift_cleanup_env (ctx : Context) :
  region = REGION ctx ->
  text <> prompt_proceed ->
  (forall d, managed_inventory substrings d ->
             runs F anything (from_s3 no_confirm substrings region d)) ->
  runs F anything (cleanup_env ctx no_confirm substrings).
Proof.
  intros Hregion Hne Hrest. rewrite cleanup_env_blocks, <- Hregion.
  eapply runs_bind; [apply followed_by_closed | apply F_free, free_secho | intros _ _].
  eapply runs_bind;
    [apply followed_by_closed
    |apply F_free, emits_confirm; now apply other_prompt
    |intros proceed _].
  destruct proceed; [|apply runs_ret; [apply followed_by_free; constructor | exact I]].
  eapply runs_bind; [apply followed_by_closed | | exact Hrest].
  apply F_free, emits_gather_resources; [discriminate | intros; exact I].
Qed.

End Lifting.

Section DeclinesWholeRun.
Context {aws : Boto3} {host : Host}.
Variables (ctx : Context) (no_confirm : bool) (substrings : list string).

Lemma cleanup_env_s3_declined :
  runs (fun _ t => followed_by (Confirm prompt_s3 false) after_s3_declined t) anything
       (cleanup_env ctx no_confirm substrings).
Proof.
  apply (lift_cleanup_env no_confirm substrings (REGION ctx));
    [reflexivity | discriminate |].
  apply from_s3_declines.
Qed.

Lemma cleanup_env_ecr_declined :
  runs (fun _ t => followed_by (Confirm prompt_ecr false) after_ecr_declined t) anything
       (cleanup_env ctx no_confirm substrings).
Proof.
  apply (lift_cleanup_env no_confirm substrings (REGION ctx));
    [reflexivity | discriminate |].
  intros d Hd. pose proof (from_ecr_declines no_confirm substrings (REGION ctx) d Hd) as H.
  destruct Hd as (cfn & s3 & ecr & lam & ddb & -> & Hnil). unfold from_s3. getitems.
  eapply lift_block;
    [discriminate | apply emits_empty_s3_buckets | apply free_secho | exact H].
Qed.

Lemma cleanup_env_lambda_declined :
  runs (fun _ t => followed_by (Confirm prompt_lambda false) after_lambda_declined t) anything
       (cleanup_env ctx no_confirm substrings).
Proof.
  apply (lift_cleanup_env no_confirm substrings (REGION ctx));
    [reflexivity | discriminate |].
  intros d Hd. pose proof (from_lambda_declines no_confirm substrings (REGION ctx) d Hd) as H.
  destruct Hd as (cfn & s3 & ecr & lam & ddb & -> & Hnil). unfold from_s3. getitems.
  eapply lift_block;
    [discriminate | apply emits_empty_s3_buckets | apply free_secho |].
  unfold from_ecr. getitems.
  eapply lift_block;
    [discriminate | apply emits_empty_ecr_repositories | apply free_secho | exact H].
Qed.

Lemma cleanup_env_ddb_declined :
  runs (fun _ t => followed_by (Confirm prompt_ddb false) after_ddb_declined t) anything
       (cleanup_env ctx no_confirm substrings).
Proof.
  apply (lift_cleanup_env no_confirm substrings (REGION ctx));
    [reflexivity | discriminate |].
  intros d Hd. pose proof (from_ddb_declines no_confirm substrings (REGION ctx) d Hd) as H.
  destruct Hd as (cfn & s3 & ecr & lam & ddb & -> & Hnil). unfold from_s3. getitems.
  eapply lift_block;
    [discriminate | apply emits_empty_s3_buckets | apply free_secho |].
  unfold from_ecr. getitems.
  eapply lift_block;
    [discriminate | apply emits_empty_ecr_repositories | apply free_secho |].
  unfold from_lambda. getitems.
  eapply lift_block;
    [discriminate | apply emits_update_lambda_vpc_config | apply free_secho | exact H].
Qed.

End DeclinesWholeRun.

(** ** Abort, and the run without prompts *)

Ltac starts_go :=
  repeat first
    [ apply starts_bind | apply starts_try_except | apply starts_boto3_call
    | apply starts_emit ];
  try exact I.

Lemma delete_unmanaged_blocks {aws : Boto3} {host : Host}
    (no_confirm : bool) (d : resource_dict) (region : string) :
  delete_unmanaged no_confirm d region
  = for_each delete_methods (fun item =>
      managed_step no_confirm
        (match dict_get d (fst item) with Some names => names | None => [] end)
        ("The following " ++ fst item ++ " will be deleted:")
        (prompt_unmanaged (fst item))
        (for_each (match dict_get d (fst item) with Some names => names | None => [] end)
                  (fun resource_name => snd item resource_name region))
        (ret tt) (ret tt)).
Proof. reflexivity. Qed.

Section AbortAndNoConfirm.
Context {aws : Boto3} {host : Host}.

Lemma quiet_runs {A : Type} (Q : A -> Prop) (m : M A) :
  emits (fun x => x <> Confirm prompt_cfn false) (fun e => e <> Abort) Q m ->
  runs abort_iff_cfn_declined Q m.
Proof.
  apply emits_runs. intros o t Ht Ho. apply abort_iff_quiet; [exact Ht|].
  intros ->. now apply (Ho Abort).
Qed.

Lemma cfn_block_aborts (no_confirm : bool) (region : string) (stacks : list string) :
  runs abort_iff_cfn_declined anything (cfn_block no_confirm region stacks).
Proof.
  destruct (no_confirm || answer prompt_cfn) eqn:Hok.
  - apply quiet_runs. unfold cfn_block. apply emits_managed_step; try (intros; discriminate).
    + intros _ Hnc. rewrite Hnc in Hok. simpl in Hok. rewrite Hok. discriminate.
    + intros _ _. eapply emits_mono; [apply emits_delete_cloudformation_stacks | |].
      * intros [? ?|? ?|? ?|? ?|? ?]; simpl; intros; try contradiction; discriminate.
      * intros [?|?| |?]; simpl; intros; try contradiction; discriminate.
    + intros _ Hnc Hans. rewrite Hnc, Hans in Hok. discriminate.
    + intros _. apply emits_secho. discriminate.
  - apply orb_false_iff in Hok. destruct Hok as [-> Hans].
    destruct stacks as [|x l]; unfold cfn_block; cbn [managed_step].
    + apply quiet_runs, emits_secho. discriminate.
    + intros c. unfold bind, secho, emit, no_confirm_or_confirm, confirm, raise.
      rewrite Hans. simpl. split; [|exact I]. split.
      * intros [|e1 [|e2 [|e3 pre]]] post H; simpl in H; try discriminate.
        -- injection H as _ _ <-. auto.
        -- destruct pre; discriminate.
      * intros _. eexists [_; _]. reflexivity.
Qed.

Lemma acts_quiet (call : event -> Prop) (m : M unit) :
  emits (acts call) sdk_or_click anything m ->
  emits (fun x => x <> Confirm prompt_cfn false) (fun e => e <> Abort) anything m.
Proof.
  intros H. eapply emits_mono; [exact H | |].
  - intros [? ?|? ?|? ?|? ?|? ?]; simpl; intros; try contradiction; discriminate.
  - intros [?|?| |?]; simpl; intros; try contradiction; discriminate.
Qed.

Lemma quiet_block (no_confirm : bool) (l : list string) (banner prompt : string)
    (call : event -> Prop) (action otherwise : M unit) :
  prompt <> prompt_cfn ->
  emits (acts call) sdk_or_click anything action ->
  emits (fun x => x <> Confirm prompt_cfn false) (fun e => e <> Abort) anything otherwise ->
  runs abort_iff_cfn_declined anything
       (managed_step no_confirm l banner prompt action (ret tt) otherwise).
Proof.
  intros Hne Ha Ho. apply quiet_runs, emits_managed_step; try (intros; discriminate).
  - intros _ _ [= H _]. now apply Hne.
  - intros _ _. now apply (acts_quiet call).
  - intros. apply emits_ret. exact I.
  - intros _. exact Ho.
Qed.

Lemma second_pass_quiet (no_confirm : bool) (substrings : list string) (region : string) :
  runs abort_iff_cfn_declined anything (second_pass no_confirm substrings region).
Proof.
  apply quiet_runs, emits_second_pass; solve [free_side].
Qed.

(** (a), (b): the declined CloudFormation prompt ends the run with [Abort],
    and nothing else does. *)
Lemma cleanup_env_abort (ctx : Context) (no_confirm : bool) (substrings : list string) :
  runs abort_iff_cfn_declined anything (cleanup_env ctx no_confirm substrings).
Proof.
  assert (H0 : abort_iff_cfn_declined None []) by (apply abort_iff_quiet; [constructor | discriminate]).
  rewrite cleanup_env_blocks.
  eapply runs_bind; [apply abort_iff_closed | apply quiet_runs, emits_secho; discriminate |].
  intros _ _.
  eapply runs_bind; [apply abort_iff_closed | apply quiet_runs, emits_confirm; discriminate |].
  intros proceed _. destruct proceed; [|apply runs_ret; [exact H0 | exact I]].
  eapply runs_bind;
    [apply abort_iff_closed
    |apply quiet_runs, emits_gather_resources; intros; discriminate
    |].
  intros d (cfn & s3 & ecr & lam & ddb & -> & _).
  unfold from_s3. getitems.
  apply (runs_then _ s3 (s3_block no_confirm (REGION ctx)));
    [apply abort_iff_closed | exact H0 | |].
  { eapply quiet_block; [discriminate | apply emits_empty_s3_buckets |].
    apply emits_secho. discriminate. }
  unfold from_ecr. getitems.
  apply (runs_then _ ecr (ecr_block no_confirm (REGION ctx)));
    [apply abort_iff_closed | exact H0 | |].
  { eapply quiet_block; [discriminate | apply emits_empty_ecr_repositories |].
    apply emits_secho. discriminate. }
  unfold from_lambda. getitems.
  apply (runs_then _ lam (lambda_block no_confirm (REGION ctx)));
    [apply abort_iff_closed | exact H0 | |].
  { eapply quiet_block; [discriminate | apply emits_update_lambda_vpc_config |].
    apply emits_secho. discriminate. }
  unfold from_ddb. getitems.
  apply (runs_then _ ddb (ddb_block no_confirm (REGION ctx)));
    [apply abort_iff_closed | exact H0 | |].
  { eapply quiet_block; [discriminate | apply emits_remove_ddb_deletion_protection |].
    apply emits_ret. exact I. }
  unfold from_cfn. getitems.
  apply (runs_then _ cfn (cfn_block no_confirm (REGION ctx)));
    [apply abort_iff_closed | exact H0 | apply cfn_block_aborts | apply second_pass_quiet].
Qed.

End AbortAndNoConfirm.

Section NoConfirm.
Context {aws : Boto3} {host : Host}.

Local Abbreviation G := (fun (_ : option exn) (t : list event) => announcements_acted_on t).

Lemma G_free {A : Type} (Q : A -> Prop) (m : M A) :
  emits not_announcement anything Q m -> runs G Q m.
Proof.
  apply emits_runs. intros o t H _. now apply announcements_free.
Qed.

Lemma acts_not_announcement (call : event -> Prop) (e : event) :
  acts call e -> not_announcement e.
Proof.
  destruct e as [message [[| |]|]|? ?|? ?|? ?|? ?]; simpl; auto.
Qed.

(** Without prompts, a block that has names to work on announces them and
    goes straight to its first provider call. *)
Lemma announced_block (l : list string) (banner prompt : string)
    (call : event -> Prop) (action declined otherwise : M unit) :
  emits (acts call) sdk_or_click anything action ->
  (l <> [] -> starts provider_call action) ->
  emits not_announcement anything anything otherwise ->
  runs G anything (managed_step true l banner prompt action declined otherwise).
Proof.
  intros Ha Hs Ho. destruct l as [|x l]; cbn [managed_step]; [now apply G_free|].
  intros c. unfold bind, secho, emit, no_confirm_or_confirm, ret.
  specialize (Ha c). destruct (Hs ltac:(discriminate) c) as [ev [rest [Hev Hcall]]].
  destruct (action c) as [[r c1] t]. simpl in Hev. subst t.
  destruct Ha as [Ht _]. simpl. split; [|destruct r; exact I].
  intros [|e1 [|e2 pre]] post message H Hm; simpl in H.
  - injection H as _ <-. exists (join_lines (x :: l)), ev, rest. auto.
  - discriminate.
  - injection H as _ _ H. exfalso.
    pose proof (Forall_not_in _ _ _ _ _ Ht H) as Hn. simpl in Hn.
    apply prefix_StartsWith in Hm. congruence.
Qed.

Lemma announced_delete_unmanaged (substrings : list string) (d : resource_dict)
    (region : string) :
  unmanaged_inventory substrings d ->
  runs G anything (delete_unmanaged true d region).
Proof.
  intros (s3 & ssm & logs & -> & _). rewrite delete_unmanaged_blocks.
  assert (H0 : G None []) by (apply announcements_free; constructor).
  assert (Hret : emits not_announcement anything anything (ret tt))
    by (apply emits_ret; exact I).
  apply runs_for_each; [apply announcements_closed | exact H0 |].
  intros item Hin. simpl in Hin.
  destruct Hin as [<- | [<- | [<- | [<- | [<- | []]]]]]; getitems.
  - cbn [managed_step]. now apply G_free.
  - apply (announced_block _ _ _ s3_delete_call); [| |exact Hret].
    + apply emits_for_each. intros n _. apply emits_delete_s3_bucket.
    + destruct s3 as [|x l]; [congruence|]. intros _. cbn [for_each].
      unfold delete_s3_bucket. starts_go.
  - cbn [managed_step]. now apply G_free.
  - apply (announced_block _ _ _ ssm_delete_call); [| |exact Hret].
    + apply emits_for_each. intros n _. apply emits_delete_ssm_param.
    + destruct ssm as [|x l]; [congruence|]. intros _. cbn [for_each].
      unfold delete_ssm_param. starts_go.
  - apply (announced_block _ _ _ logs_delete_call); [| |exact Hret].
    + apply emits_for_each. intros n _. apply emits_delete_log_group.
    + destruct logs as [|x l]; [congruence|]. intros _. cbn [for_each].
      unfold delete_log_group. starts_go.
Qed.

(** (d), second half: with [no_confirm] every announcement is acted on. *)
Lemma cleanup_env_no_confirm_acts (ctx : Context) (substrings : list string) :
  runs G anything (cleanup_env ctx true substrings).
Proof.
  assert (H0 : G None []) by (apply announcements_free; constructor).
  assert (Hc := announcements_closed).
  rewrite cleanup_env_blocks.
  eapply runs_bind; [exact Hc | apply G_free, emits_secho; exact I | intros _ _].
  eapply runs_bind; [exact Hc | apply G_free, emits_confirm; exact I | intros proceed _].
  destruct proceed; [|apply runs_ret; [exact H0 | exact I]].
  eapply runs_bind;
    [exact Hc | apply G_free, emits_gather_resources; intros; exact I |].
  intros d (cfn & s3 & ecr & lam & ddb & -> & _).
  unfold from_s3. getitems.
  apply (runs_then _ s3 (s3_block true (REGION ctx))); [exact Hc | exact H0 | |].
  { apply (announced_block _ _ _ s3_empty_call);
      [apply emits_empty_s3_buckets | | apply emits_secho; reflexivity].
    destruct s3 as [|x l]; [congruence|]. intros _.
    unfold empty_s3_buckets. cbn [for_each]. starts_go. }
  unfold from_ecr. getitems.
  apply (runs_then _ ecr (ecr_block true (REGION ctx))); [exact Hc | exact H0 | |].
  { apply (announced_block _ _ _ ecr_empty_call);
      [apply emits_empty_ecr_repositories | | apply emits_secho; reflexivity].
    destruct ecr as [|x l]; [congruence|]. intros _.
    unfold empty_ecr_repositories. cbn [for_each]. starts_go. }
  unfold from_lambda. getitems.
  apply (runs_then _ lam (lambda_block true (REGION ctx))); [exact Hc | exact H0 | |].
  { apply (announced_block _ _ _ lambda_call);
      [apply emits_update_lambda_vpc_config | | apply emits_secho; reflexivity].
    destruct lam as [|x l]; [congruence|]. intros _.
    unfold update_lambda_vpc_config. cbn [for_each]. starts_go. }
  unfold from_ddb. getitems.
  apply (runs_then _ ddb (ddb_block true (REGION ctx))); [exact Hc | exact H0 | |].
  { apply (announced_block _ _ _ ddb_call);
      [apply emits_remove_ddb_deletion_protection | | apply emits_ret; exact I].
    destruct ddb as [|x l]; [congruence|]. intros _.
    unfold remove_ddb_deletion_protection. cbn [for_each]. starts_go. }
  unfold from_cfn. getitems.
  apply (runs_then _ cfn (cfn_block true (REGION ctx))); [exact Hc | exact H0 | |].
  { apply (announced_block _ _ _ cfn_delete_call);
      [apply emits_delete_cloudformation_stacks | | apply emits_secho; reflexivity].
    destruct cfn as [|x l]; [congruence|]. intros _.
    unfold delete_resources. cbn [for_each]. getitems. cbn [for_each].
    unfold delete_cloudformation_stack. starts_go. }
  unfold second_pass.
  eapply runs_bind;
    [exact Hc
    |apply G_free, (emits_gather_unmanaged_resources not_announcement anything);
       intros; exact I
    |].
  intros d Hd.
  eapply runs_bind; [exact Hc | apply (announced_delete_unmanaged substrings), Hd |].
  intros _ _. apply G_free, emits_secho. exact I.
Qed.

End NoConfirm.

(** ** Events that a run is bound to hold

    [shows G e m]: a run of [m] that ends as [G] says holds [e].  An event
    that a block shows is shown by the orchestrator when the blocks before it
    can only end in a way that [G] excludes. *)

Lemma emits_whatever {aws : Boto3} {A : Type} (m : M A) :
  emits (fun _ => True) (fun _ => True) anything m.
Proof.
  intros c. destruct (m c) as [[[a|e] c1] t];
    (split; [apply Forall_forall; auto | exact I]).
Qed.

Section Always.
Context {aws : Boto3} {host : Host}.

Lemma always_emit (e : event) : always e (emit e).
Proof. intros c. now left. Qed.

Lemma always_boto3_call {A : Type} (e : event) (op : cloud -> (sdk_error + A) * cloud) :
  always e (boto3_call e op).
Proof.
  intros c. unfold boto3_call. destruct (op c) as [[err|a] c1]; now left.
Qed.

Lemma always_confirm (text : string) : always (Confirm text (answer text)) (confirm text).
Proof. intros c. now left. Qed.

Lemma always_bind {A B : Type} (e : event) (m : M A) (k : A -> M B) :
  always e m -> always e (bind m k).
Proof.
  intros H c. specialize (H c). unfold bind.
  destruct (m c) as [[[a|ex] c1] t1]; [|exact H].
  destruct (k a c1) as [[r c2] t2]. cbn [snd] in *. apply in_or_app. now left.
Qed.

Lemma always_try_except {A : Type} (e : event) (body : M A) (caught : exn -> bool)
    (handler : exn -> M A) :
  always e body -> always e (try_except body caught handler).
Proof.
  intros H c. specialize (H c). unfold try_except.
  destruct (body c) as [[[a|ex] c1] t1]; [exact H|].
  destruct (caught ex); [|exact H].
  destruct (handler ex c1) as [[r c2] t2]. cbn [snd] in *. apply in_or_app. now left.
Qed.

(** The emptying loops let out nothing but the provider's errors, the
    updating loops nothing at all. *)
Lemma empty_s3_buckets_sdk_only (bucket_names : list string) (region : string) :
  emits (fun _ => True) (fun ex => exists err, ex = SdkError err) anything
        (empty_s3_buckets bucket_names region).
Proof. unfold empty_s3_buckets. emits_go; eauto. Qed.

Lemma empty_ecr_repositories_sdk_only (repository_names : list string) (region : string) :
  emits (fun _ => True) (fun ex => exists err, ex = SdkError err) anything
        (empty_ecr_repositories repository_names region).
Proof.
  unfold empty_ecr_repositories. emits_go; eauto.
  destruct (map imageDigest _); emits_go; eauto.
Qed.

Lemma update_lambda_vpc_config_never_raises (lambda_functions : list string)
    (region : string) :
  emits (fun _ => True) (fun _ => False) anything
        (update_lambda_vpc_config lambda_functions region).
Proof.
  unfold update_lambda_vpc_config. apply emits_for_each. intros n _.
  eapply emits_try_except with (E' := fun _ => True);
    [apply emits_whatever | intros; apply emits_secho; exact I
    | intros e _ H; discriminate H].
Qed.

Lemma remove_ddb_deletion_protection_never_raises (table_names : list string)
    (region : string) :
  emits (fun _ => True) (fun _ => False) anything
        (remove_ddb_deletion_protection table_names region).
Proof.
  unfold remove_ddb_deletion_protection. apply emits_for_each. intros n _.
  eapply emits_try_except with (E' := fun _ => True);
    [apply emits_whatever | intros; apply emits_secho; exact I
    | intros e _ H; discriminate H].
Qed.

(** The run when the operator agrees to proceed and the inventory returns. *)
Lemma cleanup_env_from_inventory (ctx : Context) (no_confirm : bool)
    (env_list : list string) (c c1 : cloud) (d : resource_dict) (tg : list event) :
  answer prompt_proceed = true ->
  gather_resources env_list (REGION ctx) c = (Ok d, c1, tg) ->
  cleanup_env ctx no_confirm env_list c
  = match from_s3 no_confirm env_list (REGION ctx) d c1 with
    | (r, c2, t) =>
        (r, c2,
         Secho ("Cleaning up: " ++ str_of_list env_list ++ " in " ++ ACCOUNT_ID ctx
                  ++ ":" ++ REGION ctx) (Some red)
         :: Confirm prompt_proceed true :: tg ++ t)
    end.
Proof.
  intros Hproceed Hgather. rewrite cleanup_env_blocks.
  unfold bind at 1 2, secho, emit, confirm. rewrite Hproceed.
  unfold bind at 1. rewrite Hgather.
  destruct (from_s3 no_confirm env_list (REGION ctx) d c1) as [[r c2] t]. reflexivity.
Qed.

End Always.

Section Reach.
Context {aws : Boto3} {host : Host}.
Variable G : option exn -> Prop.
Hypothesis G_returned : G None.
Hypothesis G_sdk : forall err, ~ G (Some (SdkError err)).

Local Abbreviation passes := (emits (fun _ => True) (fun ex => ~ G (Some ex)) anything).

Lemma always_shows {A : Type} (e : event) (m : M A) : always e m -> shows G e m.
Proof.
  intros H c. specialize (H c). destruct (m c) as [[r c1] t]. intros _. exact H.
Qed.

Lemma shows_bind_l {A B : Type} (e : event) (m : M A) (k : A -> M B) :
  shows G e m -> shows G e (bind m k).
Proof.
  intros H c. specialize (H c). unfold bind.
  destruct (m c) as [[[a|ex] c1] t1]; [|exact H].
  destruct (k a c1) as [[r c2] t2]. intros _. apply in_or_app. left.
  apply H. exact G_returned.
Qed.

Lemma shows_bind_r {A B : Type} (e : event) (Q : A -> Prop) (m : M A) (k : A -> M B) :
  emits (fun _ => True) (fun ex => ~ G (Some ex)) Q m ->
  (forall a, Q a -> shows G e (k a)) -> shows G e (bind m k).
Proof.
  intros Hm Hk c. specialize (Hm c). unfold bind.
  destruct (m c) as [[[a|ex] c1] t1]; destruct Hm as [_ Hr].
  - specialize (Hk a Hr c1). destruct (k a c1) as [[r c2] t2].
    intros Hg. apply in_or_app. right. now apply Hk.
  - intros Hg. destruct (Hr Hg).
Qed.

Lemma passes_sdk_only (m : M unit) :
  emits (fun _ => True) (fun ex => exists err, ex = SdkError err) anything m -> passes m.
Proof.
  intros H. eapply emits_mono; [exact H | auto |]. intros ex [err ->]. apply G_sdk.
Qed.

Lemma passes_never (m : M unit) :
  emits (fun _ => True) (fun _ => False) anything m -> passes m.
Proof.
  intros H. eapply emits_mono; [exact H | auto |]. intros ex [].
Qed.

Lemma passes_secho (message : string) (fg : option color) : passes (secho message fg).
Proof. apply emits_secho. exact I. Qed.

Lemma passes_ret : passes (ret tt).
Proof. apply emits_ret. exact I. Qed.

Lemma step_passes (no_confirm : bool) (l : list string) (banner prompt : string)
    (action declined otherwise : M unit) :
  passes action -> passes declined -> passes otherwise ->
  passes (managed_step no_confirm l banner prompt action declined otherwise).
Proof.
  intros Ha Hd Ho. apply emits_managed_step; intros; first [exact I | assumption].
Qed.

(** What a step shows once names were gathered for it. *)
Lemma step_shows (no_confirm : bool) (l : list string) (banner prompt : string)
    (action declined otherwise : M unit) :
  l <> [] ->
  shows G (Secho banner (Some yellow))
        (managed_step no_confirm l banner prompt action declined otherwise)
  /\ shows G (Secho (join_lines l) (Some red))
           (managed_step no_confirm l banner prompt action declined otherwise)
  /\ (no_confirm = false ->
      shows G (Confirm prompt (answer prompt))
            (managed_step no_confirm l banner prompt action declined otherwise))
  /\ (no_confirm = true \/ answer prompt = true ->
      forall e, shows G e action ->
        shows G e (managed_step no_confirm l banner prompt action declined otherwise)).
Proof.
  intros Hne. destruct l as [|x l]; [contradiction|]. cbn [managed_step].
  split; [|split; [|split]].
  - apply shows_bind_l, always_shows, always_emit.
  - eapply shows_bind_r; [apply passes_secho | intros _ _].
    apply shows_bind_l, always_shows, always_emit.
  - intros ->.
    eapply shows_bind_r; [apply passes_secho | intros _ _].
    eapply shows_bind_r; [apply passes_secho | intros _ _].
    apply shows_bind_l, always_shows. cbn [no_confirm_or_confirm]. apply always_confirm.
  - intros Hok e He.
    eapply shows_bind_r; [apply passes_secho | intros _ _].
    eapply shows_bind_r; [apply passes_secho | intros _ _].
    eapply shows_bind_r;
      [apply emits_no_confirm_or_confirm; intros; exact I | intros ok Hval].
    cbv beta in Hval. subst ok.
    destruct Hok as [-> | ->]; [|rewrite orb_true_r]; exact He.
Qed.

Lemma for_each_shows {A : Type} (xs : list A) (body : A -> M unit) (x : A) (e : event) :
  In x xs -> (forall y, passes (body y)) -> shows G e (body x) ->
  shows G e (for_each xs body).
Proof.
  intros Hin Hpass Hx. induction xs as [|y xs IH]; [destruct Hin|].
  cbn [for_each]. destruct Hin as [-> | Hin].
  - now apply shows_bind_l.
  - eapply shows_bind_r; [apply Hpass | intros _ _; now apply IH].
Qed.

(** From a block to the blocks that follow it. *)
Lemma via_step (l : list string) (block : list string -> M unit) (rest : M unit)
    (e : event) :
  passes (block l) ->
  shows G e (block l) \/ shows G e rest ->
  shows G e (x <- ret l ;; block x ;; rest).
Proof.
  intros Hpass H.
  eapply shows_bind_r; [apply (emits_ret _ _ (eq l)); reflexivity | intros ? <-].
  destruct H as [H|H].
  - now apply shows_bind_l.
  - eapply shows_bind_r; [exact Hpass | intros _ _; exact H].
Qed.

Lemma s3_block_passes (no_confirm : bool) (region : string) (l : list string) :
  passes (s3_block no_confirm region l).
Proof.
  apply step_passes;
    [apply passes_sdk_only, empty_s3_buckets_sdk_only | apply passes_ret | apply passes_secho].
Qed.

Lemma ecr_block_passes (no_confirm : bool) (region : string) (l : list string) :
  passes (ecr_block no_confirm region l).
Proof.
  apply step_passes;
    [apply passes_sdk_only, empty_ecr_repositories_sdk_only | apply passes_ret
    | apply passes_secho].
Qed.

Lemma lambda_block_passes (no_confirm : bool) (region : string) (l : list string) :
  passes (lambda_block no_confirm region l).
Proof.
  apply step_passes;
    [apply passes_never, update_lambda_vpc_config_never_raises | apply passes_ret
    | apply passes_secho].
Qed.

Lemma ddb_block_passes (no_confirm : bool) (region : string) (l : list string) :
  passes (ddb_block no_confirm region l).
Proof.
  apply step_passes;
    [apply passes_never, remove_ddb_deletion_protection_never_raises | apply passes_ret
    | apply passes_ret].
Qed.

(** What one of the five blocks shows, the first pass shows. *)
Lemma first_pass_shows (no_confirm : bool) (substrings : list string) (region : string)
    (cfn s3 ecr lam ddb : list string) (e : event) :
  shows G e (s3_block no_confirm region s3)
  \/ shows G e (ecr_block no_confirm region ecr)
  \/ shows G e (lambda_block no_confirm region lam)
  \/ shows G e (ddb_block no_confirm region ddb)
  \/ shows G e (cfn_block no_confirm region cfn) ->
  shows G e (from_s3 no_confirm substrings region
               [ ("cloudformation_stacks", cfn); ("s3_buckets", s3);
                 ("ecr_repositories", ecr); ("vpc_lambdas", lam); ("ddb_tables", ddb) ]).
Proof.
  intros H. unfold from_s3, from_ecr, from_lambda, from_ddb, from_cfn. getitems.
  apply (via_step s3 (s3_block no_confirm region)); [apply s3_block_passes|].
  destruct H as [H|H]; [now left | right].
  apply (via_step ecr (ecr_block no_confirm region)); [apply ecr_block_passes|].
  destruct H as [H|H]; [now left | right].
  apply (via_step lam (lambda_block no_confirm region)); [apply lambda_block_passes|].
  destruct H as [H|H]; [now left | right].
  apply (via_step ddb (ddb_block no_confirm region)); [apply ddb_block_passes|].
  destruct H as [H|H]; [now left | right].
  eapply shows_bind_r; [apply (emits_ret _ _ (eq cfn)); reflexivity | intros ? <-].
  now apply shows_bind_l.
Qed.

(** The same for the whole run, from the inventory it gathered. *)
Lemma cleanup_env_shows (ctx : Context) (no_confirm : bool) (env_list : list string)
    (c c1 : cloud) (d : resource_dict) (tg : list event) :
  answer prompt_proceed = true ->
  gather_resources env_list (REGION ctx) c = (Ok d, c1, tg) ->
  match cleanup_env ctx no_confirm env_list c with
  | (r, _, t) =>
      G (raised r) ->
      forall e,
        shows G e (s3_block no_confirm (REGION ctx) (names_of d "s3_buckets"))
        \/ shows G e (ecr_block no_confirm (REGION ctx) (names_of d "ecr_repositories"))
        \/ shows G e (lambda_block no_confirm (REGION ctx) (names_of d "vpc_lambdas"))
        \/ shows G e (ddb_block no_confirm (REGION ctx) (names_of d "ddb_tables"))
        \/ shows G e (cfn_block no_confirm (REGION ctx)
                        (names_of d "cloudformation_stacks")) ->
        In e t
  end.
Proof.
  intros Hproceed Hgather.
  rewrite (cleanup_env_from_inventory ctx no_confirm env_list c c1 d tg Hproceed Hgather).
  pose proof (emits_gather_resources (fun _ => True) anything (fun _ _ => I) (fun _ => I)
                env_list (REGION ctx) c) as Hd.
  rewrite Hgather in Hd. destruct Hd as [_ (cfn & s3 & ecr & lam & ddb & -> & _)].
  change (names_of _ "s3_buckets") with s3.
  change (names_of _ "ecr_repositories") with ecr.
  change (names_of _ "vpc_lambdas") with lam.
  change (names_of _ "ddb_tables") with ddb.
  change (names_of _ "cloudformation_stacks") with cfn.
  pose proof (fun e H => first_pass_shows no_confirm env_list (REGION ctx)
                           cfn s3 ecr lam ddb e H c1) as Hshows.
  destruct (from_s3 no_confirm env_list (REGION ctx) _ c1) as [[r c2] t].
  intros Hg e He. right. right. apply in_or_app. right. exact (Hshows e He Hg).
Qed.

(** The calls of the actions. *)
Lemma empty_s3_buckets_shows (l : list string) (region n : string) :
  In n l ->
  shows G (Called region (ObjectVersionsDelete n)) (empty_s3_buckets l region).
Proof.
  intros Hin. unfold empty_s3_buckets.
  apply (for_each_shows l _ n); [exact Hin | |].
  - intros y. apply passes_sdk_only.
    emits_go; eauto.
  - apply shows_bind_l, always_shows, always_boto3_call.
Qed.

Lemma empty_ecr_repositories_shows (l : list string) (region n : string) :
  In n l -> shows G (ListedImages region n) (empty_ecr_repositories l region).
Proof.
  intros Hin. unfold empty_ecr_repositories.
  apply (for_each_shows l _ n); [exact Hin | |].
  - intros y. apply passes_sdk_only. emits_go; eauto.
    destruct (map imageDigest _); emits_go; eauto.
  - apply shows_bind_l, always_shows, always_boto3_call.
Qed.

Lemma update_lambda_vpc_config_shows (l : list string) (region n : string) :
  In n l ->
  shows G (Called region (UpdateFunctionConfiguration n [] []))
        (update_lambda_vpc_config l region).
Proof.
  intros Hin. unfold update_lambda_vpc_config.
  apply (for_each_shows l _ n); [exact Hin | |].
  - intros y. apply passes_never.
    eapply emits_try_except with (E' := fun _ => True);
      [apply emits_whatever | intros; apply emits_secho; exact I
      | intros e _ H; discriminate H].
  - apply always_shows, always_try_except, always_bind, always_boto3_call.
Qed.

Lemma remove_ddb_deletion_protection_shows (l : list string) (region n : string) :
  In n l ->
  shows G (Called region (UpdateTable n false)) (remove_ddb_deletion_protection l region).
Proof.
  intros Hin. unfold remove_ddb_deletion_protection.
  apply (for_each_shows l _ n); [exact Hin | |].
  - intros y. apply passes_never.
    eapply emits_try_except with (E' := fun _ => True);
      [apply emits_whatever | intros; apply emits_secho; exact I
      | intros e _ H; discriminate H].
  - apply always_shows, always_try_except, always_bind, always_boto3_call.
Qed.

End Reach.

Section StackDeletions.
Context {aws : Boto3} {host : Host}.

Lemma always_delete_cloudformation_stack (n region : string) :
  always (Called region (DeleteStack n)) (delete_cloudformation_stack n region).
Proof.
  unfold delete_cloudformation_stack.
  apply always_try_except, always_bind, always_boto3_call.
Qed.

Lemma delete_first_stack (n : string) (rest : list string) (region : string) :
  always (Called region (DeleteStack n))
         (delete_resources [("cloudformation_stacks", n :: rest)] region).
Proof.
  unfold delete_resources. cbn.
  apply always_bind, always_bind, always_delete_cloudformation_stack.
Qed.

Lemma delete_every_stack (l : list string) (region n : string) :
  In n l ->
  shows (fun o => o = None) (Called region (DeleteStack n))
        (delete_resources [("cloudformation_stacks", l)] region).
Proof.
  intros Hin. unfold delete_resources. cbn.
  apply shows_bind_l; [reflexivity|].
  apply (for_each_shows (fun o => o = None) eq_refl l _ n); [exact Hin | |].
  - intros y. eapply emits_mono; [apply emits_whatever | auto |].
    intros ex _ H. discriminate H.
  - apply always_shows, always_delete_cloudformation_stack.
Qed.

End StackDeletions.

Section Prompts.
Context {aws : Boto3} {host : Host}.

Lemma cleanup_env_no_confirm_prompts (ctx : Context) (substrings : list string) :
  emits only_opening_prompt anything anything (cleanup_env ctx true substrings).
Proof.
  apply (emits_cleanup_env only_opening_prompt anything true substrings (REGION ctx));
    try reflexivity; try by_cases_on_event; try (intros; exact I);
    intros _ H; discriminate H.
Qed.

Lemma no_sdk_error_returned : no_sdk_error None.
Proof. intros err H. discriminate H. Qed.

Lemma no_sdk_error_sdk (err : sdk_error) : ~ no_sdk_error (Some (SdkError err)).
Proof. intros H. exact (H err eq_refl). Qed.

(** A step of the first pass, from what its block shows. *)
Lemma step_taken_from (t : list event) (no_confirm : bool) (l : list string)
    (banner prompt : string) (next : list event) (call : string -> event)
    (action otherwise : M unit) :
  (forall e,
     shows no_sdk_error e
           (managed_step no_confirm l banner prompt action (ret tt) otherwise) ->
     In e t) ->
  followed_by (Confirm prompt false) next t ->
  (forall n, In n l -> shows no_sdk_error (call n) action) ->
  step_taken no_confirm l banner prompt next call t.
Proof.
  intros Hin Hnext Hcall Hne.
  destruct (step_shows no_sdk_error no_sdk_error_returned no_confirm l banner prompt
              action (ret tt) otherwise Hne) as (H1 & H2 & H3 & H4).
  split; [apply Hin, H1|]. split; [apply Hin, H2|].
  split; [intros Hnc; apply Hin, H3, Hnc|]. split.
  - intros Hnc Hans.
    assert (Hasked : In (Confirm prompt false) t)
      by (rewrite <- Hans; apply Hin, H3, Hnc).
    apply in_split in Hasked. destruct Hasked as [pre [post ->]].
    destruct (Hnext pre post eq_refl) as [ev [rest [-> Hev]]].
    now exists pre, ev, rest.
  - intros Hok n Hn. apply Hin, H4; [exact Hok | now apply Hcall].
Qed.

(** The CloudFormation step, from what its block shows. *)
Lemma stacks_step_taken_from (t : list event) (r : outcome unit) (no_confirm : bool)
    (l : list string) (region : string) :
  (forall e, shows no_sdk_error e (cfn_block no_confirm region l) -> In e t) ->
  (raised r = None ->
   forall e, shows (fun o => o = None) e (cfn_block no_confirm region l) -> In e t) ->
  (forall pre post, t = pre ++ Confirm prompt_cfn false :: post ->
     post = [] /\ r = Raise Abort) ->
  stacks_step_taken no_confirm l region r t.
Proof.
  intros Hin Hret Hlast Hne. unfold cfn_block in Hin, Hret.
  destruct (step_shows no_sdk_error no_sdk_error_returned no_confirm l
              "The following CloudFormation stacks will be deleted:" prompt_cfn
              (delete_resources [("cloudformation_stacks", l)] region)
              (raise Abort) (secho "No CloudFormation stacks" (Some yellow)) Hne)
    as (H1 & H2 & H3 & H4).
  destruct (step_shows (fun o => o = None) eq_refl no_confirm l
              "The following CloudFormation stacks will be deleted:" prompt_cfn
              (delete_resources [("cloudformation_stacks", l)] region)
              (raise Abort) (secho "No CloudFormation stacks" (Some yellow)) Hne)
    as (_ & _ & _ & H4').
  split; [apply Hin, H1|]. split; [apply Hin, H2|].
  split; [intros Hnc; apply Hin, H3, Hnc|]. split.
  - intros Hnc Hans.
    assert (Hasked : In (Confirm prompt_cfn false) t)
      by (rewrite <- Hans; apply Hin, H3, Hnc).
    apply in_split in Hasked. destruct Hasked as [pre [post ->]].
    destruct (Hlast pre post eq_refl) as [-> ->]. split; [reflexivity | now exists pre].
  - intros Hok. split.
    + intros n rest ->. apply Hin, H4; [exact Hok|].
      apply always_shows, delete_first_stack.
    + intros -> n Hn. apply Hret; [reflexivity|]. apply H4'; [exact Hok|].
      now apply delete_every_stack.
Qed.


End Prompts.

(** ** The theorems at concrete inputs *)

Lemma status_listed (status : string) :
  existsb (String.eqb status) stack_statuses = true -> In status stack_statuses.
Proof.
  intros H. apply existsb_exists in H. destruct H as [x [Hin Heq]].
  apply String.eqb_eq in Heq. now subst.
Defined.

Lemma gather_cloudformation_stacks_spec_witness :
  @list_stacks (scripted sample_account) "eu-west-1" 0%nat
    = (inr (acct_stacks sample_account), 1%nat)
  /\ Forall (fun stack => In (StackStatus stack) stack_statuses)
            (List.concat (acct_stacks sample_account))
  /\ exists gathered : list StackSummary,
       @gather_cloudformation_stacks (scripted sample_account) ["env-a"] "eu-west-1" 0%nat
         = (Ok (map StackName gathered), 1%nat, [Listed "eu-west-1" ListStacks])
       /\ (forall n, In n (map StackName gathered) <->
             exists stack, In stack (List.concat (acct_stacks sample_account))
               /\ StackName stack = n
               /\ StackStatus stack <> "DELETE_COMPLETE"
               /\ ParentId stack = None
               /\ exists sub, In sub ["env-a"] /\ Substring sub n)
       /\ Permutation gathered
            (filter (keeps_stack ["env-a"]) (List.concat (acct_stacks sample_account)))
       /\ (forall i j a b,
             nth_error gathered i = Some a -> nth_error gathered j = Some b ->
             (CreationTime b < CreationTime a)%Z -> (i < j)%nat).
Proof.
  assert (H1 : @list_stacks (scripted sample_account) "eu-west-1" 0%nat
               = (inr (acct_stacks sample_account), 1%nat)) by reflexivity.
  assert (H2 : Forall (fun stack => In (StackStatus stack) stack_statuses)
                 (List.concat (acct_stacks sample_account)))
    by (apply Forall_forall; intros stack Hin; apply status_listed; revert stack Hin;
        apply forallb_forall; reflexivity).
  split; [exact H1|]. split; [exact H2|].
  exact (@gather_cloudformation_stacks_spec (scripted sample_account)
           ["env-a"] "eu-west-1" 0%nat 1%nat (acct_stacks sample_account) H1 H2).
Defined.

Lemma gather_vpc_lambdas_spec_witness :
  @list_functions (scripted sample_account) "eu-west-1" 0%nat
    = (inr (acct_functions sample_account), 1%nat)
  /\ exists kept : list FunctionConfiguration,
       @gather_vpc_lambdas (scripted sample_account) ["env-a"] "eu-west-1" 0%nat
         = (Ok (map FunctionName kept), 1%nat, [Listed "eu-west-1" ListFunctions])
       /\ kept = filter (keeps_function ["env-a"]) (List.concat (acct_functions sample_account))
       /\ forall function, In function kept <->
            In function (List.concat (acct_functions sample_account))
            /\ (exists sub, In sub ["env-a"] /\ Substring sub (FunctionName function))
            /\ exists cfg vpc_id,
                 VpcConfig function = Some cfg /\ VpcId cfg = Some vpc_id /\ vpc_id <> "".
Proof.
  assert (H1 : @list_functions (scripted sample_account) "eu-west-1" 0%nat
               = (inr (acct_functions sample_account), 1%nat)) by reflexivity.
  split; [exact H1|].
  exact (@gather_vpc_lambdas_spec (scripted sample_account)
           ["env-a"] "eu-west-1" 0%nat 1%nat (acct_functions sample_account) H1).
Defined.

Lemma gather_cloudformation_stacks_env_a_witness :
  In "CREATE_COMPLETE" stack_statuses
  /\ "CREATE_COMPLETE" <> "DELETE_COMPLETE"
  /\ @list_stacks (scripted env_a_account) "eu-west-1" 0%nat
     = (inr [[ {| StackName := "env-a-app"; StackStatus := "CREATE_COMPLETE";
                  ParentId := None; CreationTime := 2 |};
               {| StackName := "env-a-db"; StackStatus := "CREATE_COMPLETE";
                  ParentId := None; CreationTime := 1 |} ]], 1%nat)
  /\ @gather_cloudformation_stacks (scripted env_a_account) ["env-a"] "eu-west-1" 0%nat
     = (Ok ["env-a-app"; "env-a-db"], 1%nat, [Listed "eu-west-1" ListStacks]).
Proof.
  assert (H1 : In "CREATE_COMPLETE" stack_statuses) by (apply status_listed; reflexivity).
  assert (H2 : "CREATE_COMPLETE" <> "DELETE_COMPLETE") by discriminate.
  assert (H3 : @list_stacks (scripted env_a_account) "eu-west-1" 0%nat
     = (inr [[ {| StackName := "env-a-app"; StackStatus := "CREATE_COMPLETE";
                  ParentId := None; CreationTime := 2 |};
               {| StackName := "env-a-db"; StackStatus := "CREATE_COMPLETE";
                  ParentId := None; CreationTime := 1 |} ]], 1%nat)) by reflexivity.
  repeat (split; [assumption|]).
  exact (@gather_cloudformation_stacks_env_a (scripted env_a_account)
           "eu-west-1" 0%nat 1%nat "CREATE_COMPLETE" "CREATE_COMPLETE" H1 H2 H1 H2 H3).
Defined.

Lemma delete_cloudformation_stack_absent_witness :
  @invoke (scripted failing_account) "eu-west-1" (DeleteStack "env-a-app") 0%nat
    = (inl absent_error, 1%nat)
  /\ ("ValidationError" = "ValidationError"
      /\ Substring "does not exist" "Stack with id env-a-app does not exist")
  /\ @delete_cloudformation_stack (scripted failing_account) "env-a-app" "eu-west-1" 0%nat
     = (Ok tt, 1%nat,
        [ Called "eu-west-1" (DeleteStack "env-a-app");
          Secho "CloudFormation stack env-a-app does not exist or is already deleted."
                (Some yellow) ]).
Proof.
  assert (H1 : @invoke (scripted failing_account) "eu-west-1" (DeleteStack "env-a-app") 0%nat
               = (inl absent_error, 1%nat)) by reflexivity.
  assert (H2 : "ValidationError" = "ValidationError"
               /\ Substring "does not exist" "Stack with id env-a-app does not exist").
  { split; [reflexivity|]. exists "Stack with id env-a-app ", "". reflexivity. }
  split; [exact H1|]. split; [exact H2|].
  exact (proj1 (@delete_cloudformation_stack_absent (scripted failing_account)
                  "env-a-app" "eu-west-1" 0%nat 1%nat _ _ _ H1) H2).
Defined.

Lemma gatherers_substring_filter_witness :
  @buckets_all (scripted sample_account) "eu-west-1" 0%nat
    = (inr (acct_buckets sample_account), 1%nat)
  /\ @list_tables (scripted sample_account) "eu-west-1" 0%nat
    = (inr (acct_tables sample_account), 1%nat)
  /\ @describe_repositories (scripted sample_account) "eu-west-1" 0%nat
    = (inr (acct_repositories sample_account), 1%nat)
  /\ @describe_log_groups (scripted sample_account) "eu-west-1" 0%nat
    = (inr (acct_log_groups sample_account), 1%nat)
  /\ @describe_parameters (scripted sample_account) "eu-west-1" 0%nat
    = (inr (acct_parameters sample_account), 1%nat)
  /\ (exists buckets,
        @gather_s3_buckets (scripted sample_account) ["env-a"] "eu-west-1" 0%nat
          = (Ok buckets, 1%nat, [Listed "eu-west-1" BucketsAll])
        /\ buckets = filter (any_in ["env-a"]) (map name (acct_buckets sample_account))
        /\ forall n, In n buckets <->
             In n (map name (acct_buckets sample_account))
             /\ exists sub, In sub ["env-a"] /\ Substring sub n)
  /\ (exists ssm_params,
        @gather_ssm_params (scripted sample_account) ["env-a"] "eu-west-1" 0%nat
          = (Ok ssm_params, 1%nat, [Listed "eu-west-1" DescribeParameters])
        /\ ssm_params
           = map Name (filter (keeps_param ["env-a"])
                              (List.concat (acct_parameters sample_account)))
        /\ forall n, In n ssm_params <->
             In n (map Name (List.concat (acct_parameters sample_account)))
             /\ exists sub, In sub ["env-a"] /\ StartsWith n ("/" ++ sub ++ "/")).
Proof.
  assert (H1 : @buckets_all (scripted sample_account) "eu-west-1" 0%nat
               = (inr (acct_buckets sample_account), 1%nat)) by reflexivity.
  assert (H2 : @list_tables (scripted sample_account) "eu-west-1" 0%nat
               = (inr (acct_tables sample_account), 1%nat)) by reflexivity.
  assert (H3 : @describe_repositories (scripted sample_account) "eu-west-1" 0%nat
               = (inr (acct_repositories sample_account), 1%nat)) by reflexivity.
  assert (H4 : @describe_log_groups (scripted sample_account) "eu-west-1" 0%nat
               = (inr (acct_log_groups sample_account), 1%nat)) by reflexivity.
  assert (H5 : @describe_parameters (scripted sample_account) "eu-west-1" 0%nat
               = (inr (acct_parameters sample_account), 1%nat)) by reflexivity.
  repeat (split; [assumption|]).
  pose proof (@gatherers_substring_filter (scripted sample_account) ["env-a"] "eu-west-1"
                0%nat 1%nat 1%nat 1%nat 1%nat 1%nat _ _ _ _ _ H1 H2 H3 H4 H5) as H.
  split; [exact (proj1 H) | exact (proj2 (proj2 (proj2 (proj2 H))))].
Defined.

Lemma deleter_failures_witness :
  @invoke (scripted failing_account) "eu-west-1" (ObjectVersionsDelete "env-a-logs") 0%nat
    = (inl absent_error, 1%nat)
  /\ @delete_s3_bucket (scripted failing_account) "env-a-logs" "eu-west-1" 0%nat
     = (Raise (ClickException
                 (click_style ("Failed to delete S3 bucket env-a-logs: "
                                 ++ sdk_str absent_error) red)),
        1%nat, [Called "eu-west-1" (ObjectVersionsDelete "env-a-logs")])
  /\ @invoke (scripted failing_account) "eu-west-1"
       (UpdateFunctionConfiguration "env-a-logs" [] []) 0%nat
     = (inl absent_error, 1%nat)
  /\ exists c2 t,
       @update_lambda_vpc_config (scripted failing_account) ["env-a-fn"] "eu-west-1" 1%nat
         = (Ok tt, c2, t)
       /\ calls t = map (fun n' => ("eu-west-1", UpdateFunctionConfiguration n' [] []))
                        ["env-a-fn"]
       /\ @update_lambda_vpc_config (scripted failing_account)
            ["env-a-logs"; "env-a-fn"] "eu-west-1" 0%nat
          = (Ok tt, c2,
             Called "eu-west-1" (UpdateFunctionConfiguration "env-a-logs" [] [])
             :: Secho ("Failed to update Lambda function 'env-a-logs': "
                         ++ sdk_str absent_error) None
             :: t).
Proof.
  assert (H1 : @invoke (scripted failing_account) "eu-west-1"
                 (ObjectVersionsDelete "env-a-logs") 0%nat
               = (inl absent_error, 1%nat)) by reflexivity.
  assert (H2 : @invoke (scripted failing_account) "eu-west-1"
                 (UpdateFunctionConfiguration "env-a-logs" [] []) 0%nat
               = (inl absent_error, 1%nat)) by reflexivity.
  pose proof (@deleter_failures (scripted failing_account) "eu-west-1" 0%nat 1%nat
                absent_error "env-a-logs") as H.
  split; [exact H1|]. split; [exact (proj1 H H1)|]. split; [exact H2|].
  exact (proj1 (proj2 (proj2 (proj2 (proj2 (proj2 H))))) ["env-a-fn"] H2).
Defined.

(** On the sample account, an operator who declines the CloudFormation
    prompt: the run ends with [Abort]. *)
Ltac sample_inventory H :=
  let v := eval vm_compute in
             (@gather_resources (scripted sample_account) ["env-a"] "eu-west-1" 0%nat) in
  assert (H : @gather_resources (scripted sample_account) ["env-a"] "eu-west-1" 0%nat = v)
    by (vm_compute; reflexivity).


(** The commands of three runs on the sample account.  Declining the S3 and
    DynamoDB prompts skips these two blocks only. *)
Example run_declining_s3_and_ddb :
  let run := @cleanup_env (scripted sample_account) (declining [prompt_s3; prompt_ddb])
               sample_ctx false ["env-a"] 0%nat in
  fst (fst run) = Ok tt
  /\ calls (snd run)
     = [ ("eu-west-1", BatchDeleteImage "env-a/api" ["sha256:1"]);
         ("eu-west-1", UpdateFunctionConfiguration "env-a-fn" [] []);
         ("eu-west-1", DeleteStack "env-a-app");
         ("eu-west-1", WaitStackDeleteComplete "env-a-app");
         ("eu-west-1", DeleteStack "env-a-db");
         ("eu-west-1", WaitStackDeleteComplete "env-a-db");
         ("eu-west-1", ObjectVersionsDelete "env-a-logs");
         ("eu-west-1", BucketDelete "env-a-logs");
         ("eu-west-1", DeleteParameter "/env-a/db/password");
         ("eu-west-1", DeleteLogGroup "/aws/lambda/env-a-fn") ].
Proof. vm_compute. split; reflexivity. Qed.

(** Declining the CloudFormation prompt: the first four blocks have run,
    nothing is deleted. *)
Example run_declining_cfn :
  let run := @cleanup_env (scripted sample_account) (declining [prompt_cfn])
               sample_ctx false ["env-a"] 0%nat in
  fst (fst run) = Raise Abort
  /\ calls (snd run)
     = [ ("eu-west-1", ObjectVersionsDelete "env-a-logs");
         ("eu-west-1", BatchDeleteImage "env-a/api" ["sha256:1"]);
         ("eu-west-1", UpdateFunctionConfiguration "env-a-fn" [] []);
         ("eu-west-1", UpdateTable "env-a-table" false) ]
  /\ last (snd run) (Secho "" None) = Confirm prompt_cfn false.
Proof. vm_compute. repeat split; reflexivity. Qed.

(** With [no_confirm] the replies do not matter. *)
Example run_no_confirm :
  let run := @cleanup_env (scripted sample_account)
               (declining [prompt_s3; prompt_ddb; prompt_cfn])
               sample_ctx true ["env-a"] 0%nat in
  fst (fst run) = Ok tt
  /\ calls (snd run)
     = [ ("eu-west-1", ObjectVersionsDelete "env-a-logs");
         ("eu-west-1", BatchDeleteImage "env-a/api" ["sha256:1"]);
         ("eu-west-1", UpdateFunctionConfiguration "env-a-fn" [] []);
         ("eu-west-1", UpdateTable "env-a-table" false);
         ("eu-west-1", DeleteStack "env-a-app");
         ("eu-west-1", WaitStackDeleteComplete "env-a-app");
         ("eu-west-1", DeleteStack "env-a-db");
         ("eu-west-1", WaitStackDeleteComplete "env-a-db");
         ("eu-west-1", ObjectVersionsDelete "env-a-logs");
         ("eu-west-1", BucketDelete "env-a-logs");
         ("eu-west-1", DeleteParameter "/env-a/db/password");
         ("eu-west-1", DeleteLogGroup "/aws/lambda/env-a-fn") ].
Proof. vm_compute. split; reflexivity. Qed.

(** [sorted(..., reverse=True)] keeps the listing order of stacks created at
    the same time. *)
Example sorted_reverse_ties :
  sorted_reverse snd [("a", 1%Z); ("b", 2%Z); ("c", 1%Z); ("d", 2%Z)]
  = [("b", 2%Z); ("d", 2%Z); ("a", 1%Z); ("c", 1%Z)].
Proof. reflexivity. Qed.

(** * Further properties *)

(** ** The [--prefix-list] option *)

Lemma split_comma_nonempty (s : string) : split_comma s <> [].
Proof.
  destruct s as [|c s]; simpl; [discriminate|].
  destruct (Ascii.eqb c ","); [discriminate|].
  destruct (split_comma s); discriminate.
Qed.

Lemma split_comma_app (a b : string) :
  split_comma (a ++ "," ++ b) = split_comma a ++ split_comma b.
Proof.
  induction a as [|c a IH]; [reflexivity|].
  cbn [String.append split_comma]. cbn [String.append] in IH. rewrite IH.
  destruct (Ascii.eqb c ","); [reflexivity|].
  pose proof (split_comma_nonempty a) as Hne.
  destruct (split_comma a) as [|piece pieces]; [contradiction | reflexivity].
Qed.

Lemma concat_cons (sep x y : string) (l : list string) :
  String.concat sep (x :: y :: l) = (x ++ sep ++ String.concat sep (y :: l))%string.
Proof. reflexivity. Qed.

Lemma split_comma_join (s : string) : String.concat "," (split_comma s) = s.
Proof.
  induction s as [|c s IH]; [reflexivity|].
  cbn [split_comma]. pose proof (split_comma_nonempty s) as Hne.
  destruct (Ascii.eqb c ",") eqn:Hc.
  - apply Ascii.eqb_eq in Hc. subst c.
    destruct (split_comma s) as [|piece pieces]; [contradiction|].
    rewrite concat_cons, IH. reflexivity.
  - destruct (split_comma s) as [|piece pieces]; [contradiction|].
    destruct pieces as [|next pieces].
    + simpl in *. now rewrite IH.
    + rewrite concat_cons in *. rewrite <- IH. reflexivity.
Qed.

Lemma comma_free_cons (c : ascii) (s : string) :
  str_in "," (String c s) = false <-> Ascii.eqb c "," = false /\ str_in "," s = false.
Proof.
  cbn [str_in String.prefix]. rewrite orb_false_iff.
  destruct (Ascii.eqb c ",") eqn:Hc.
  - apply Ascii.eqb_eq in Hc. subst c. simpl. destruct s; intuition discriminate.
  - apply Ascii.eqb_neq in Hc.
    destruct (ascii_dec "," c) as [E|_]; [symmetry in E; contradiction|]. tauto.
Qed.

Lemma split_comma_pieces (s : string) :
  Forall (fun piece => str_in "," piece = false) (split_comma s).
Proof.
  induction s as [|c s IH]; [repeat constructor|].
  cbn [split_comma]. destruct (Ascii.eqb c ",") eqn:Hc.
  - constructor; [reflexivity | exact IH].
  - destruct (split_comma s) as [|piece pieces]; [repeat constructor; now apply comma_free_cons|].
    inversion IH as [|? ? Hp Hps]; subst. constructor; [|exact Hps].
    now apply comma_free_cons.
Qed.

Lemma split_comma_piece (piece : string) :
  str_in "," piece = false -> split_comma piece = [piece].
Proof.
  induction piece as [|c piece IH]; intros H; [reflexivity|].
  apply comma_free_cons in H. destruct H as [Hc Hp].
  cbn [split_comma]. now rewrite Hc, (IH Hp).
Qed.

(** X1.  [value.split(",")] and [",".join] are inverse to each other: joining
    the pieces gives the value back, the pieces contain no comma and there is
    at least one; a list of comma-free pieces, not empty, is what the split
    of its join returns; and the split of [a + "," + b] is the split of [a]
    followed by the split of [b]. *)
Theorem split_comma_round_trip (s a b : string) :
  String.concat "," (split_comma s) = s
  /\ split_comma s <> []
  /\ Forall (fun piece => str_in "," piece = false) (split_comma s)
  /\ split_comma (a ++ "," ++ b) = split_comma a ++ split_comma b
  /\ (forall pieces, pieces <> [] ->
        Forall (fun piece => str_in "," piece = false) pieces ->
        split_comma (String.concat "," pieces) = pieces).
Proof.
  split; [apply split_comma_join|]. split; [apply split_comma_nonempty|].
  split; [apply split_comma_pieces|]. split; [apply split_comma_app|].
  induction pieces as [|piece pieces IH]; intros Hne Hfree; [contradiction|].
  inversion Hfree as [|? ? Hp Hps]; subst.
  destruct pieces as [|next pieces].
  - now apply split_comma_piece.
  - rewrite concat_cons, split_comma_app, (split_comma_piece _ Hp).
    cbn [app]. f_equal. apply IH; [discriminate | exact Hps].
Qed.

(** X2.  The callback of [--prefix-list] returns [None] exactly when the
    option is absent or empty; otherwise it returns a list that is not empty,
    whose join is the value; a value that ends with a comma puts the empty
    string in the list. *)
Theorem prefix_list_callback_spec (value : option string) :
  (prefix_list_callback value = None <-> value = None \/ value = Some "")
  /\ (forall prefix_list, prefix_list_callback value = Some prefix_list ->
        prefix_list <> [] /\ value = Some (String.concat "," prefix_list))
  /\ (forall text, value = Some (text ++ ",")%string ->
        exists prefix_list,
          prefix_list_callback value = Some prefix_list /\ In "" prefix_list).
Proof.
  split; [|split].
  - destruct value as [[|c s]|]; simpl; split; intros H; auto;
      try discriminate; destruct H as [H|H]; discriminate.
  - intros prefix_list H.
    destruct value as [[|c s]|]; cbn [prefix_list_callback] in H; try discriminate.
    injection H as <-. split.
    + exact (split_comma_nonempty (String c s)).
    + f_equal. symmetry. exact (split_comma_join (String c s)).
  - intros text ->. exists (split_comma (text ++ ",")). split.
    + destruct text; reflexivity.
    + change (text ++ ",")%string with (text ++ "," ++ "")%string.
      rewrite split_comma_app. apply in_or_app. right. now left.
Qed.

(** ** More on the gatherers *)

Lemma any_in_empty_string (substrings : list string) (s : string) :
  In "" substrings -> any_in substrings s = true.
Proof.
  intros H. unfold any_in. apply existsb_exists. exists "". split; [exact H|].
  destruct s; reflexivity.
Qed.

Lemma filter_all {A : Type} (f : A -> bool) (l : list A) :
  (forall x, f x = true) -> filter f l = l.
Proof.
  intros H. induction l as [|x l IH]; simpl; [reflexivity|]. now rewrite H, IH.
Qed.

Lemma any_in_app (s1 s2 : list string) (s : string) :
  any_in (s1 ++ s2) s = any_in s1 s || any_in s2 s.
Proof. unfold any_in. apply existsb_app. Qed.

Lemma NoDup_map_filter {A B : Type} (f : A -> B) (keep : A -> bool) (l : list A) :
  NoDup (map f l) -> NoDup (map f (filter keep l)).
Proof.
  induction l as [|x l IH]; simpl; intros H; [constructor|].
  inversion H as [|? ? Hx Hl]; subst. destruct (keep x); simpl; [|auto].
  constructor; [|auto]. intros Hin. apply Hx.
  apply in_map_iff in Hin. destruct Hin as [y [Hy Hin]].
  apply filter_In in Hin. apply in_map_iff. exists y. tauto.
Qed.

Lemma sorted_reverse_fixed {A : Type} (key : A -> Z) (l : list A) :
  descending key l -> sorted_reverse key l = l.
Proof.
  unfold descending. induction 1 as [|x l Hl IH Hx]; [reflexivity|].
  cbn [sorted_reverse fold_right]. fold (sorted_reverse key l). rewrite IH.
  destruct l as [|y l]; [reflexivity|]. cbn [insert_desc].
  inversion Hx as [|? ? Hy _]; subst.
  destruct (key x <? key y)%Z eqn:E; [apply Z.ltb_lt in E; lia | reflexivity].
Qed.

Section MoreOnGatherers.
Context {aws : Boto3}.

(** X3.  An empty string among the substrings matches every name: the S3,
    DynamoDB, ECR and log group gatherers return every listed name, the
    CloudFormation gatherer every parent stack that is not [DELETE_COMPLETE],
    the Lambda gatherer every function in a VPC. *)
Theorem empty_substring_selects_everything
    (substrings : list string) (region : string) (c : cloud) :
  In "" substrings ->
  match list_stacks region c with
  | (inr pages, c1) =>
      gather_cloudformation_stacks substrings region c
      = (Ok (map StackName
               (sorted_reverse CreationTime (filter active_parent (List.concat pages)))),
         c1, [Listed region ListStacks])
  | (inl _, _) => True
  end
  /\ match buckets_all region c with
     | (inr all, c1) =>
         gather_s3_buckets substrings region c
         = (Ok (map name all), c1, [Listed region BucketsAll])
     | (inl _, _) => True
     end
  /\ match list_tables region c with
     | (inr pages, c1) =>
         gather_ddb_tables substrings region c
         = (Ok (List.concat pages), c1, [Listed region ListTables])
     | (inl _, _) => True
     end
  /\ match describe_repositories region c with
     | (inr pages, c1) =>
         gather_ecr_repositories substrings region c
         = (Ok (map repositoryName (List.concat pages)), c1,
            [Listed region DescribeRepositories])
     | (inl _, _) => True
     end
  /\ match describe_log_groups region c with
     | (inr pages, c1) =>
         gather_log_groups substrings region c
         = (Ok (map logGroupName (List.concat pages)), c1,
            [Listed region DescribeLogGroups])
     | (inl _, _) => True
     end
  /\ match list_functions region c with
     | (inr pages, c1) =>
         gather_vpc_lambdas substrings region c
         = (Ok (map FunctionName (filter in_vpc (List.concat pages))), c1,
            [Listed region ListFunctions])
     | (inl _, _) => True
     end.
Proof.
  intros Hin.
  assert (Hany : forall s, any_in substrings s = true)
    by (intros s; now apply any_in_empty_string).
  repeat split.
  - unfold gather_cloudformation_stacks. rewrite run_listing.
    destruct (list_stacks region c) as [[err|pages] c1]; [exact I|].
    unfold sorted_stack_names. rewrite select_stacks_filter.
    rewrite <- (sorted_reverse_map (fun stack => (StackName stack, CreationTime stack)) snd),
      map_map.
    rewrite (filter_ext (keeps_stack substrings) active_parent); [reflexivity|].
    intros stack. unfold keeps_stack, active_parent. rewrite Hany. apply andb_true_r.
  - unfold gather_s3_buckets. rewrite run_listing.
    destruct (buckets_all region c) as [[err|all] c1]; [exact I|].
    rewrite select_names_filter, filter_all by (intros; apply Hany).
    simpl. now rewrite app_nil_r.
  - unfold gather_ddb_tables. rewrite run_listing.
    destruct (list_tables region c) as [[err|pages] c1]; [exact I|].
    rewrite select_names_filter, filter_all by (intros; apply Hany).
    now rewrite map_id.
  - unfold gather_ecr_repositories. rewrite run_listing.
    destruct (describe_repositories region c) as [[err|pages] c1]; [exact I|].
    now rewrite select_names_filter, filter_all by (intros; apply Hany).
  - unfold gather_log_groups. rewrite run_listing.
    destruct (describe_log_groups region c) as [[err|pages] c1]; [exact I|].
    now rewrite select_names_filter, filter_all by (intros; apply Hany).
  - unfold gather_vpc_lambdas. rewrite run_listing.
    destruct (list_functions region c) as [[err|pages] c1]; [exact I|].
    rewrite select_vpc_lambdas_filter.
    rewrite (filter_ext (keeps_function substrings) in_vpc); [reflexivity|].
    intros function. unfold keeps_function, in_vpc. now rewrite Hany.
Qed.

End MoreOnGatherers.

(** X4.  Gathering with two lists of substrings put together gives the names
    gathered with the one or with the other: for the loop shared by the S3,
    DynamoDB, ECR and log group gatherers, and for the loops of the
    CloudFormation, SSM and Lambda gatherers. *)
Theorem selection_of_appended_substrings
    (A : Type) (get_name : A -> string) (s1 s2 : list string)
    (items : list (list A)) (stacks : list (list StackSummary))
    (parameters : list (list ParameterMetadata))
    (functions : list (list FunctionConfiguration)) (n : string) :
  (In n (select_names get_name (s1 ++ s2) items)
   <-> In n (select_names get_name s1 items) \/ In n (select_names get_name s2 items))
  /\ (In n (sorted_stack_names (select_stacks (s1 ++ s2) stacks))
      <-> In n (sorted_stack_names (select_stacks s1 stacks))
          \/ In n (sorted_stack_names (select_stacks s2 stacks)))
  /\ (In n (select_ssm_params (s1 ++ s2) parameters)
      <-> In n (select_ssm_params s1 parameters) \/ In n (select_ssm_params s2 parameters))
  /\ (In n (select_vpc_lambdas (s1 ++ s2) functions)
      <-> In n (select_vpc_lambdas s1 functions) \/ In n (select_vpc_lambdas s2 functions)).
Proof.
  assert (M : forall (B : Type) (f : B -> string) (k12 k1 k2 : B -> bool) (l : list B),
            (forall x, k12 x = k1 x || k2 x) ->
            (In n (map f (filter k12 l))
             <-> In n (map f (filter k1 l)) \/ In n (map f (filter k2 l)))).
  { intros B f k12 k1 k2 l H. rewrite !in_map_iff. split.
    - intros [x [Hx Hin]]. apply filter_In in Hin. destruct Hin as [Hin Hk].
      rewrite H in Hk. apply orb_true_iff in Hk.
      destruct Hk as [Hk|Hk]; [left|right]; exists x; rewrite filter_In; tauto.
    - intros [[x [Hx Hin]]|[x [Hx Hin]]]; apply filter_In in Hin; destruct Hin as [Hin Hk];
        exists x; rewrite filter_In, H, Hk; rewrite ?orb_true_r; tauto. }
  assert (S : forall subs, forall m,
            In m (sorted_stack_names (select_stacks subs stacks))
            <-> In m (map StackName (filter (keeps_stack subs) (List.concat stacks)))).
  { intros subs m. unfold sorted_stack_names. rewrite select_stacks_filter.
    set (infos := map (fun stack => (StackName stack, CreationTime stack)) _).
    assert (Hp := sorted_reverse_perm snd infos).
    assert (E : map StackName (filter (keeps_stack subs) (List.concat stacks)) = map fst infos)
      by (unfold infos; now rewrite map_map).
    rewrite E. split; intros H.
    - eapply Permutation_in; [apply Permutation_map, Permutation_sym, Hp | exact H].
    - eapply Permutation_in; [apply Permutation_map, Hp | exact H]. }
  repeat split.
  1-2: rewrite !select_names_filter; apply M; intros x; apply any_in_app.
  1-2: rewrite !S; apply M; intros x; unfold keeps_stack; rewrite any_in_app;
       destruct (negb _ && _); reflexivity.
  1-2: rewrite !select_ssm_params_filter; apply M; intros x; unfold keeps_param;
       apply existsb_app.
  1-2: rewrite !select_vpc_lambdas_filter; apply M; intros x; unfold keeps_function;
       rewrite any_in_app; apply andb_orb_distrib_l.
Qed.

(** X5.  No gatherer returns a name twice unless the provider lists it
    twice, also when several substrings match the name. *)
Theorem gathered_names_distinct
    (A : Type) (get_name : A -> string) (substrings : list string)
    (items : list (list A)) (stacks : list (list StackSummary))
    (parameters : list (list ParameterMetadata))
    (functions : list (list FunctionConfiguration)) :
  (NoDup (map get_name (List.concat items)) ->
   NoDup (select_names get_name substrings items))
  /\ (NoDup (map StackName (List.concat stacks)) ->
      NoDup (sorted_stack_names (select_stacks substrings stacks)))
  /\ (NoDup (map Name (List.concat parameters)) ->
      NoDup (select_ssm_params substrings parameters))
  /\ (NoDup (map FunctionName (List.concat functions)) ->
      NoDup (select_vpc_lambdas substrings functions)).
Proof.
  repeat split; intros H.
  - rewrite select_names_filter. now apply NoDup_map_filter.
  - unfold sorted_stack_names. rewrite select_stacks_filter.
    set (infos := map (fun stack => (StackName stack, CreationTime stack)) _).
    eapply Permutation_NoDup; [apply Permutation_map, (sorted_reverse_perm snd infos)|].
    unfold infos. rewrite map_map. now apply NoDup_map_filter.
  - rewrite select_ssm_params_filter. now apply NoDup_map_filter.
  - rewrite select_vpc_lambdas_filter. now apply NoDup_map_filter.
Qed.

(** X6.  The sort of the CloudFormation gatherer is stable: the stacks
    created at one time keep the order of the listing, and a listing whose
    kept stacks already come latest first is returned in its order. *)
Theorem stacks_keep_listing_order
    (substrings : list string) (pages : list (list StackSummary)) :
  (forall time,
     filter (fun info => (snd info =? time)%Z)
            (sorted_reverse snd (select_stacks substrings pages))
     = filter (fun info => (snd info =? time)%Z) (select_stacks substrings pages))
  /\ select_stacks substrings pages
     = map (fun stack => (StackName stack, CreationTime stack))
           (filter (keeps_stack substrings) (List.concat pages))
  /\ (descending CreationTime (filter (keeps_stack substrings) (List.concat pages)) ->
      sorted_stack_names (select_stacks substrings pages)
      = map StackName (filter (keeps_stack substrings) (List.concat pages))).
Proof.
  split; [intros time; apply sorted_reverse_stable|].
  split; [apply select_stacks_filter|].
  intros H. unfold sorted_stack_names. rewrite select_stacks_filter.
  rewrite <- (sorted_reverse_map (fun stack => (StackName stack, CreationTime stack)) snd),
    map_map.
  f_equal. now apply (sorted_reverse_fixed CreationTime).
Qed.

(** ** The inventories *)

Section InventoryOrder.
Context {aws : Boto3}.

Lemma begins_cons (e : event) (t full : list event) :
  begins t full -> begins (e :: t) (e :: full).
Proof. intros [rest ->]. now exists rest. Qed.

Lemma begins_one (e : event) (full : list event) : begins [e] (e :: full).
Proof. now exists full. Qed.

(** A listing followed by the rest of an inventory. *)
Lemma listing_then {A B : Type} (e : event) (op : cloud -> (sdk_error + A) * cloud)
    (select : A -> list string) (k : list string -> M B) (c : cloud) :
  bind (bind (boto3_call e op) (fun a => ret (select a))) k c
  = match op c with
    | (inr a, c1) =>
        match k (select a) c1 with
        | (r, c2, t) => (r, c2, e :: t)
        end
    | (inl err, c1) => (Raise (SdkError err), c1, [e])
    end.
Proof.
  unfold bind at 1. rewrite run_listing.
  destruct (op c) as [[err|a] c1]; reflexivity.
Qed.

(** X7.  [gather_resources] calls the five listings in the order stacks,
    buckets, repositories, functions, tables, and
    [gather_unmanaged_resources] the three listings buckets, parameters, log
    groups; the first listing that fails ends the inventory with its error:
    the listings after it are not called.  An inventory that returns has its
    keys in the order of the source. *)
Theorem inventories_list_in_order (substrings : list string) (region : string) (c : cloud) :
  match gather_resources substrings region c with
  | (Ok d, _, t) =>
      t = map (Listed region)
              [ListStacks; BucketsAll; DescribeRepositories; ListFunctions; ListTables]
      /\ map fst d = [ "cloudformation_stacks"; "s3_buckets"; "ecr_repositories";
                       "vpc_lambdas"; "ddb_tables" ]
  | (Raise e, _, t) =>
      begins t (map (Listed region)
                    [ListStacks; BucketsAll; DescribeRepositories; ListFunctions; ListTables])
      /\ t <> [] /\ exists err, e = SdkError err
  end
  /\ match gather_unmanaged_resources substrings region c with
     | (Ok d, _, t) =>
         t = map (Listed region) [BucketsAll; DescribeParameters; DescribeLogGroups]
         /\ map fst d = ["s3_buckets"; "ssm_params"; "log_groups"]
     | (Raise e, _, t) =>
         begins t (map (Listed region) [BucketsAll; DescribeParameters; DescribeLogGroups])
         /\ t <> [] /\ exists err, e = SdkError err
     end.
Proof.
  split.
  - unfold gather_resources, gather_cloudformation_stacks, gather_s3_buckets,
      gather_ecr_repositories, gather_vpc_lambdas, gather_ddb_tables.
    rewrite listing_then.
    destruct (list_stacks region c) as [[err|a1] c1];
      [split; [apply begins_one | split; [discriminate | eauto]]|].
    rewrite listing_then.
    destruct (buckets_all region c1) as [[err|a2] c2];
      [split; [apply begins_cons, begins_one | split; [discriminate | eauto]]|].
    rewrite listing_then.
    destruct (describe_repositories region c2) as [[err|a3] c3];
      [split; [do 2 apply begins_cons; apply begins_one | split; [discriminate | eauto]]|].
    rewrite listing_then.
    destruct (list_functions region c3) as [[err|a4] c4];
      [split; [do 3 apply begins_cons; apply begins_one | split; [discriminate | eauto]]|].
    rewrite listing_then.
    destruct (list_tables region c4) as [[err|a5] c5];
      [split; [do 4 apply begins_cons; apply begins_one | split; [discriminate | eauto]]|].
    split; reflexivity.
  - unfold gather_unmanaged_resources, gather_s3_buckets, gather_ssm_params,
      gather_log_groups.
    rewrite listing_then.
    destruct (buckets_all region c) as [[err|a1] c1];
      [split; [apply begins_one | split; [discriminate | eauto]]|].
    rewrite listing_then.
    destruct (describe_parameters region c1) as [[err|a2] c2];
      [split; [apply begins_cons, begins_one | split; [discriminate | eauto]]|].
    rewrite listing_then.
    destruct (describe_log_groups region c2) as [[err|a3] c3];
      [split; [do 2 apply begins_cons; apply begins_one | split; [discriminate | eauto]]|].
    split; reflexivity.
Qed.

End InventoryOrder.

(** ** Emptying *)

Section Emptying.
Context {aws : Boto3} {host : Host}.

Lemma empty_s3_buckets_cons (n : string) (l : list string) (region : string) (c : cloud) :
  empty_s3_buckets (n :: l) region c
  = match invoke region (ObjectVersionsDelete n) c with
    | (inl err, c1) =>
        (Raise (SdkError err), c1, [Called region (ObjectVersionsDelete n)])
    | (inr _, c1) =>
        match empty_s3_buckets l region c1 with
        | (r, c2, t) =>
            (r, c2, Called region (ObjectVersionsDelete n)
                      :: Secho ("Emptied S3 bucket: " ++ n) (Some red) :: t)
        end
    end.
Proof.
  unfold empty_s3_buckets. cbn [for_each]. unfold bind at 1 2, boto3_call, secho, emit.
  destruct (invoke region (ObjectVersionsDelete n) c) as [[err|[]] c1]; [reflexivity|].
  cbn [app]. destruct (for_each l _ c1) as [[r c2] t]. reflexivity.
Qed.

(** X8.  [empty_s3_buckets] empties the buckets in the order given and stops
    at the first bucket whose emptying fails: the buckets before it were
    emptied and reported, those after it are not touched, and the provider's
    error leaves the function as it is (nothing catches it here).  No bucket
    is deleted. *)
Theorem empty_s3_buckets_stops_at_first_failure
    (bucket_names : list string) (region : string) (c : cloud) :
  match empty_s3_buckets bucket_names region c with
  | (Ok _, _, t) => t = emptied_s3 region bucket_names
  | (Raise e, _, t) =>
      exists done failed rest err,
        bucket_names = done ++ failed :: rest
        /\ e = SdkError err
        /\ t = emptied_s3 region done ++ [Called region (ObjectVersionsDelete failed)]
  end.
Proof.
  revert c. induction bucket_names as [|n l IH]; intros c.
  - reflexivity.
  - rewrite empty_s3_buckets_cons.
    destruct (invoke region (ObjectVersionsDelete n) c) as [[err|[]] c1].
    + exists [], n, l, err. auto.
    + specialize (IH c1). destruct (empty_s3_buckets l region c1) as [[[[]|e] c2] t].
      * now rewrite IH.
      * destruct IH as (done & failed & rest & err & -> & -> & ->).
        exists (n :: done), failed, rest, err. auto.
Qed.

Lemma empty_ecr_repositories_cons (n : string) (l : list string) (region : string)
    (c : cloud) :
  empty_ecr_repositories (n :: l) region c
  = match list_images region n c with
    | (inl err, c1) => (Raise (SdkError err), c1, [ListedImages region n])
    | (inr images, c1) =>
        match map imageDigest (match images with Some ids => ids | None => [] end) with
        | [] =>
            match empty_ecr_repositories l region c1 with
            | (r, c2, t) => (r, c2, ListedImages region n :: t)
            end
        | d :: ds =>
            match invoke region (BatchDeleteImage n (d :: ds)) c1 with
            | (inl err, c2) =>
                (Raise (SdkError err), c2,
                 [ListedImages region n; Called region (BatchDeleteImage n (d :: ds))])
            | (inr _, c2) =>
                match empty_ecr_repositories l region c2 with
                | (r, c3, t) =>
                    (r, c3, ListedImages region n
                              :: Called region (BatchDeleteImage n (d :: ds))
                              :: Secho ("Emptied ECR repository: " ++ n) (Some red) :: t)
                end
            end
        end
    end.
Proof.
  unfold empty_ecr_repositories. cbn [for_each]. unfold bind at 1 2, boto3_call.
  destruct (list_images region n c) as [[err|images] c1]; [reflexivity|].
  destruct (map imageDigest _) as [|d ds].
  - unfold ret. cbn [app]. destruct (for_each l _ c1) as [[r c2] t]. reflexivity.
  - unfold bind at 1, boto3_call, secho, emit.
    destruct (invoke region (BatchDeleteImage n (d :: ds)) c1) as [[err|[]] c2];
      [reflexivity|].
    cbn [app]. destruct (for_each l _ c2) as [[r c3] t]. reflexivity.
Qed.

Lemma images_listed_first_nil : images_listed_first [].
Proof. intros [|x pre] post r n ids H; discriminate H. Qed.

Lemma images_listed_first_one (e : event) :
  (forall r n ids, e <> Called r (BatchDeleteImage n ids)) -> images_listed_first [e].
Proof.
  intros He [|x [|y pre]] post r n ids H; try discriminate H.
  injection H as H _. now apply He in H.
Qed.

Lemma images_listed_first_cons (e : event) (t : list event) :
  (forall r n ids, e <> Called r (BatchDeleteImage n ids)) ->
  images_listed_first t -> images_listed_first (e :: t).
Proof.
  intros He Ht [|x pre] post r n ids H.
  - injection H as H _. now apply He in H.
  - injection H as <- H. destruct (Ht _ _ _ _ _ H) as [Hids [pre' ->]].
    split; [exact Hids|]. now exists (e :: pre').
Qed.

Lemma images_listed_first_delete (region n : string) (ids : list string) (t : list event) :
  ids <> [] -> images_listed_first t ->
  images_listed_first (ListedImages region n :: Called region (BatchDeleteImage n ids) :: t).
Proof.
  intros Hids Ht [|x [|y pre]] post r n' ids' H.
  - discriminate H.
  - cbn [app] in H. injection H as Hx Hr Hn Hi _. subst x r n' ids'.
    split; [exact Hids|]. now exists [].
  - cbn [app] in H. injection H as <- <- H. destruct (Ht _ _ _ _ _ H) as [Hids' [pre' ->]].
    split; [exact Hids'|].
    now exists (ListedImages region n :: Called region (BatchDeleteImage n ids) :: pre').
Qed.

(** X9.  In every run of [empty_ecr_repositories], an image deletion names at
    least one image and comes directly after the listing of the images of the
    same repository in the same region: a repository is listed before it is
    emptied, and one with no image is not sent a deletion.  An exception that
    leaves the function is the provider's error, unchanged. *)
Theorem empty_ecr_repositories_lists_first
    (repository_names : list string) (region : string) (c : cloud) :
  match empty_ecr_repositories repository_names region c with
  | (r, _, t) =>
      images_listed_first t
      /\ match r with
         | Ok _ => True
         | Raise e => exists err, e = SdkError err
         end
  end.
Proof.
  revert c. induction repository_names as [|n l IH]; intros c.
  - split; [apply images_listed_first_nil | exact I].
  - rewrite empty_ecr_repositories_cons.
    destruct (list_images region n c) as [[err|images] c1].
    + split; [apply images_listed_first_one; discriminate | eauto].
    + destruct (map imageDigest _) as [|d ds].
      * specialize (IH c1). destruct (empty_ecr_repositories l region c1) as [[r c2] t].
        destruct IH as [Ht Hr]. split; [|exact Hr].
        apply images_listed_first_cons; [discriminate | exact Ht].
      * destruct (invoke region (BatchDeleteImage n (d :: ds)) c1) as [[err|[]] c2].
        -- split; [|eauto].
           apply images_listed_first_delete; [discriminate | apply images_listed_first_nil].
        -- specialize (IH c2). destruct (empty_ecr_repositories l region c2) as [[r c3] t].
           destruct IH as [Ht Hr]. split; [|exact Hr].
           apply images_listed_first_delete; [discriminate|].
           apply images_listed_first_cons; [discriminate | exact Ht].
Qed.

End Emptying.

(** ** The deleters *)

(** [H] says that an event is in a trace that does not hold it. *)
Ltac not_in_trace H :=
  cbn [In] in H; repeat (destruct H as [H|H]; [discriminate H|]); destruct H.

Section MoreOnDeleters.
Context {aws : Boto3} {host : Host}.

(** X10.  In every run of [delete_cloudformation_stack]: the waiter is
    called only after [delete_stack] has returned; the success message (the
    only green one) is printed exactly when both calls returned; an error of
    either call that is not a [ClientError] (a waiter that gives up, a lost
    connection) leaves the function unchanged, not as a click exception;
    whatever leaves the function is a click exception or such an error. *)
Theorem delete_cloudformation_stack_waits (stack_name region : string) (c : cloud) :
  match delete_cloudformation_stack stack_name region c with
  | (r, _, t) =>
      (In (Called region (WaitStackDeleteComplete stack_name)) t ->
       fst (invoke region (DeleteStack stack_name) c) = inr tt)
      /\ ((exists message, In (Secho message (Some green)) t)
          <-> exists c1 c2,
                invoke region (DeleteStack stack_name) c = (inr tt, c1)
                /\ invoke region (WaitStackDeleteComplete stack_name) c1 = (inr tt, c2))
      /\ (forall text c1,
            invoke region (DeleteStack stack_name) c = (inl (OtherError text), c1) ->
            r = Raise (SdkError (OtherError text))
            /\ t = [Called region (DeleteStack stack_name)])
      /\ (forall text c1 c2,
            invoke region (DeleteStack stack_name) c = (inr tt, c1) ->
            invoke region (WaitStackDeleteComplete stack_name) c1
            = (inl (OtherError text), c2) ->
            r = Raise (SdkError (OtherError text))
            /\ calls t = [ (region, DeleteStack stack_name);
                           (region, WaitStackDeleteComplete stack_name) ])
      /\ match r with
         | Ok _ => True
         | Raise e => click_or_other e
         end
  end.
Proof.
  unfold delete_cloudformation_stack. unfold_prog.
  destruct (invoke region (DeleteStack stack_name) c) as [[[code message text|text]|[]] c1].
  - destruct (String.eqb code "ValidationError" && str_in "does not exist" message);
      cbn [app]; (split; [intros H; not_in_trace H|]);
      (split; [split; [intros [m H]; not_in_trace H
                      | intros (c1' & c2' & H & _); discriminate H]|]);
      (split; [intros ? ? H; discriminate H|]);
      (split; [intros ? ? ? H; discriminate H | exact I]).
  - cbn [app]. split; [intros H; not_in_trace H|].
    split; [split; [intros [m H]; not_in_trace H
                   | intros (c1' & c2' & H & _); discriminate H]|].
    split; [intros ? ? [= <- _]; auto|].
    split; [intros ? ? ? H; discriminate H | exact I].
  - cbn [app].
    destruct (invoke region (WaitStackDeleteComplete stack_name) c1)
      as [[[code message text|text]|[]] c2] eqn:Hwait.
    + destruct (String.eqb code "ValidationError" && str_in "does not exist" message);
        cbn [app]; (split; [reflexivity|]);
        (split; [split; [intros [m H]; not_in_trace H
                        | intros (c1' & c2' & [= <-] & H); rewrite Hwait in H;
                          discriminate H]|]);
        (split; [intros ? ? H; discriminate H|]);
        (split; [intros ? ? ? [= <-] H; rewrite Hwait in H; discriminate H | exact I]).
    + cbn [app]. split; [reflexivity|].
      split; [split; [intros [m H]; not_in_trace H
                     | intros (c1' & c2' & [= <-] & H); rewrite Hwait in H;
                       discriminate H]|].
      split; [intros ? ? H; discriminate H|].
      split; [|exact I].
      intros ? ? ? [= <-] H. rewrite Hwait in H. injection H as <- _. auto.
    + cbn [app]. split; [reflexivity|].
      split; [split; [intros _; now exists c1, c2 | intros _; eexists; simpl; eauto 6]|].
      split; [intros ? ? H; discriminate H|].
      split; [|exact I].
      intros ? ? ? [= <-] H. rewrite Hwait in H. discriminate H.
Qed.

(** X11.  [delete_resources] on a dict none of whose types has a deleter (as
    [vpc_lambdas] and [ddb_tables], which [gather_resources] returns and
    [delete_methods] does not list): one notice per type, in the order of the
    dict, no call to the provider, the account unchanged, a normal return. *)
Theorem delete_resources_unknown_types (d : resource_dict) (region : string) (c : cloud) :
  Forall (fun kv => dict_get delete_methods (fst kv) = None) d ->
  delete_resources d region c = (Ok tt, c, unknown_type_notices d).
Proof.
  unfold delete_resources. revert c.
  induction d as [|[resource_type resources] d IH]; intros c H.
  - reflexivity.
  - inversion H as [|? ? Hhead Htail]; subst. cbn [fst] in Hhead.
    pose proof (IH c Htail) as Hrest.
    cbn [for_each]. unfold bind at 1. rewrite Hhead. unfold secho, emit in *.
    cbv beta iota. rewrite Hrest. reflexivity.
Qed.

Lemma click_only (body : M unit) (message : exn -> string) :
  emits (fun _ => True) click_exception anything
        (try_except body Exception (fun e => raise_for_click (message e))).
Proof.
  eapply emits_try_except with (E' := fun _ => True).
  - apply emits_whatever.
  - intros e _ _. apply emits_raise. exact I.
  - intros e _ H. discriminate H.
Qed.

Lemma delete_cloudformation_stack_lets_out (stack_name region : string) :
  emits (fun _ => True) click_or_other anything
        (delete_cloudformation_stack stack_name region).
Proof.
  unfold delete_cloudformation_stack.
  eapply emits_try_except with (E' := fun e => exists err, e = SdkError err).
  - emits_go; eauto.
  - intros e [[code message text|text] ->] H; [|discriminate H].
    destruct (String.eqb code "ValidationError" && str_in "does not exist" message);
      emits_go.
  - intros e [[code message text|text] ->] H; [discriminate H | exact I].
Qed.

Lemma dict_get_none_key {V : Type} (d : list (string * V)) (key key' : string) (v : V) :
  dict_get d key = None -> In (key', v) d -> key' <> key.
Proof.
  unfold dict_get. induction d as [|[k w] d IH]; intros H Hin; [destruct Hin|].
  cbn [find fst] in H. destruct (String.eqb k key) eqn:Hk; [discriminate H|].
  destruct Hin as [[= -> ->] | Hin]; [now apply String.eqb_neq | now apply IH].
Qed.

(** X12.  What [delete_resources] lets out is a click exception or an SDK
    error that is not a [ClientError]: no [ClientError] of the provider leaves
    a deleter as such.  On a dict without CloudFormation stacks it is always a
    click exception, the other four deleters catching every exception. *)
Theorem delete_resources_lets_out (d : resource_dict) (region : string) (c : cloud) :
  match delete_resources d region c with
  | (Raise e, _, _) =>
      click_or_other e
      /\ (dict_get d "cloudformation_stacks" = None -> click_exception e)
  | (Ok _, _, _) => True
  end.
Proof.
  assert (H : emits (fun _ => True)
                (fun e => click_or_other e
                          /\ (dict_get d "cloudformation_stacks" = None -> click_exception e))
                anything (delete_resources d region)).
  { unfold delete_resources. apply emits_for_each.
    intros [resource_type resources] Hin.
    assert (Hclick : forall m : M unit,
               emits (fun _ => True) click_exception anything m ->
               emits (fun _ => True)
                 (fun e => click_or_other e
                           /\ (dict_get d "cloudformation_stacks" = None -> click_exception e))
                 anything m).
    { intros m Hm. eapply emits_mono; [exact Hm | auto |].
      intros [| | |] He; destruct He; split; [exact I | intros _; exact I]. }
    destruct (dict_get delete_methods resource_type) as [delete_method|] eqn:Hget.
    - unfold dict_get in Hget. cbn [delete_methods find fst snd] in Hget.
      repeat match type of Hget with
             | context [String.eqb ?a resource_type] =>
                 let Hk := fresh "Hk" in destruct (String.eqb a resource_type) eqn:Hk
             end; try discriminate Hget; injection Hget as <-;
        apply emits_for_each; intros n _.
      + apply String.eqb_eq in Hk. subst resource_type.
        eapply emits_mono;
          [apply delete_cloudformation_stack_lets_out | auto |].
        intros e He. split; [exact He|]. intros Hnone.
        now destruct (dict_get_none_key _ _ _ _ Hnone Hin).
      + apply Hclick, click_only.
      + apply Hclick, click_only.
      + apply Hclick, click_only.
      + apply Hclick, click_only.
    - apply emits_secho. exact I. }
  specialize (H c). destruct (delete_resources d region c) as [[[a|e] c1] t];
    [exact I | apply H].
Qed.

End MoreOnDeleters.

(** ** The order of the orchestrator

    A shape [F] of traces that the events [P0] of the opening, the first
    inventory and the first four blocks do not disturb holds of a run of
    [cleanup_env] once it holds from the CloudFormation block on. *)

Section FirstBlocks.
Context {aws : Boto3} {host : Host}.
Variables (F : option exn -> list event -> Prop) (P0 : event -> Prop).
Variables (no_confirm : bool) (substrings : list string) (region : string).

Hypothesis Hfree : forall o t, Forall P0 t -> F o t.
Hypothesis Hpre : forall t1 o t2, Forall P0 t1 -> F o t2 -> F o (t1 ++ t2).
Hypothesis Hsecho : forall message fg, P0 (Secho message fg).
Hypothesis Hlisted : forall r what, P0 (Listed r what).
Hypothesis Hask : forall text reply, P0 (Confirm text reply).
Hypothesis Hs3 : forall e, s3_empty_call e -> P0 e.
Hypothesis Hecr : forall e, ecr_empty_call e -> P0 e.
Hypothesis Hlambda : forall e, lambda_call e -> P0 e.
Hypothesis Hddb : forall e, ddb_call e -> P0 e.

Lemma first_bind {A B : Type} (Q : A -> Prop) (R : B -> Prop) (m : M A) (k : A -> M B) :
  emits P0 anything Q m -> (forall a, Q a -> runs F R (k a)) -> runs F R (bind m k).
Proof.
  intros Hm Hk c. unfold bind. specialize (Hm c).
  destruct (m c) as [[[a|e] c1] t1]; destruct Hm as [Ht Hr].
  - specialize (Hk a Hr c1). destruct (k a c1) as [[r c2] t2]. destruct Hk as [Ht2 Hr2].
    split; [now apply Hpre | exact Hr2].
  - split; [now apply Hfree | exact I].
Qed.

Lemma first_action (call : event -> Prop) (m : M unit) :
  (forall e, call e -> P0 e) ->
  emits (acts call) sdk_or_click anything m -> emits P0 anything anything m.
Proof.
  intros Hcall Hm. eapply emits_mono; [exact Hm | | intros; exact I].
  intros [message fg|text reply|r what|r repo|r cmd] H; simpl in H;
    [apply Hsecho | apply Hask | apply Hlisted | now apply Hcall | now apply Hcall].
Qed.

Lemma first_block (l : list string) (banner prompt : string) (call : event -> Prop)
    (action declined otherwise rest : M unit) :
  (forall e, call e -> P0 e) ->
  emits (acts call) sdk_or_click anything action ->
  emits P0 anything anything declined ->
  emits P0 anything anything otherwise ->
  runs F anything rest ->
  runs F anything
    (x <- ret l ;;
     managed_step no_confirm x banner prompt action declined otherwise ;;
     rest).
Proof.
  intros Hcall Ha Hd Ho Hrest.
  eapply first_bind; [apply (emits_ret _ _ (eq l)); reflexivity | intros ? <-].
  eapply first_bind; [| intros _ _; exact Hrest].
  apply emits_managed_step.
  - intros _. apply Hsecho.
  - intros _. apply Hsecho.
  - intros _ _. apply Hask.
  - intros _ _. now apply (first_action call).
  - intros _ _ _. exact Hd.
  - intros _. exact Ho.
Qed.

Lemma first_blocks (ctx : Context) :
  region = REGION ctx ->
  (forall d, managed_inventory substrings d ->
             runs F anything (from_cfn no_confirm substrings region d)) ->
  runs F anything (cleanup_env ctx no_confirm substrings).
Proof.
  intros Hregion Hrest. rewrite cleanup_env_blocks, <- Hregion.
  eapply first_bind; [apply emits_secho, Hsecho | intros _ _].
  eapply first_bind; [apply emits_confirm, Hask | intros proceed _].
  destruct proceed; [|apply runs_ret; [apply Hfree; constructor | exact I]].
  eapply first_bind;
    [apply emits_gather_resources; [exact Hlisted | intros; exact I] |].
  intros d Hd. pose proof (Hrest d Hd) as Hcfn.
  destruct Hd as (cfn & s3 & ecr & lam & ddb & -> & _).
  set (rest := from_cfn _ _ _ _) in Hcfn.
  unfold from_s3, from_ecr, from_lambda, from_ddb, s3_block, ecr_block, lambda_block,
    ddb_block.
  fold rest. getitems.
  apply (first_block s3 _ _ s3_empty_call);
    [exact Hs3 | apply emits_empty_s3_buckets | apply emits_ret; exact I
    | apply emits_secho, Hsecho |].
  apply (first_block ecr _ _ ecr_empty_call);
    [exact Hecr | apply emits_empty_ecr_repositories | apply emits_ret; exact I
    | apply emits_secho, Hsecho |].
  apply (first_block lam _ _ lambda_call);
    [exact Hlambda | apply emits_update_lambda_vpc_config | apply emits_ret; exact I
    | apply emits_secho, Hsecho |].
  apply (first_block ddb _ _ ddb_call);
    [exact Hddb | apply emits_remove_ddb_deletion_protection | apply emits_ret; exact I
    | apply emits_ret; exact I |].
  exact Hcfn.
Qed.

End FirstBlocks.

Lemma only_after_all (A B : event -> Prop) (t : list event) :
  Forall B t -> only_after A B t.
Proof.
  intros H pre x post -> _. apply Forall_app in H as [_ H]. now inversion H.
Qed.

Lemma only_after_prepend (A B : event -> Prop) (t1 t2 : list event) :
  Forall (fun x => ~ A x) t1 -> only_after A B t2 -> only_after A B (t1 ++ t2).
Proof.
  intros H1 H2 pre x post E Hx.
  apply split_app in E as [[post1 [E ->]] | [pre2 [-> E]]].
  - exfalso. exact (Forall_not_in _ _ _ _ _ H1 E Hx).
  - exact (H2 _ _ _ E Hx).
Qed.

Lemma only_once_past_free (A : event -> Prop) (mark : event) (t : list event) :
  Forall (fun x => ~ A x) t -> only_once_past A mark t.
Proof.
  intros H pre x post E Hx. exfalso. exact (Forall_not_in _ _ _ _ _ H E Hx).
Qed.

Lemma only_once_past_prepend (A : event -> Prop) (mark : event) (t1 t2 : list event) :
  Forall (fun x => ~ A x) t1 -> only_once_past A mark t2 -> only_once_past A mark (t1 ++ t2).
Proof.
  intros H1 H2 pre x post E Hx.
  apply split_app in E as [[post1 [E ->]] | [pre2 [-> E]]].
  - exfalso. exact (Forall_not_in _ _ _ _ _ H1 E Hx).
  - apply in_or_app. right. exact (H2 _ _ _ E Hx).
Qed.

Lemma only_once_past_marked (A : event -> Prop) (mark : event) (t1 t2 : list event) :
  Forall (fun x => ~ A x) t1 -> In mark t1 -> only_once_past A mark (t1 ++ t2).
Proof.
  intros H1 Hm pre x post E Hx.
  apply split_app in E as [[post1 [E ->]] | [pre2 [-> E]]].
  - exfalso. exact (Forall_not_in _ _ _ _ _ H1 E Hx).
  - apply in_or_app. now left.
Qed.

Section Order.
Context {aws : Boto3} {host : Host}.

(** X13.  Every run of [cleanup_env] opens with the message that names the
    substrings, the account and the region, and then asks whether to proceed,
    also when [no_confirm] is set.  When the operator declines, the run ends
    there: it returns normally, the account is as it was, nothing was listed
    or called. *)
Theorem cleanup_env_opening_prompt
    (ctx : Context) (no_confirm : bool) (env_list : list string) (c : cloud) :
  (exists rest,
     snd (cleanup_env ctx no_confirm env_list c)
     = Secho ("Cleaning up: " ++ str_of_list env_list ++ " in " ++ ACCOUNT_ID ctx
                ++ ":" ++ REGION ctx) (Some red)
       :: Confirm prompt_proceed (answer prompt_proceed) :: rest)
  /\ (answer prompt_proceed = false ->
      cleanup_env ctx no_confirm env_list c
      = (Ok tt, c,
         [ Secho ("Cleaning up: " ++ str_of_list env_list ++ " in " ++ ACCOUNT_ID ctx
                    ++ ":" ++ REGION ctx) (Some red);
           Confirm prompt_proceed false ])).
Proof.
  rewrite cleanup_env_blocks. unfold bind at 1 2, secho, emit, confirm.
  destruct (answer prompt_proceed).
  - split; [|intros H; discriminate H].
    destruct (bind _ _ c) as [[r c1] t]. now exists t.
  - split; [now exists [] | reflexivity].
Qed.

(** X14.  In every run of [cleanup_env], once the deletion of a stack has
    been requested nothing of the four blocks that precede the CloudFormation
    block happens any more: no listing or deletion of images, no update of a
    function or a table, and no prompt about buckets, repositories, functions
    or tables.  The stacks are deleted after the preparation, never during
    it. *)
Theorem cleanup_env_stacks_after_preparation
    (ctx : Context) (no_confirm : bool) (env_list : list string) (c : cloud) :
  only_after stack_deletion past_first_blocks (snd (cleanup_env ctx no_confirm env_list c)).
Proof.
  assert (H : runs (fun _ t => only_after stack_deletion past_first_blocks t) anything
                (cleanup_env ctx no_confirm env_list)).
  { apply (first_blocks _ (fun x => ~ stack_deletion x) no_confirm env_list (REGION ctx)).
    - intros _ t Ht pre x post E Hx. exfalso. exact (Forall_not_in _ _ _ _ _ Ht E Hx).
    - intros t1 _ t2. apply only_after_prepend.
    - intros message fg H; exact H.
    - intros r what H; exact H.
    - intros text reply H; exact H.
    - intros [| | | |r []] He H; try destruct He; exact H.
    - intros [| | | |r []] He H; try destruct He; exact H.
    - intros [| | | |r []] He H; try destruct He; exact H.
    - intros [| | | |r []] He H; try destruct He; exact H.
    - reflexivity.
    - intros d Hd.
      apply (emits_runs past_first_blocks anything);
        [intros o t Ht _; now apply only_after_all|].
      apply (emits_from_cfn past_first_blocks anything no_confirm env_list (REGION ctx));
        try (intros; exact I); try exact Hd;
        try (intros _ _; cbn; repeat split; intros Heq; discriminate Heq);
        intros _ [| | | |r []] He; try destruct He; exact I. }
  specialize (H c). destruct (cleanup_env ctx no_confirm env_list c) as [[r c1] t].
  apply H.
Qed.

Lemma unmanaged_listings (substrings : list string) (region : string) (c : cloud) :
  match gather_unmanaged_resources substrings region c with
  | (r, _, t) =>
      Forall (fun e => ~ second_pass_deletion e) t
      /\ forall d, r = Ok d -> In (Listed region DescribeLogGroups) t
  end.
Proof.
  pose proof (emits_gather_unmanaged_resources (fun e => ~ second_pass_deletion e) anything
                (fun _ _ H => H) (fun _ => I) substrings region c) as H.
  revert H. unfold gather_unmanaged_resources, gather_s3_buckets, gather_ssm_params,
    gather_log_groups.
  rewrite listing_then.
  destruct (buckets_all region c) as [[err|a1] c1];
    [intros [H _]; split; [exact H | intros d Hd; discriminate Hd]|].
  rewrite listing_then.
  destruct (describe_parameters region c1) as [[err|a2] c2];
    [intros [H _]; split; [exact H | intros d Hd; discriminate Hd]|].
  rewrite listing_then.
  destruct (describe_log_groups region c2) as [[err|a3] c3];
    [intros [H _]; split; [exact H | intros d Hd; discriminate Hd]|].
  intros [H _]. split; [exact H|]. intros d _. cbn. auto.
Qed.

Lemma second_pass_marked (no_confirm : bool) (substrings : list string) (region : string) :
  runs (fun _ t => only_once_past second_pass_deletion (Listed region DescribeLogGroups) t)
       anything (second_pass no_confirm substrings region).
Proof.
  intros c. unfold second_pass. unfold bind at 1.
  pose proof (unmanaged_listings substrings region c) as H.
  destruct (gather_unmanaged_resources substrings region c) as [[[d|e] c1] t1];
    destruct H as [Hfree Hmark].
  - destruct (bind _ _ c1) as [[r c2] t2].
    split; [|destruct r; exact I].
    apply only_once_past_marked; [exact Hfree | now apply (Hmark d)].
  - split; [now apply only_once_past_free | exact I].
Qed.

(** X15.  In every run of [cleanup_env], a bucket, a parameter or a log
    group is deleted only after the listing of the log groups, the last of
    the second inventory, has returned: the second pass deletes nothing
    before its inventory is complete, and the first pass deletes none of
    these. *)
Theorem cleanup_env_deletes_after_second_inventory
    (ctx : Context) (no_confirm : bool) (env_list : list string) (c : cloud) :
  only_once_past second_pass_deletion (Listed (REGION ctx) DescribeLogGroups)
    (snd (cleanup_env ctx no_confirm env_list c)).
Proof.
  set (F := fun (_ : option exn) (t : list event) =>
              only_once_past second_pass_deletion (Listed (REGION ctx) DescribeLogGroups) t).
  assert (Hfree : forall o t, Forall (fun x => ~ second_pass_deletion x) t -> F o t)
    by (intros o t; apply only_once_past_free).
  assert (Hpre : forall t1 o t2,
             Forall (fun x => ~ second_pass_deletion x) t1 -> F o t2 -> F o (t1 ++ t2))
    by (intros t1 o t2; apply only_once_past_prepend).
  assert (H : runs F anything (cleanup_env ctx no_confirm env_list)).
  { apply (first_blocks F (fun x => ~ second_pass_deletion x) no_confirm env_list
             (REGION ctx) Hfree Hpre).
    - intros message fg H; exact H.
    - intros r what H; exact H.
    - intros text reply H; exact H.
    - intros [| | | |r []] He H; try destruct He; exact H.
    - intros [| | | |r []] He H; try destruct He; exact H.
    - intros [| | | |r []] He H; try destruct He; exact H.
    - intros [| | | |r []] He H; try destruct He; exact H.
    - reflexivity.
    - intros d (cfn & s3 & ecr & lam & ddb & -> & _).
      unfold from_cfn, cfn_block. getitems.
      apply (first_block F (fun x => ~ second_pass_deletion x) no_confirm Hfree Hpre
               (fun _ _ H => H) (fun _ _ H => H) (fun _ _ H => H) cfn _ _ cfn_delete_call).
      + intros [| | | |r []] He H; try destruct He; exact H.
      + apply emits_delete_cloudformation_stacks.
      + apply emits_raise. exact I.
      + apply emits_secho. intros H; exact H.
      + apply second_pass_marked. }
  specialize (H c). destruct (cleanup_env ctx no_confirm env_list c) as [[r c1] t].
  apply H.
Qed.

(** X16.  What a run of [cleanup_env] can end with: never a [KeyError] (the
    five keys it reads are the keys [gather_resources] writes), and a click
    exception only when there is a substring to work on. *)
Theorem cleanup_env_lets_out
    (ctx : Context) (no_confirm : bool) (env_list : list string) (c : cloud) :
  match cleanup_env ctx no_confirm env_list c with
  | (Raise e, _, _) => orchestrator_exception env_list e
  | (Ok _, _, _) => True
  end.
Proof.
  assert (H : emits (fun _ => True) (orchestrator_exception env_list) anything
                (cleanup_env ctx no_confirm env_list)).
  { apply (emits_cleanup_env (fun _ => True) (orchestrator_exception env_list)
             no_confirm env_list (REGION ctx));
      try (intros; exact I); try reflexivity;
      try (unfold may_ask; intros; exact I); try (unfold may_call; intros; exact I).
    intros Hs message. exact Hs. }
  specialize (H c). destruct (cleanup_env ctx no_confirm env_list c) as [[[a|e] c1] t];
    [exact I | apply H].
Qed.

(** X17.  [cleanup_env_cli] runs [cleanup_env] and lets out nothing but click
    exceptions: it returns when [cleanup_env] returns, and every exception of
    [cleanup_env] becomes the click exception that carries its text in red.
    The trace and the account are those of [cleanup_env].  A run that ends on
    the declined CloudFormation prompt ends with a click exception whose
    message is empty: the [Abort] does not reach click as such. *)
Theorem cleanup_env_cli_click_exceptions
    (ctx : Context) (no_confirm : bool) (prefix_list : list string) (c : cloud) :
  match cleanup_env ctx no_confirm prefix_list c with
  | (Ok _, c1, t) => cleanup_env_cli ctx no_confirm prefix_list c = (Ok tt, c1, t)
  | (Raise e, c1, t) =>
      cleanup_env_cli ctx no_confirm prefix_list c
      = (Raise (ClickException (click_style (exn_str e) red)), c1, t)
  end
  /\ match cleanup_env_cli ctx no_confirm prefix_list c with
     | (r, _, t) =>
         match r with Ok _ => True | Raise e => click_exception e end
         /\ ((exists pre, t = pre ++ [Confirm prompt_cfn false]) ->
             r = Raise (ClickException (click_style "" red)))
     end.
Proof.
  pose proof (cleanup_env_abort ctx no_confirm prefix_list c) as Habort.
  unfold cleanup_env_cli, try_except, raise_for_click, raise, Exception.
  destruct (cleanup_env ctx no_confirm prefix_list c) as [[[[]|e] c1] t];
    destruct Habort as [[Hlast _] _]; cbn [raised] in Hlast.
  - split; [reflexivity|]. split; [exact I|].
    intros [pre ->]. destruct (Hlast pre [] eq_refl) as [_ H]. discriminate H.
  - rewrite app_nil_r. split; [reflexivity|]. split; [exact I|].
    intros [pre ->]. destruct (Hlast pre [] eq_refl) as [_ [= ->]]. reflexivity.
Qed.

End Order.

(** ** The further properties on the sample accounts *)

Lemma split_comma_round_trip_witness :
  split_comma "env-a,env-b" = ["env-a"; "env-b"].
Proof.
  destruct (split_comma_round_trip "" "" "") as (_ & _ & _ & _ & H).
  apply (H ["env-a"; "env-b"]); [discriminate | repeat constructor].
Defined.

Lemma empty_substring_selects_everything_witness :
  In "" ["zzz"; ""]
  /\ @gather_s3_buckets (scripted sample_account) ["zzz"; ""] "eu-west-1" 0%nat
     = (Ok ["env-a-logs"; "misc"], 1%nat, [Listed "eu-west-1" BucketsAll]).
Proof.
  split; [right; left; reflexivity|].
  destruct (@empty_substring_selects_everything (scripted sample_account)
              ["zzz"; ""] "eu-west-1" 0%nat (or_intror (or_introl eq_refl)))
    as (_ & H & _).
  exact H.
Defined.

Lemma gathered_names_distinct_witness :
  NoDup (map StackName (List.concat (acct_stacks sample_account)))
  /\ NoDup (sorted_stack_names (select_stacks ["env-a"; "env"] (acct_stacks sample_account))).
Proof.
  assert (H : NoDup (map StackName (List.concat (acct_stacks sample_account)))).
  { cbn. repeat (constructor; [cbn; intuition discriminate|]). constructor. }
  split; [exact H|].
  destruct (gathered_names_distinct StackSummary StackName ["env-a"; "env"] []
              (acct_stacks sample_account) [] []) as (_ & Hstacks & _).
  exact (Hstacks H).
Defined.

Lemma stacks_keep_listing_order_witness :
  descending CreationTime
    (filter (keeps_stack ["env-a"]) (List.concat (acct_stacks env_a_account)))
  /\ sorted_stack_names (select_stacks ["env-a"] (acct_stacks env_a_account))
     = ["env-a-app"; "env-a-db"].
Proof.
  assert (H : descending CreationTime
                (filter (keeps_stack ["env-a"]) (List.concat (acct_stacks env_a_account)))).
  { unfold descending. cbn. repeat constructor. cbn. lia. }
  split; [exact H|].
  destruct (stacks_keep_listing_order ["env-a"] (acct_stacks env_a_account))
    as (_ & _ & Hsorted).
  exact (Hsorted H).
Defined.

Lemma delete_cloudformation_stack_waits_witness :
  fst (fst (@delete_cloudformation_stack (scripted stuck_account) "env-a-app" "eu-west-1"
              0%nat))
  = Raise (SdkError waiter_error).
Proof.
  pose proof (@delete_cloudformation_stack_waits (scripted stuck_account) "env-a-app"
                "eu-west-1" 0%nat) as H.
  destruct (@delete_cloudformation_stack (scripted stuck_account) "env-a-app" "eu-west-1"
              0%nat) as [[r c] t].
  destruct H as (_ & _ & _ & H & _).
  destruct (H "Waiter StackDeleteComplete failed: Max attempts exceeded" 1%nat 2%nat
              eq_refl eq_refl) as [-> _].
  reflexivity.
Defined.

Lemma delete_resources_unknown_types_witness :
  Forall (fun kv => dict_get (@delete_methods (scripted empty_account)) (fst kv) = None)
         unknown_types_sample
  /\ @delete_resources (scripted empty_account) unknown_types_sample "eu-west-1" 0%nat
     = (Ok tt, 0%nat,
        [ Secho "No deletion method found for resource type: vpc_lambdas" (Some yellow);
          Secho "No deletion method found for resource type: ddb_tables" (Some yellow) ]).
Proof.
  assert (H : Forall (fun kv => dict_get (@delete_methods (scripted empty_account)) (fst kv)
                                = None) unknown_types_sample)
    by (repeat constructor).
  split; [exact H|].
  exact (@delete_resources_unknown_types (scripted empty_account) unknown_types_sample
           "eu-west-1" 0%nat H).
Defined.
